(** * OpenColorIO: op optimizer, OpData validation and GPU extraction

    A shallow embedding of the parts of OpenColorIO that turn an op list into
    an optimized pipeline:

    - [OpOptimizers.cpp]: [RemoveNoOpTypes], [RemoveNoOps],
      [RemoveInverseOps], [CombineOps], [FindSeparablePrefix],
      [OptimizeSeparablePrefix], [OptimizeOpVec];
    - [ops/CDL/CDLOpData.cpp] and
      [ops/FixedFunction/FixedFunctionOpData.cpp]: style names,
      construction, setters, validation and inversion of the parameter
      payloads;
    - [ops/Matrix/MatrixOpData.cpp]: offsets, arrays, validation,
      composition and clean-up of matrices;
    - [ops/Range/RangeOpCPU.cpp]: the clamping renderers and their choice;
    - [GPUProcessor.cpp]: [Create3DLut], [getDynamicProperty],
      [extractGpuShaderInfo].

    C++ [double] and [float] values are IEEE-754 binary64 and binary32
    numbers, embedded as [spec_float] with the arithmetic of
    [Stdlib.Floats.SpecFloat]; exceptions and loops that need fuel live in the
    [result] monad below. *)

From Stdlib Require Import String ZArith List Bool Lia.
From Stdlib Require Import Floats.SpecFloat.
Import ListNotations.

Local Open Scope Z_scope.

(* ================================================================== *)
(** * Outcomes of C++ calls *)
(* ================================================================== *)

(** One insertion into the [std::ostringstream] that builds a message. *)
Inductive piece : Type :=
| Str (s : string)
| Dbl (d : spec_float)
| Num (n : Z).

(** [OCIO::Exception]: the message is kept as the sequence of insertions. *)
Record Exception : Type := mkException { what : list piece }.

(** Why a modelled run has no C++ counterpart that returns. *)
Inductive fault : Type :=
| OutOfFuel     (* the loop was not finished within the given fuel *)
| OutOfBounds.  (* an index outside the vector: undefined behaviour *)

Inductive result (A : Type) : Type :=
| Ok (a : A)
| Throw (e : Exception)
| Fault (f : fault).

Arguments Ok {A} a.
Arguments Throw {A} e.
Arguments Fault {A} f.

Definition bind {A B : Type} (m : result A) (k : A -> result B) : result B :=
  match m with
  | Ok a => k a
  | Throw e => Throw e
  | Fault f => Fault f
  end.

Notation "x <- m ;; k" := (bind m (fun x => k))
  (at level 61, m at next level, right associativity).
Notation "m ;;; k" := (bind m (fun _ => k))
  (at level 61, right associativity).

Definition throws {A : Type} (m : result A) : Prop := exists e, m = Throw e.

Definition returns {A : Type} (m : result A) : Prop := exists a, m = Ok a.

(** The character ['\n'] of a C++ string literal. *)
Definition newline : string := String (Ascii.ascii_of_nat 10) EmptyString.

(** The message of a thrown exception contains the literal [s]. *)
Definition throws_with {A : Type} (m : result A) (s : string) : Prop :=
  exists e, m = Throw e /\ In (Str s) (what e).

(* ================================================================== *)
(** * Enumerations of [OpenColorTypes.h] used by the sources *)
(* ================================================================== *)

Inductive TransformDirection : Type :=
| TRANSFORM_DIR_UNKNOWN
| TRANSFORM_DIR_FORWARD
| TRANSFORM_DIR_INVERSE.

Inductive BitDepth : Type :=
| BIT_DEPTH_UNKNOWN
| BIT_DEPTH_UINT8
| BIT_DEPTH_UINT10
| BIT_DEPTH_UINT12
| BIT_DEPTH_UINT14
| BIT_DEPTH_UINT16
| BIT_DEPTH_UINT32
| BIT_DEPTH_F16
| BIT_DEPTH_F32.

(** [OpData::Type]. *)
Inductive OpDataType : Type :=
| CDLType
| ExponentType
| ExposureContrastType
| FixedFunctionType
| GammaType
| LogType
| Lut1DType
| Lut3DType
| MatrixType
| RangeType
| ReferenceType
| NoOpType.

Definition TransformDirection_eqb (a b : TransformDirection) : bool :=
  match a, b with
  | TRANSFORM_DIR_UNKNOWN, TRANSFORM_DIR_UNKNOWN
  | TRANSFORM_DIR_FORWARD, TRANSFORM_DIR_FORWARD
  | TRANSFORM_DIR_INVERSE, TRANSFORM_DIR_INVERSE => true
  | _, _ => false
  end.

Definition is_Lut1DType (t : OpDataType) : bool :=
  match t with Lut1DType => true | _ => false end.

(* ================================================================== *)
(** * IEEE-754 numbers *)
(* ================================================================== *)

(** C++ [double]: binary64. *)
Module Double.
Definition prec : Z := 53.
Definition emax : Z := 1024.

Definition t : Type := spec_float.

Definition of_Z (z : Z) : t := binary_normalize prec emax z 0 false.

Definition add : t -> t -> t := SFadd prec emax.
Definition sub : t -> t -> t := SFsub prec emax.
Definition mul : t -> t -> t := SFmul prec emax.
Definition div : t -> t -> t := SFdiv prec emax.
Definition fabs : t -> t := SFabs.
Definition neg : t -> t := SFopp.

  (** The decimal literal [n/d], correctly rounded, for [n] and [d] that are
      themselves representable. *)
Definition lit (n d : Z) : t := div (of_Z n) (of_Z d).

Definition zero : t := S754_zero false.
Definition one : t := of_Z 1.
Definition nan : t := S754_nan.

  (** The C++ comparison operators. *)
Definition lt (a b : t) : bool := SFltb a b.   (* a <  b *)
Definition le (a b : t) : bool := SFleb a b.   (* a <= b *)
Definition gt (a b : t) : bool := SFltb b a.   (* a >  b *)
Definition ge (a b : t) : bool := SFleb b a.   (* a >= b *)
Definition eq (a b : t) : bool := SFeqb a b.   (* a == b *)
Definition ne (a b : t) : bool := negb (SFeqb a b).

Definition isnan (a : t) : bool :=
    match a with S754_nan => true | _ => false end.
End Double.

(** C++ [float]: binary32. *)
Module Single.
Definition prec : Z := 24.
Definition emax : Z := 128.

Definition t : Type := spec_float.

Definition of_Z (z : Z) : t := binary_normalize prec emax z 0 false.

Definition add : t -> t -> t := SFadd prec emax.
Definition mul : t -> t -> t := SFmul prec emax.
Definition div : t -> t -> t := SFdiv prec emax.

Definition lit (n d : Z) : t := div (of_Z n) (of_Z d).

Definition zero : t := S754_zero false.
Definition nan : t := S754_nan.

Definition lt (a b : t) : bool := SFltb a b.

  (** [std::max(a, b)] is [(a < b) ? b : a]. *)
Definition std_max (a b : t) : t := if lt a b then b else a.

  (** [std::min(a, b)] is [(b < a) ? b : a]. *)
Definition std_min (a b : t) : t := if lt b a then b else a.

  (** The conversion [(float) d] of a double: round to nearest even. *)
Definition of_double (d : spec_float) : t :=
    match d with
    | S754_finite s m e => binary_normalize prec emax (cond_Zopp s (Zpos m)) e s
    | _ => d
    end.
End Single.

(* ================================================================== *)
(** * The [Op] interface ([Op.h]) *)
(* ================================================================== *)

(** The virtual methods of [Op] that [OpOptimizers.cpp] calls.  The op
    classes are outside the sources embedded here, so the optimizer is
    verified against any implementation of the interface.  [combineWith a b]
    is the content pushed onto the (cleared) [tmpops]; the optimizer calls it
    only when [canCombineWith a b] holds.

    The methods are taken to return: an implementation in which one of them
    raises is not an instance of this interface.  That leaves out, for
    example, a FixedFunction op whose data is the unvalidated result of
    [inverse()], on which [FixedFunctionOpData::isInverse] raises (see
    [FixedFunction.isInverse] below, a [result bool]).  What is proved of
    the sweeps and of [OptimizeOpVec] is proved of ops whose methods
    return. *)
Class OpInterface (Op : Type) : Type := {
  isNoOp : Op -> bool;
  isSameType : Op -> Op -> bool;
  isInverse : Op -> Op -> bool;
  canCombineWith : Op -> Op -> bool;
  combineWith : Op -> Op -> list Op;
  hasChannelCrosstalk : Op -> bool;
  isDynamic : Op -> bool;
  getType : Op -> OpDataType;          (* op->data()->getType() *)
  getDirection : Op -> TransformDirection;
  clone : Op -> Op
}.

(** What [OptimizeSeparablePrefix] needs from [Lut1DOpData] and
    [Lut1DOp.h]: [MakeLookupDomain], [ComposeVec] and [CreateLut1DOp]. *)
Class Lut1DInterface (Op : Type) : Type := {
  Lut1DOpData : Type;
  MakeLookupDomain : BitDepth -> Lut1DOpData;
  ComposeVec : Lut1DOpData -> list Op -> Lut1DOpData;
  CreateLut1DOp : Lut1DOpData -> TransformDirection -> list Op
}.

(* ================================================================== *)
(** * [OpOptimizers.cpp] *)
(* ================================================================== *)

Module Optimizer.

Definition MAX_OPTIMIZATION_PASSES : Z := 8.

  (** [static_cast<int>(u)] for a 64-bit [size_t] value [u]. *)
Definition static_cast_int (u : Z) : Z :=
    let w := u mod 2 ^ 32 in
    if w <? 2 ^ 31 then w else w - 2 ^ 32.

Section Passes.
Context {Op : Type} `{OpInterface Op}.

    (** [opVec.size() - 1] in [size_t], then cast to [int]. *)
Definition last_index (opVec : list Op) : Z :=
      static_cast_int ((Z.of_nat (length opVec) - 1) mod 2 ^ 64).

    (** [opVec.erase(opVec.begin() + i, opVec.begin() + j)]. *)
Definition erase (opVec : list Op) (i j : Z) : list Op :=
      firstn (Z.to_nat i) opVec ++ skipn (Z.to_nat j) opVec.

    (** [opVec.insert(opVec.begin() + i, tmpops.begin(), tmpops.end())]. *)
Definition insert (opVec : list Op) (i : Z) (tmpops : list Op) : list Op :=
      firstn (Z.to_nat i) opVec ++ tmpops ++ skipn (Z.to_nat i) opVec.

    (** [RemoveNoOpTypes]: the iterator sweep that erases the ops whose data is
    of [OpData::NoOpType]. *)
Definition is_NoOpType (t : OpDataType) : bool :=
  match t with NoOpType => true | _ => false end.

Fixpoint RemoveNoOpTypes (rest : list Op) : list Op :=
  match rest with
  | [] => []
  | o :: rest' =>
      if is_NoOpType (getType o) then RemoveNoOpTypes rest'
      else o :: RemoveNoOpTypes rest'
  end.

(** The iterator sweep of [RemoveNoOps]; the list argument is the part
        of the vector from [iter] to [end()]. *)
Fixpoint RemoveNoOps_loop (rest : list Op) (count : Z) : list Op * Z :=
      match rest with
      | [] => ([], count)
      | o :: rest' =>
          if isNoOp o then RemoveNoOps_loop rest' (count + 1)
          else let '(kept, count') := RemoveNoOps_loop rest' count in
               (o :: kept, count')
      end.

Definition RemoveNoOps (opVec : list Op) : list Op * Z :=
      RemoveNoOps_loop opVec 0.

    (** The [while] loop of [RemoveInverseOps]; one unit of fuel per
        iteration. *)
Fixpoint RemoveInverseOps_loop (fuel : nat) (opVec : list Op)
        (firstindex count : Z) : result (list Op * Z) :=
      if firstindex <? last_index opVec then
        match fuel with
        | O => Fault OutOfFuel
        | S fuel' =>
            match nth_error opVec (Z.to_nat firstindex),
                  nth_error opVec (Z.to_nat (firstindex + 1)) with
            | Some first, Some second =>
                if isSameType first second && isInverse first second then
                  RemoveInverseOps_loop fuel'
                    (erase opVec firstindex (firstindex + 2))
                    (Z.max 0 (firstindex - 1)) (count + 1)
                else
                  RemoveInverseOps_loop fuel' opVec (firstindex + 1) count
            | _, _ => Fault OutOfBounds
            end
        end
      else Ok (opVec, count).

    (** Fuel that always suffices: every iteration lowers
        [2 * size - firstindex]. *)
Definition RemoveInverseOps (opVec : list Op) : result (list Op * Z) :=
      RemoveInverseOps_loop (2 * length opVec + 1) opVec 0 0.

    (** The [while] loop of [CombineOps]. *)
Fixpoint CombineOps_loop (fuel : nat) (opVec : list Op)
        (firstindex count : Z) : result (list Op * Z) :=
      if firstindex <? last_index opVec then
        match fuel with
        | O => Fault OutOfFuel
        | S fuel' =>
            match nth_error opVec (Z.to_nat firstindex),
                  nth_error opVec (Z.to_nat (firstindex + 1)) with
            | Some first, Some second =>
                if canCombineWith first second then
                  let tmpops := combineWith first second in
                  let erased := erase opVec firstindex (firstindex + 2) in
                  CombineOps_loop fuel'
                    (insert erased firstindex tmpops)
                    (Z.max 0 (firstindex - 1)) (count + 1)
                else
                  CombineOps_loop fuel' opVec (firstindex + 1) count
            | _, _ => Fault OutOfBounds
            end
        end
      else Ok (opVec, count).

    (** [combineWith] may return several ops, so no bound on the number of
        iterations exists in general: the fuel is a parameter. *)
Definition CombineOps (fuel : nat) (opVec : list Op) : result (list Op * Z) :=
      CombineOps_loop fuel opVec 0 0.

    (** The vector is short enough for [int] indices. *)
Definition fits_int (opVec : list Op) : Prop :=
  Z.of_nat (length opVec) <= 2 ^ 31.

(** The two ops are an exact-inverse pair for [RemoveInverseOps]. *)
Definition inverse_pair (first second : Op) : bool :=
      isSameType first second && isInverse first second.

(** ** [FindSeparablePrefix] *)

(** The first [for] loop: count ops until one has crosstalk or is dynamic. *)
Fixpoint separable_run (ops : list Op) : nat :=
  match ops with
  | [] => O
  | op :: rest =>
      if hasChannelCrosstalk op || isDynamic op then O
      else S (separable_run rest)
  end.

(** "Potentially separable, but inexpensive ops": matrix and range. *)
Definition is_inexpensive (t : OpDataType) : bool :=
  match t with
  | MatrixType | RangeType => true
  | _ => false
  end.

(** A nest of inverse pairs: the first ops in order, then the second ops
    in reverse order, [A, B, ..., B', A']. *)
Definition nested (pairs : list (Op * Op)) : list Op :=
  map fst pairs ++ rev (map snd pairs).

(** The second [for] loop, over the ops [i < prefixLen]. *)
Fixpoint count_expensive (run : list Op) (expensiveOps : nat) : result nat :=
  match run with
  | [] => Ok expensiveOps
  | op :: rest =>
      if hasChannelCrosstalk op then
        Throw (mkException [Str "Non-separable op."])
      else
        match getType op with
        | MatrixType | RangeType => count_expensive rest expensiveOps
        | _ => count_expensive rest (S expensiveOps)
        end
  end.

Definition FindSeparablePrefix (ops : list Op) : result nat :=
  let prefixLen := separable_run ops in
  let only_forward_lut :=
    Nat.eqb prefixLen 1 &&
    match ops with
    | constOp0 :: _ =>
        is_Lut1DType (getType constOp0) &&
        TransformDirection_eqb (getDirection constOp0) TRANSFORM_DIR_FORWARD
    | [] => false
    end in
  if only_forward_lut then Ok O
  else
    expensiveOps <- count_expensive (firstn prefixLen ops) O ;;
    if Nat.eqb expensiveOps 0 then Ok O else Ok prefixLen.

End Passes.

(** ** [OptimizeSeparablePrefix] and [OptimizeOpVec] *)

(** Constants and services the optimizer takes from the rest of the
    library: the flag bit of [OpenColorTypes.h], and [Logging.h]. *)
Class OptimizerEnv (Op : Type) : Type := {
  OPTIMIZATION_COMP_SEPARABLE_PREFIX : Z;
  IsDebugLoggingEnabled : bool;
  SerializeOpVec : list Op -> Z -> string
}.

(** The value of the locals of [OptimizeOpVec] when it returns, and the
    arguments of its calls of [LogDebug], in order. *)
Record Optimized (Op : Type) : Type := mkOptimized {
  opt_ops : list Op;
  opt_passes : Z;
  opt_log : list (list piece)
}.

Arguments mkOptimized {Op} _ _ _.
Arguments opt_ops {Op} _.
Arguments opt_passes {Op} _.
Arguments opt_log {Op} _.

(** The locals of the fixed-point loop. *)
Record LoopState (Op : Type) : Type := mkLoopState {
  ls_ops : list Op;
  ls_passes : Z;
  ls_total_noops : Z;
  ls_total_inverseops : Z;
  ls_total_combines : Z
}.

Arguments mkLoopState {Op} _ _ _ _ _.
Arguments ls_ops {Op} _.
Arguments ls_passes {Op} _.
Arguments ls_total_noops {Op} _.
Arguments ls_total_inverseops {Op} _.
Arguments ls_total_combines {Op} _.

Section Driver.
Context {Op : Type} `{OpInterface Op} `{Lut1DInterface Op} `{OptimizerEnv Op}.

Definition is_F32_or_UINT32 (d : BitDepth) : bool :=
  match d with
  | BIT_DEPTH_F32 | BIT_DEPTH_UINT32 => true
  | _ => false
  end.

Definition OptimizeSeparablePrefix (ops : list Op) (inDepth : BitDepth)
    (oFlags : Z) : result (list Op) :=
  match ops with
  | [] => Ok ops
  | _ :: _ =>
      if is_F32_or_UINT32 inDepth then Ok ops
      else
        prefixLen <- FindSeparablePrefix ops ;;
        if Nat.eqb prefixLen 0 then Ok ops
        else
          let prefixOps := map clone (firstn prefixLen ops) in
          let newDomain := MakeLookupDomain inDepth in
          let newDomain' := ComposeVec newDomain prefixOps in
          let erased := skipn prefixLen ops in
          let lutOps := CreateLut1DOp newDomain' TRANSFORM_DIR_FORWARD in
          Ok (lutOps ++ erased)
  end.

(** One run of the body of the [while] loop: the three sweeps and their
    counts.  [fuel] bounds the iterations of [CombineOps]. *)
Definition one_pass (fuel : nat) (ops : list Op)
    : result (list Op * (Z * Z * Z)) :=
  let '(ops1, noops) := RemoveNoOps ops in
  r2 <- RemoveInverseOps ops1 ;;
  let '(ops2, inverseops) := r2 in
  r3 <- CombineOps fuel ops2 ;;
  let '(ops3, combines) := r3 in
  Ok (ops3, (noops, inverseops, combines)).

(** A pass finds nothing to remove or combine in [ops]. *)
Definition no_progress (fuel : nat) (ops : list Op) : Prop :=
  one_pass fuel ops = Ok (ops, (0, 0, 0)).

(** [while (passes <= MAX_OPTIMIZATION_PASSES)]; [n] bounds the number of
    iterations of this loop. *)
Fixpoint OptimizeOpVec_loop (n : nat) (fuel : nat) (st : LoopState Op)
    : result (LoopState Op) :=
  if ls_passes st <=? MAX_OPTIMIZATION_PASSES then
    match n with
    | O => Fault OutOfFuel
    | S n' =>
        r <- one_pass fuel (ls_ops st) ;;
        let '(ops', (noops, inverseops, combines)) := r in
        if (noops =? 0) && (inverseops =? 0) && (combines =? 0) then
          Ok (mkLoopState ops' (ls_passes st) (ls_total_noops st)
                (ls_total_inverseops st) (ls_total_combines st))
        else
          OptimizeOpVec_loop n' fuel
            (mkLoopState ops' (ls_passes st + 1)
               (ls_total_noops st + noops)
               (ls_total_inverseops st + inverseops)
               (ls_total_combines st + combines))
    end
  else Ok st.

Definition has_flag (oFlags flag : Z) : bool := Z.land oFlags flag =? flag.

(** The message built when [passes == MAX_OPTIMIZATION_PASSES]. *)
Definition max_passes_message (passes : Z) : list piece :=
  [Str "The max number of passes, "; Num passes; Str ", ";
   Str "was reached during optimization. This is likely a sign ";
   Str "that either the complexity of the color transform is ";
   Str "very high, or that some internal optimizers are in conflict ";
   Str "(undo-ing / redo-ing the other's results)."].

Definition summary_message (originalSize finalSize : Z) (st : LoopState Op)
    : list piece :=
  [Str "Optimized "; Num originalSize; Str "->"; Num finalSize; Str ", ";
   Num (ls_passes st); Str " passes, ";
   Num (ls_total_noops st); Str " noops removed, ";
   Num (ls_total_inverseops st); Str (" inverse ops removed" ++ newline);
   Num (ls_total_combines st); Str (" ops combines" ++ newline);
   Str (SerializeOpVec (ls_ops st) 4)].

(** [OptimizeOpVec(ops, inBitDepth, oFlags)].  The loop runs while
    [passes <= 8], so ten units of fuel always finish it. *)
Definition OptimizeOpVec (fuel : nat) (ops : list Op) (inBitDepth : BitDepth)
    (oFlags : Z) : result (Optimized Op) :=
  match ops with
  | [] => Ok (mkOptimized ops 0 [])
  | _ :: _ =>
      let log0 :=
        if IsDebugLoggingEnabled
        then [[Str "Optimizing Op Vec..."]; [Str (SerializeOpVec ops 4)]]
        else [] in
      let originalSize := Z.of_nat (length ops) in
      st <- OptimizeOpVec_loop 10 fuel (mkLoopState ops 0 0 0 0) ;;
      ops' <- match ls_ops st with
              | [] => Ok (ls_ops st)
              | _ :: _ =>
                  if has_flag oFlags OPTIMIZATION_COMP_SEPARABLE_PREFIX
                  then OptimizeSeparablePrefix (ls_ops st) inBitDepth oFlags
                  else Ok (ls_ops st)
              end ;;
      let finalSize := Z.of_nat (length ops') in
      let log1 :=
        if ls_passes st =? MAX_OPTIMIZATION_PASSES
        then [max_passes_message (ls_passes st)]
        else [] in
      let st' := mkLoopState ops' (ls_passes st) (ls_total_noops st)
                   (ls_total_inverseops st) (ls_total_combines st) in
      let log2 :=
        if IsDebugLoggingEnabled
        then [summary_message originalSize finalSize st']
        else [] in
      Ok (mkOptimized ops' (ls_passes st) (log0 ++ log1 ++ log2))
  end.

(** The run that returned [r] baked no prefix: [r] holds the ops as the
    [while] loop left them ([OptimizeSeparablePrefix] was not called, or it
    changed nothing). *)
Definition no_prefix_baked (fuel : nat) (ops : list Op) (r : Optimized Op)
    : Prop :=
  forall st : LoopState Op,
    OptimizeOpVec_loop 10 fuel (mkLoopState ops 0 0 0 0) = Ok st ->
    opt_ops r = ls_ops st.

(** What [OptimizeSeparablePrefix] relies on from [CreateLut1DOp]: it
    pushes one op, a forward 1D LUT, which processes the channels
    independently and has no dynamic property. *)
Definition creates_plain_lut : Prop :=
  forall lut : Lut1DOpData, exists l : Op,
    CreateLut1DOp lut TRANSFORM_DIR_FORWARD = [l] /\
    getType l = Lut1DType /\
    getDirection l = TRANSFORM_DIR_FORWARD /\
    hasChannelCrosstalk l = false /\
    isDynamic l = false.

End Driver.
End Optimizer.

(* ================================================================== *)
(** * The [OpData] base class ([OpData.h]) *)
(* ================================================================== *)

(** What the derived classes use of their base sub-object (format
    metadata, ID): its default construction, [OpData::validate()] and
    [OpData::operator==]. *)
Class OpDataInterface (Base : Type) : Type := {
  OpData_default : Base;
  OpData_validate : Base -> result unit;
  OpData_eqb : Base -> Base -> bool
}.

(** [OpData::validate()] accepts the base sub-object, as it does for the
    default-constructed and the file-built objects of the unit tests. *)
Definition base_validates {Base : Type} `{OpDataInterface Base} : Prop :=
  forall b : Base, OpData_validate b = Ok tt.

(* ================================================================== *)
(** * [Platform.h] *)
(* ================================================================== *)

(** [Platform::Strcasecmp], which the readers of style names call and
    compare with zero. *)
Class PlatformInterface : Type := {
  Strcasecmp : string -> string -> Z
}.

(** [tolower] in the C locale: the letters A to Z become a to z. *)
Definition tolower (c : Ascii.ascii) : Ascii.ascii :=
  let n := Ascii.nat_of_ascii c in
  if ((65 <=? n) && (n <=? 90))%nat then Ascii.ascii_of_nat (n + 32) else c.

Fixpoint case_fold (s : string) : string :=
  match s with
  | EmptyString => EmptyString
  | String c rest => String (tolower c) (case_fold rest)
  end.

(** What is asked of [Strcasecmp]: it is zero exactly on two strings that
    are equal once the case of their letters is ignored. *)
Definition Strcasecmp_ignores_case `{PlatformInterface} : Prop :=
  forall a b : string, Strcasecmp a b = 0 <-> case_fold a = case_fold b.

(* ================================================================== *)
(** * [ops/CDL/CDLOpData.cpp] *)
(* ================================================================== *)

Module CDL.

Inductive Style : Type :=
| CDL_V1_2_FWD
| CDL_V1_2_REV
| CDL_NO_CLAMP_FWD
| CDL_NO_CLAMP_REV.

Definition Style_eqb (a b : Style) : bool :=
  match a, b with
  | CDL_V1_2_FWD, CDL_V1_2_FWD
  | CDL_V1_2_REV, CDL_V1_2_REV
  | CDL_NO_CLAMP_FWD, CDL_NO_CLAMP_FWD
  | CDL_NO_CLAMP_REV, CDL_NO_CLAMP_REV => true
  | _, _ => false
  end.

(** [CDLOpData::ChannelParams]: red, green and blue values. *)
Record ChannelParams : Type := mkChannelParams {
  red : Double.t;
  green : Double.t;
  blue : Double.t
}.

(** [ChannelParams(double x)]: the same value on the three channels. *)
Definition uniform (x : Double.t) : ChannelParams := mkChannelParams x x x.

(** [ChannelParams::operator==]. *)
Definition ChannelParams_eqb (a b : ChannelParams) : bool :=
  Double.eq (red a) (red b) && Double.eq (green a) (green b) &&
  Double.eq (blue a) (blue b).

Definition kOneParams : ChannelParams := uniform Double.one.
Definition kZeroParams : ChannelParams := uniform Double.zero.

Definition GetDefaultStyle : Style := CDL_V1_2_FWD.

(** "Original CTF styles" and "CLF styles (also allowed now in CTF)". *)
Definition V1_2_FWD_NAME : string := "v1.2_Fwd".
Definition V1_2_REV_NAME : string := "v1.2_Rev".
Definition NO_CLAMP_FWD_NAME : string := "noClampFwd".
Definition NO_CLAMP_REV_NAME : string := "noClampRev".
Definition V1_2_FWD_CLF_NAME : string := "Fwd".
Definition V1_2_REV_CLF_NAME : string := "Rev".
Definition NO_CLAMP_FWD_CLF_NAME : string := "FwdNoClamp".
Definition NO_CLAMP_REV_CLF_NAME : string := "RevNoClamp".

(** [CDLOpData::GetStyle(name)]; [None] is the null pointer, and the names
    are tried in the order of the source. *)
Definition GetStyle `{PlatformInterface} (name : option string)
    : result Style :=
  let unknown := Throw (mkException [Str "Unknown style for CDL."]) in
  match name with
  | Some (String _ _ as n) =>
      if Strcasecmp n V1_2_FWD_NAME =? 0 then Ok CDL_V1_2_FWD
      else if Strcasecmp n V1_2_FWD_CLF_NAME =? 0 then Ok CDL_V1_2_FWD
      else if Strcasecmp n V1_2_REV_NAME =? 0 then Ok CDL_V1_2_REV
      else if Strcasecmp n V1_2_REV_CLF_NAME =? 0 then Ok CDL_V1_2_REV
      else if Strcasecmp n NO_CLAMP_FWD_NAME =? 0 then Ok CDL_NO_CLAMP_FWD
      else if Strcasecmp n NO_CLAMP_FWD_CLF_NAME =? 0 then Ok CDL_NO_CLAMP_FWD
      else if Strcasecmp n NO_CLAMP_REV_NAME =? 0 then Ok CDL_NO_CLAMP_REV
      else if Strcasecmp n NO_CLAMP_REV_CLF_NAME =? 0 then Ok CDL_NO_CLAMP_REV
      else unknown
  | _ => unknown
  end.

(** [CDLOpData::GetStyleName(style)]: the CLF name. *)
Definition GetStyleName (style : Style) : string :=
  match style with
  | CDL_V1_2_FWD => V1_2_FWD_CLF_NAME
  | CDL_V1_2_REV => V1_2_REV_CLF_NAME
  | CDL_NO_CLAMP_FWD => NO_CLAMP_FWD_CLF_NAME
  | CDL_NO_CLAMP_REV => NO_CLAMP_REV_CLF_NAME
  end.

(** The parameter domain, in the words of the source: "The ASC v1.2 spec
    places the following restrictions: slope >= 0, power > 0, sat >= 0,
    (offset unbounded)". *)
Definition in_domain (slopeParams powerParams : ChannelParams)
    (saturation : Double.t) : bool :=
  Double.ge (red slopeParams) Double.zero &&
  Double.ge (green slopeParams) Double.zero &&
  Double.ge (blue slopeParams) Double.zero &&
  Double.gt (red powerParams) Double.zero &&
  Double.gt (green powerParams) Double.zero &&
  Double.gt (blue powerParams) Double.zero &&
  Double.ge saturation Double.zero.

Section Data.
Context {Base : Type} `{OpDataInterface Base}.

Record CDLOpData : Type := mkCDLOpData {
  base : Base;
  m_style : Style;
  m_slopeParams : ChannelParams;
  m_offsetParams : ChannelParams;
  m_powerParams : ChannelParams;
  m_saturation : Double.t
}.

(** [validateGreaterEqual]: throws unless [value >= threshold]. *)
Definition validateGreaterEqual (name : string) (value threshold : Double.t)
    : result unit :=
  if negb (Double.ge value threshold) then
    Throw (mkException
             [Str "CDL: Invalid '"; Str name; Str "' "; Dbl value;
              Str " should be greater than "; Dbl threshold; Str "."])
  else Ok tt.

(** [validateGreaterThan]: throws unless [value > threshold]. *)
Definition validateGreaterThan (name : string) (value threshold : Double.t)
    : result unit :=
  if negb (Double.gt value threshold) then
    Throw (mkException
             [Str "CDLOpData: Invalid '"; Str name; Str "' "; Dbl value;
              Str " should be greater than "; Dbl threshold; Str "."])
  else Ok tt.

(** [validateChannelParams<fnVal>]: the loop over the three channels. *)
Definition validateChannelParams
    (fnVal : string -> Double.t -> Double.t -> result unit)
    (name : string) (params : ChannelParams) (threshold : Double.t)
    : result unit :=
  fnVal name (red params) threshold ;;;
  fnVal name (green params) threshold ;;;
  fnVal name (blue params) threshold.

Definition validateParams (slopeParams powerParams : ChannelParams)
    (saturation : Double.t) : result unit :=
  validateChannelParams validateGreaterEqual "slope" slopeParams Double.zero ;;;
  validateChannelParams validateGreaterThan "power" powerParams Double.zero ;;;
  validateGreaterEqual "saturation" saturation Double.zero.

Definition validate (d : CDLOpData) : result unit :=
  OpData_validate (base d) ;;;
  validateParams (m_slopeParams d) (m_powerParams d) (m_saturation d).

(** [CDLOpData::CDLOpData()]: no validation. *)
Definition CDLOpData_default : CDLOpData :=
  mkCDLOpData OpData_default GetDefaultStyle
    (uniform Double.one) (uniform Double.zero) (uniform Double.one) Double.one.

(** [CDLOpData::CDLOpData(style, slope, offset, power, saturation)]. *)
Definition CDLOpData_new (style : Style)
    (slopeParams offsetParams powerParams : ChannelParams)
    (saturation : Double.t) : result CDLOpData :=
  let d := mkCDLOpData OpData_default style slopeParams offsetParams
             powerParams saturation in
  validate d ;;; Ok d.

(** The setters assign the member and return. *)
Definition setStyle (d : CDLOpData) (style : Style) : result CDLOpData :=
  Ok (mkCDLOpData (base d) style (m_slopeParams d) (m_offsetParams d)
        (m_powerParams d) (m_saturation d)).

Definition setSlopeParams (d : CDLOpData) (slopeParams : ChannelParams)
    : result CDLOpData :=
  Ok (mkCDLOpData (base d) (m_style d) slopeParams (m_offsetParams d)
        (m_powerParams d) (m_saturation d)).

Definition setOffsetParams (d : CDLOpData) (offsetParams : ChannelParams)
    : result CDLOpData :=
  Ok (mkCDLOpData (base d) (m_style d) (m_slopeParams d) offsetParams
        (m_powerParams d) (m_saturation d)).

Definition setPowerParams (d : CDLOpData) (powerParams : ChannelParams)
    : result CDLOpData :=
  Ok (mkCDLOpData (base d) (m_style d) (m_slopeParams d) (m_offsetParams d)
        powerParams (m_saturation d)).

Definition setSaturation (d : CDLOpData) (saturation : Double.t)
    : result CDLOpData :=
  Ok (mkCDLOpData (base d) (m_style d) (m_slopeParams d) (m_offsetParams d)
        (m_powerParams d) saturation).

Definition isReverse (d : CDLOpData) : bool :=
  match m_style d with
  | CDL_V1_2_FWD => false
  | CDL_V1_2_REV => true
  | CDL_NO_CLAMP_FWD => false
  | CDL_NO_CLAMP_REV => true
  end.

Definition isClamping (d : CDLOpData) : bool :=
  match m_style d with
  | CDL_V1_2_FWD => true
  | CDL_V1_2_REV => true
  | CDL_NO_CLAMP_FWD => false
  | CDL_NO_CLAMP_REV => false
  end.

Definition isIdentity (d : CDLOpData) : bool :=
  ChannelParams_eqb (m_slopeParams d) kOneParams &&
  ChannelParams_eqb (m_offsetParams d) kZeroParams &&
  ChannelParams_eqb (m_powerParams d) kOneParams &&
  Double.eq (m_saturation d) Double.one.

Definition isNoOp (d : CDLOpData) : bool := isIdentity d && negb (isClamping d).

Definition hasChannelCrosstalk (d : CDLOpData) : bool :=
  Double.ne (m_saturation d) Double.one.

(** [clone()] copy-constructs: every member, the base included. *)
Definition clone (d : CDLOpData) : CDLOpData := d.

(** [operator==] between two distinct objects. *)
Definition equals (a b : CDLOpData) : bool :=
  OpData_eqb (base a) (base b) &&
  (Style_eqb (m_style a) (m_style b) &&
   ChannelParams_eqb (m_slopeParams a) (m_slopeParams b) &&
   ChannelParams_eqb (m_offsetParams a) (m_offsetParams b) &&
   ChannelParams_eqb (m_powerParams a) (m_powerParams b) &&
   Double.eq (m_saturation a) (m_saturation b)).

Definition inverse (d : CDLOpData) : CDLOpData :=
  let cdl := clone d in
  let style :=
    match m_style cdl with
    | CDL_V1_2_FWD => CDL_V1_2_REV
    | CDL_V1_2_REV => CDL_V1_2_FWD
    | CDL_NO_CLAMP_FWD => CDL_NO_CLAMP_REV
    | CDL_NO_CLAMP_REV => CDL_NO_CLAMP_FWD
    end in
  mkCDLOpData (base cdl) style (m_slopeParams cdl) (m_offsetParams cdl)
    (m_powerParams cdl) (m_saturation cdl).

(** [isInverse(r)] is [*r == *inverse()]. *)
Definition isInverse (d r : CDLOpData) : bool := equals r (inverse d).

End Data.

Arguments CDLOpData Base : clear implicits.

End CDL.

(* ================================================================== *)
(** * [ops/FixedFunction/FixedFunctionOpData.cpp] *)
(* ================================================================== *)

Module FixedFunction.

Inductive Style : Type :=
| ACES_RED_MOD_03_FWD
| ACES_RED_MOD_03_INV
| ACES_RED_MOD_10_FWD
| ACES_RED_MOD_10_INV
| ACES_GLOW_03_FWD
| ACES_GLOW_03_INV
| ACES_GLOW_10_FWD
| ACES_GLOW_10_INV
| ACES_DARK_TO_DIM_10_FWD
| ACES_DARK_TO_DIM_10_INV
| REC2100_SURROUND.

Definition Style_eqb (a b : Style) : bool :=
  match a, b with
  | ACES_RED_MOD_03_FWD, ACES_RED_MOD_03_FWD
  | ACES_RED_MOD_03_INV, ACES_RED_MOD_03_INV
  | ACES_RED_MOD_10_FWD, ACES_RED_MOD_10_FWD
  | ACES_RED_MOD_10_INV, ACES_RED_MOD_10_INV
  | ACES_GLOW_03_FWD, ACES_GLOW_03_FWD
  | ACES_GLOW_03_INV, ACES_GLOW_03_INV
  | ACES_GLOW_10_FWD, ACES_GLOW_10_FWD
  | ACES_GLOW_10_INV, ACES_GLOW_10_INV
  | ACES_DARK_TO_DIM_10_FWD, ACES_DARK_TO_DIM_10_FWD
  | ACES_DARK_TO_DIM_10_INV, ACES_DARK_TO_DIM_10_INV
  | REC2100_SURROUND, REC2100_SURROUND => true
  | _, _ => false
  end.

(** [ConvertStyleToString(style, true)]. *)
Definition ConvertStyleToString_detailed (style : Style) : string :=
  match style with
  | ACES_RED_MOD_03_FWD => "ACES_RedMod03 (Forward)"
  | ACES_RED_MOD_03_INV => "ACES_RedMod03 (Inverse)"
  | ACES_RED_MOD_10_FWD => "ACES_RedMod10 (Forward)"
  | ACES_RED_MOD_10_INV => "ACES_RedMod10 (Inverse)"
  | ACES_GLOW_03_FWD => "ACES_Glow03 (Forward)"
  | ACES_GLOW_03_INV => "ACES_Glow03 (Inverse)"
  | ACES_GLOW_10_FWD => "ACES_Glow10 (Forward)"
  | ACES_GLOW_10_INV => "ACES_Glow10 (Inverse)"
  | ACES_DARK_TO_DIM_10_FWD => "ACES_DarkToDim10 (Forward)"
  | ACES_DARK_TO_DIM_10_INV => "ACES_DarkToDim10 (Inverse)"
  | REC2100_SURROUND => "REC2100_Surround"
  end.

Definition RED_MOD_03_FWD : string := "RedMod03Fwd".
Definition RED_MOD_03_REV : string := "RedMod03Rev".
Definition RED_MOD_10_FWD : string := "RedMod10Fwd".
Definition RED_MOD_10_REV : string := "RedMod10Rev".
Definition GLOW_03_FWD : string := "Glow03Fwd".
Definition GLOW_03_REV : string := "Glow03Rev".
Definition GLOW_10_FWD : string := "Glow10Fwd".
Definition GLOW_10_REV : string := "Glow10Rev".
Definition DARK_TO_DIM_10 : string := "DarkToDim10".
Definition DIM_TO_DARK_10 : string := "DimToDark10".
Definition SURROUND : string := "Surround".   (* old name for Rec2100Surround *)
Definition REC_2100_SURROUND : string := "Rec2100Surround".

(** [ConvertStyleToString(style, detailed)]. *)
Definition ConvertStyleToString (style : Style) (detailed : bool) : string :=
  match style with
  | ACES_RED_MOD_03_FWD =>
      if detailed then "ACES_RedMod03 (Forward)" else RED_MOD_03_FWD
  | ACES_RED_MOD_03_INV =>
      if detailed then "ACES_RedMod03 (Inverse)" else RED_MOD_03_REV
  | ACES_RED_MOD_10_FWD =>
      if detailed then "ACES_RedMod10 (Forward)" else RED_MOD_10_FWD
  | ACES_RED_MOD_10_INV =>
      if detailed then "ACES_RedMod10 (Inverse)" else RED_MOD_10_REV
  | ACES_GLOW_03_FWD =>
      if detailed then "ACES_Glow03 (Forward)" else GLOW_03_FWD
  | ACES_GLOW_03_INV =>
      if detailed then "ACES_Glow03 (Inverse)" else GLOW_03_REV
  | ACES_GLOW_10_FWD =>
      if detailed then "ACES_Glow10 (Forward)" else GLOW_10_FWD
  | ACES_GLOW_10_INV =>
      if detailed then "ACES_Glow10 (Inverse)" else GLOW_10_REV
  | ACES_DARK_TO_DIM_10_FWD =>
      if detailed then "ACES_DarkToDim10 (Forward)" else DARK_TO_DIM_10
  | ACES_DARK_TO_DIM_10_INV =>
      if detailed then "ACES_DarkToDim10 (Inverse)" else DIM_TO_DARK_10
  | REC2100_SURROUND =>
      if detailed then "REC2100_Surround" else REC_2100_SURROUND
  end.

(** [FixedFunctionOpData::GetStyle(name)], for a [name] that is not the null
    pointer (the message is built by appending [name]). *)
Definition GetStyle `{PlatformInterface} (name : string) : result Style :=
  let unknown :=
    Throw (mkException [Str "Unknown FixedFunction style: "; Str name]) in
  match name with
  | String _ _ =>
      if Strcasecmp name RED_MOD_03_FWD =? 0 then Ok ACES_RED_MOD_03_FWD
      else if Strcasecmp name RED_MOD_03_REV =? 0 then Ok ACES_RED_MOD_03_INV
      else if Strcasecmp name RED_MOD_10_FWD =? 0 then Ok ACES_RED_MOD_10_FWD
      else if Strcasecmp name RED_MOD_10_REV =? 0 then Ok ACES_RED_MOD_10_INV
      else if Strcasecmp name GLOW_03_FWD =? 0 then Ok ACES_GLOW_03_FWD
      else if Strcasecmp name GLOW_03_REV =? 0 then Ok ACES_GLOW_03_INV
      else if Strcasecmp name GLOW_10_FWD =? 0 then Ok ACES_GLOW_10_FWD
      else if Strcasecmp name GLOW_10_REV =? 0 then Ok ACES_GLOW_10_INV
      else if Strcasecmp name DARK_TO_DIM_10 =? 0
      then Ok ACES_DARK_TO_DIM_10_FWD
      else if Strcasecmp name DIM_TO_DARK_10 =? 0
      then Ok ACES_DARK_TO_DIM_10_INV
      else if (Strcasecmp name SURROUND =? 0) ||
              (Strcasecmp name REC_2100_SURROUND =? 0)
      then Ok REC2100_SURROUND
      else unknown
  | EmptyString => unknown
  end.

(** The enumerators of [FixedFunctionStyle] that the source names. *)
Inductive FixedFunctionStyle : Type :=
| FIXED_FUNCTION_ACES_RED_MOD_03
| FIXED_FUNCTION_ACES_RED_MOD_10
| FIXED_FUNCTION_ACES_GLOW_03
| FIXED_FUNCTION_ACES_GLOW_10
| FIXED_FUNCTION_ACES_DARK_TO_DIM_10
| FIXED_FUNCTION_REC2100_SURROUND.

(** [ConvertStyle(FixedFunctionStyle)]: the forward style of the op data. *)
Definition ConvertStyle (style : FixedFunctionStyle) : Style :=
  match style with
  | FIXED_FUNCTION_ACES_RED_MOD_03 => ACES_RED_MOD_03_FWD
  | FIXED_FUNCTION_ACES_RED_MOD_10 => ACES_RED_MOD_10_FWD
  | FIXED_FUNCTION_ACES_GLOW_03 => ACES_GLOW_03_FWD
  | FIXED_FUNCTION_ACES_GLOW_10 => ACES_GLOW_10_FWD
  | FIXED_FUNCTION_ACES_DARK_TO_DIM_10 => ACES_DARK_TO_DIM_10_FWD
  | FIXED_FUNCTION_REC2100_SURROUND => REC2100_SURROUND
  end.

(** [ConvertStyle(FixedFunctionOpData::Style)], the overload for the other
    direction. *)
Definition ConvertStyle_of_op (style : Style) : FixedFunctionStyle :=
  match style with
  | ACES_RED_MOD_03_FWD | ACES_RED_MOD_03_INV => FIXED_FUNCTION_ACES_RED_MOD_03
  | ACES_RED_MOD_10_FWD | ACES_RED_MOD_10_INV => FIXED_FUNCTION_ACES_RED_MOD_10
  | ACES_GLOW_03_FWD | ACES_GLOW_03_INV => FIXED_FUNCTION_ACES_GLOW_03
  | ACES_GLOW_10_FWD | ACES_GLOW_10_INV => FIXED_FUNCTION_ACES_GLOW_10
  | ACES_DARK_TO_DIM_10_FWD | ACES_DARK_TO_DIM_10_INV =>
      FIXED_FUNCTION_ACES_DARK_TO_DIM_10
  | REC2100_SURROUND => FIXED_FUNCTION_REC2100_SURROUND
  end.

(** [FixedFunctionOpData::Params] is a [std::vector<double>]. *)
Definition Params : Type := list Double.t.

(** [operator==] of two vectors: same size and equal elements. *)
Fixpoint Params_eqb (a b : Params) : bool :=
  match a, b with
  | [], [] => true
  | x :: a', y :: b' => Double.eq x y && Params_eqb a' b'
  | _, _ => false
  end.

Definition low_bound : Double.t := Double.lit 1 1000.   (* 0.001 *)
Definition hi_bound : Double.t := Double.of_Z 100.      (* 100. *)

Definition is_surround (style : Style) : bool :=
  match style with REC2100_SURROUND => true | _ => false end.

(** The bound of the surround parameter as the specification words it:
    [0.001 <= p <= 100]. *)
Definition in_range (p : Double.t) : bool :=
  Double.le low_bound p && Double.le p hi_bound.

(** Forward and inverse styles of the same function. *)
Definition opposite_style (a b : Style) : bool :=
  match a, b with
  | ACES_RED_MOD_03_FWD, ACES_RED_MOD_03_INV
  | ACES_RED_MOD_03_INV, ACES_RED_MOD_03_FWD
  | ACES_RED_MOD_10_FWD, ACES_RED_MOD_10_INV
  | ACES_RED_MOD_10_INV, ACES_RED_MOD_10_FWD
  | ACES_GLOW_03_FWD, ACES_GLOW_03_INV
  | ACES_GLOW_03_INV, ACES_GLOW_03_FWD
  | ACES_GLOW_10_FWD, ACES_GLOW_10_INV
  | ACES_GLOW_10_INV, ACES_GLOW_10_FWD
  | ACES_DARK_TO_DIM_10_FWD, ACES_DARK_TO_DIM_10_INV
  | ACES_DARK_TO_DIM_10_INV, ACES_DARK_TO_DIM_10_FWD => true
  | _, _ => false
  end.

Section Data.
Context {Base : Type} `{OpDataInterface Base}.

Record FixedFunctionOpData : Type := mkFixedFunctionOpData {
  base : Base;
  m_style : Style;
  m_params : Params
}.

Definition validate (d : FixedFunctionOpData) : result unit :=
  OpData_validate (base d) ;;;
  if is_surround (m_style d) then
    match m_params d with
    | [p] =>
        if Double.lt p low_bound then
          Throw (mkException
                   [Str "Parameter "; Dbl p; Str " is less than lower bound ";
                    Dbl low_bound])
        else if Double.gt p hi_bound then
          Throw (mkException
                   [Str "Parameter "; Dbl p; Str " is greater than upper bound ";
                    Dbl hi_bound])
        else Ok tt
    | _ =>
        Throw (mkException
                 [Str "The style '";
                  Str (ConvertStyleToString_detailed (m_style d));
                  Str "' must have one parameter but ";
                  Num (Z.of_nat (length (m_params d))); Str " found."])
    end
  else
    match m_params d with
    | [] => Ok tt
    | _ :: _ =>
        Throw (mkException
                 [Str "The style '";
                  Str (ConvertStyleToString_detailed (m_style d));
                  Str "' must have zero parameters but ";
                  Num (Z.of_nat (length (m_params d))); Str " found."])
    end.

(** [FixedFunctionOpData::FixedFunctionOpData()]: no validation. *)
Definition FixedFunctionOpData_default : FixedFunctionOpData :=
  mkFixedFunctionOpData OpData_default ACES_RED_MOD_03_FWD [].

(** [FixedFunctionOpData::FixedFunctionOpData(params, style)]. *)
Definition FixedFunctionOpData_new (params : Params) (style : Style)
    : result FixedFunctionOpData :=
  let d := mkFixedFunctionOpData OpData_default style params in
  validate d ;;; Ok d.

(** [clone()] goes through the validating constructor. *)
Definition clone (d : FixedFunctionOpData) : result FixedFunctionOpData :=
  FixedFunctionOpData_new (m_params d) (m_style d).

Definition setStyle (d : FixedFunctionOpData) (style : Style)
    : FixedFunctionOpData :=
  mkFixedFunctionOpData (base d) style (m_params d).

(** [invert()]: "assumes the op has already been validated". *)
Definition invert (d : FixedFunctionOpData) : result FixedFunctionOpData :=
  match m_style d with
  | ACES_RED_MOD_03_FWD => Ok (setStyle d ACES_RED_MOD_03_INV)
  | ACES_RED_MOD_03_INV => Ok (setStyle d ACES_RED_MOD_03_FWD)
  | ACES_RED_MOD_10_FWD => Ok (setStyle d ACES_RED_MOD_10_INV)
  | ACES_RED_MOD_10_INV => Ok (setStyle d ACES_RED_MOD_10_FWD)
  | ACES_GLOW_03_FWD => Ok (setStyle d ACES_GLOW_03_INV)
  | ACES_GLOW_03_INV => Ok (setStyle d ACES_GLOW_03_FWD)
  | ACES_GLOW_10_FWD => Ok (setStyle d ACES_GLOW_10_INV)
  | ACES_GLOW_10_INV => Ok (setStyle d ACES_GLOW_10_FWD)
  | ACES_DARK_TO_DIM_10_FWD => Ok (setStyle d ACES_DARK_TO_DIM_10_INV)
  | ACES_DARK_TO_DIM_10_INV => Ok (setStyle d ACES_DARK_TO_DIM_10_FWD)
  | REC2100_SURROUND =>
      match m_params d with
      | p :: rest =>
          Ok (mkFixedFunctionOpData (base d) (m_style d)
                (Double.div Double.one p :: rest))
      | [] => Fault OutOfBounds
      end
  end.

Definition inverse (d : FixedFunctionOpData) : result FixedFunctionOpData :=
  func <- clone d ;; invert func.

(** [operator==] between two distinct objects. *)
Definition equals (a b : FixedFunctionOpData) : bool :=
  OpData_eqb (base a) (base b) &&
  (Style_eqb (m_style a) (m_style b) && Params_eqb (m_params a) (m_params b)).

Definition isInverse (d r : FixedFunctionOpData) : result bool :=
  inv <- inverse d ;; Ok (equals r inv).

End Data.

Arguments FixedFunctionOpData Base : clear implicits.

End FixedFunction.

(** A base sub-object without content, which always validates: the
    default-constructed [OpData] of the unit tests. *)
#[global] Instance PlainOpData : OpDataInterface unit := {|
  OpData_default := tt;
  OpData_validate := fun _ => Ok tt;
  OpData_eqb := fun _ _ => true
|}.

(** A [Strcasecmp] that compares the two names with the case of their
    ASCII letters ignored. *)
#[global] Instance AsciiPlatform : PlatformInterface := {|
  Strcasecmp := fun a b =>
    if String.eqb (case_fold a) (case_fold b) then 0 else 1
|}.

(* ================================================================== *)
(** * [ops/Range/RangeOpCPU.cpp] *)
(* ================================================================== *)

(** [Clamp] of [MathUtils.h], which the renderers with both bounds call. *)
Class MathUtils : Type := {
  Clamp : Single.t -> Single.t -> Single.t -> Single.t
}.

(** The comment at each call of [Clamp]: "NaNs become m_lowerBound".  It
    is asked only of bounds in order, which is all a composition of
    [std::max] and [std::min] can give. *)
Definition Clamp_sends_nan_to_min `{MathUtils} : Prop :=
  forall lo hi : Single.t,
    Single.lt hi lo = false -> Clamp Single.nan lo hi = lo.

Module Range.

(** The members of [RangeOpCPU]. *)
Record RangeOpCPU : Type := mkRangeOpCPU {
  m_scale : Single.t;
  m_offset : Single.t;
  m_lowerBound : Single.t;
  m_upperBound : Single.t
}.

(** [RangeOpCPU::RangeOpCPU(range)]: the four getters of the range data,
    cast to [float]. *)
Definition RangeOpCPU_new (scale offset minOutValue maxOutValue : Double.t)
    : RangeOpCPU :=
  mkRangeOpCPU (Single.of_double scale) (Single.of_double offset)
    (Single.of_double minOutValue) (Single.of_double maxOutValue).

(** The renderer classes derived from [RangeOpCPU]. *)
Inductive Renderer : Type :=
| RangeScaleMinMaxRenderer
| RangeScaleMinRenderer
| RangeScaleMaxRenderer
| RangeScaleRenderer
| RangeMinMaxRenderer
| RangeMinRenderer
| RangeMaxRenderer.

(** [GetRangeRenderer], as a function of [range->scales()],
    [range->minIsEmpty()] and [range->maxIsEmpty()]. *)
Definition GetRangeRenderer (scales minIsEmpty maxIsEmpty : bool)
    : result Renderer :=
  if scales then
    if negb minIsEmpty then
      if negb maxIsEmpty then Ok RangeScaleMinMaxRenderer
      else Ok RangeScaleMinRenderer
    else
      if negb maxIsEmpty then Ok RangeScaleMaxRenderer
      else Ok RangeScaleRenderer
  else
    if negb minIsEmpty then
      if negb maxIsEmpty then Ok RangeMinMaxRenderer
      else Ok RangeMinRenderer
    else if negb maxIsEmpty then Ok RangeMaxRenderer
    else Throw (mkException [Str "No processing as the Range is a NoOp"]).

(** An RGBA pixel: [in[0]], [in[1]], [in[2]], [in[3]]. *)
Definition pixel : Type := (Single.t * Single.t * Single.t * Single.t)%type.

Section Renderers.
Context `{MathUtils}.

(** [in * m_scale + m_offset]. *)
Definition scaled (r : RangeOpCPU) (x : Single.t) : Single.t :=
  Single.add (Single.mul x (m_scale r)) (m_offset r).

(** What one iteration of [apply] writes to [out[0..2]] from one of
    [in[0..2]]. *)
Definition render_channel (k : Renderer) (r : RangeOpCPU) (x : Single.t)
    : Single.t :=
  match k with
  | RangeScaleMinMaxRenderer =>
      Clamp (scaled r x) (m_lowerBound r) (m_upperBound r)
  | RangeScaleMinRenderer => Single.std_max (m_lowerBound r) (scaled r x)
  | RangeScaleMaxRenderer => Single.std_min (m_upperBound r) (scaled r x)
  | RangeScaleRenderer => scaled r x
  | RangeMinMaxRenderer => Clamp x (m_lowerBound r) (m_upperBound r)
  | RangeMinRenderer => Single.std_max (m_lowerBound r) x
  | RangeMaxRenderer => Single.std_min (m_upperBound r) x
  end.

(** The body of the [for] loop: three channels rendered, [out[3] = in[3]]. *)
Definition render_pixel (k : Renderer) (r : RangeOpCPU) (p : pixel) : pixel :=
  let '(red, green, blue, alpha) := p in
  (render_channel k r red, render_channel k r green,
   render_channel k r blue, alpha).

(** The [for] loop over [numPixels] pixels; the result is what was written
    through [out].  Reading past the end of the input is a fault. *)
Fixpoint apply_loop (k : Renderer) (r : RangeOpCPU) (numPixels : nat)
    (inImg : list Single.t) : result (list Single.t) :=
  match numPixels with
  | O => Ok []
  | S n =>
      match inImg with
      | red :: green :: blue :: alpha :: rest =>
          let '(red', green', blue', alpha') :=
            render_pixel k r (red, green, blue, alpha) in
          out <- apply_loop k r n rest ;;
          Ok (red' :: green' :: blue' :: alpha' :: out)
      | _ => Fault OutOfBounds
      end
  end.

(** [apply(inImg, outImg, numPixels)]. *)
Definition apply (k : Renderer) (r : RangeOpCPU) (inImg : list Single.t)
    (numPixels : Z) : result (list Single.t) :=
  apply_loop k r (Z.to_nat numPixels) inImg.

End Renderers.

(** The renderers that clamp from below, and those that clamp from above
    only. *)
Definition has_lower_bound (k : Renderer) : bool :=
  match k with
  | RangeScaleMinMaxRenderer | RangeScaleMinRenderer
  | RangeMinMaxRenderer | RangeMinRenderer => true
  | _ => false
  end.

Definition has_upper_bound_only (k : Renderer) : bool :=
  match k with
  | RangeScaleMaxRenderer | RangeMaxRenderer => true
  | _ => false
  end.

Definition has_both_bounds (k : Renderer) : bool :=
  match k with
  | RangeScaleMinMaxRenderer | RangeMinMaxRenderer => true
  | _ => false
  end.

End Range.

(** [Clamp] as the composition of [std::max] and [std::min]. *)
#[global] Instance StdClamp : MathUtils := {|
  Clamp := fun a lo hi => Single.std_min (Single.std_max lo a) hi
|}.

(* ================================================================== *)
(** * [GPUProcessor.cpp] *)
(* ================================================================== *)

Inductive DynamicPropertyType : Type :=
| DYNAMIC_PROPERTY_EXPOSURE
| DYNAMIC_PROPERTY_CONTRAST
| DYNAMIC_PROPERTY_GAMMA.

Inductive Lut3DOrder : Type :=
| LUT3DORDER_FAST_RED
| LUT3DORDER_FAST_BLUE.

(** A line of [GpuShaderText]: indentation level and content. *)
Definition shader_line : Type := (nat * string)%type.

(** What [GPUProcessor.cpp] calls beyond the optimizer: the rendering,
    dynamic-property and code-generation methods of [Op], the lattice
    helpers of [ops/Lut3D], [PartitionGPUOps] and [FinalizeOpVec] of [Op.h],
    and the shader description of [GpuShader.h].  [setArray] is the
    assignment through the reference that [getArray()] returns. *)
Class GpuInterface (Op : Type) : Type := {
  DynamicProperty : Type;
  GpuShaderDesc : Type;
  Lut3DOpData : Type;
  op_apply : Op -> list Single.t -> Z -> result (list Single.t);
  hasDynamicProperty : Op -> DynamicPropertyType -> bool;
  op_getDynamicProperty : Op -> DynamicPropertyType -> result DynamicProperty;
  op_extractGpuShaderInfo : Op -> GpuShaderDesc -> result GpuShaderDesc;
  GenerateIdentityLut3D :
    list Single.t -> Z -> Z -> Lut3DOrder -> result (list Single.t);
  Lut3DOpData_new : Z -> Lut3DOpData;
  getArray : Lut3DOpData -> list Single.t;
  setArray : Lut3DOpData -> list Single.t -> Lut3DOpData;
  CreateLut3DOp : Lut3DOpData -> TransformDirection -> list Op;
  PartitionGPUOps : list Op -> list Op * list Op * list Op;
  FinalizeOpVec : list Op -> Z -> result (list Op);
  OPTIMIZATION_DEFAULT : Z;
  FINALIZATION_DEFAULT : Z;
  getFunctionName : GpuShaderDesc -> string;
  getPixelName : GpuShaderDesc -> string;
  vec4fKeyword : GpuShaderDesc -> string;
  addToFunctionHeaderShaderCode :
    GpuShaderDesc -> list shader_line -> GpuShaderDesc;
  addToFunctionFooterShaderCode :
    GpuShaderDesc -> list shader_line -> GpuShaderDesc;
  shaderDesc_finalize : GpuShaderDesc -> result GpuShaderDesc;
  getShaderText : GpuShaderDesc -> string
}.

Module GPU.

(** Arithmetic of C++ [unsigned]: modulo [2^32]. *)
Definition u32 (x : Z) : Z := x mod 2 ^ 32.

(** The RGB values of an RGBA buffer. *)
Fixpoint rgb_of (rgba : list Single.t) : list Single.t :=
  match rgba with
  | red :: green :: blue :: _ :: rest => red :: green :: blue :: rgb_of rest
  | _ => []
  end.

(** [v[i]] and [v[i] = x] on a [std::vector]; outside the vector the
    behaviour is undefined. *)
Definition read (v : list Single.t) (i : Z) : result Single.t :=
  match nth_error v (Z.to_nat i) with
  | Some x => Ok x
  | None => Fault OutOfBounds
  end.

Definition write (v : list Single.t) (i : Z) (x : Single.t)
    : result (list Single.t) :=
  if (Z.to_nat i <? length v)%nat then
    Ok (firstn (Z.to_nat i) v ++ x :: skipn (S (Z.to_nat i)) v)
  else Fault OutOfBounds.

Section Processor.
Context {Op : Type} `{OpInterface Op} `{Lut1DInterface Op}
        `{Optimizer.OptimizerEnv Op} `{GpuInterface Op}.

(** "Apply the lattice ops to it": every op, in order, in place. *)
Fixpoint apply_ops (ops : list Op) (lut3D : list Single.t) (numPixels : Z)
    : result (list Single.t) :=
  match ops with
  | [] => Ok lut3D
  | op :: rest =>
      lut3D' <- op_apply op lut3D numPixels ;;
      apply_ops rest lut3D' numPixels
  end.

(** "Convert the RGBA image to an RGB image": the [for] loop from [i], with
    [count] iterations left. *)
Fixpoint copy_rgb (count : nat) (i : Z) (lutArray lut3D : list Single.t)
    : result (list Single.t) :=
  match count with
  | O => Ok lutArray
  | S count' =>
      r <- read lut3D (u32 (4 * i + 0)) ;;
      a0 <- write lutArray (u32 (3 * i + 0)) r ;;
      g <- read lut3D (u32 (4 * i + 1)) ;;
      a1 <- write a0 (u32 (3 * i + 1)) g ;;
      b <- read lut3D (u32 (4 * i + 2)) ;;
      a2 <- write a1 (u32 (3 * i + 2)) b ;;
      copy_rgb count' (i + 1) a2 lut3D
  end.

Definition Create3DLut (ops : list Op) (edgelen : Z) : result (list Op) :=
  match ops with
  | [] => Ok []
  | _ :: _ =>
      let lut3DEdgeLen := edgelen in
      let lut3DNumPixels := u32 (lut3DEdgeLen * lut3DEdgeLen * lut3DEdgeLen) in
      let lut := Lut3DOpData_new lut3DEdgeLen in
      let lut3D := repeat Single.zero (Z.to_nat (u32 (lut3DNumPixels * 4))) in
      lut3D1 <- GenerateIdentityLut3D lut3D lut3DEdgeLen 4 LUT3DORDER_FAST_BLUE ;;
      lut3D2 <- apply_ops ops lut3D1 lut3DNumPixels ;;
      lutArray <- copy_rgb (Z.to_nat lut3DNumPixels) 0 (getArray lut) lut3D2 ;;
      Ok (CreateLut3DOp (setArray lut lutArray) TRANSFORM_DIR_FORWARD)
  end.

(** [GPUProcessor::Impl::getDynamicProperty]: the list is [m_ops]. *)
Fixpoint getDynamicProperty (m_ops : list Op) (type : DynamicPropertyType)
    : result DynamicProperty :=
  match m_ops with
  | [] =>
      Throw (mkException
               [Str "Cannot find dynamic property; not used by GPU processor."])
  | op :: rest =>
      if hasDynamicProperty op type then op_getDynamicProperty op type
      else getDynamicProperty rest type
  end.

Definition WriteShaderHeader (shaderDesc : GpuShaderDesc) : GpuShaderDesc :=
  let fcnName := getFunctionName shaderDesc in
  let vec4 := vec4fKeyword shaderDesc in
  addToFunctionHeaderShaderCode shaderDesc
    [ (O, EmptyString);
      (O, "// Declaration of the OCIO shader function"%string);
      (O, EmptyString);
      (O, (vec4 ++ " " ++ fcnName ++ "(in " ++ vec4 ++ " inPixel)")%string);
      (O, "{"%string);
      (1%nat, (vec4 ++ " " ++ getPixelName shaderDesc ++ " = inPixel;")%string) ].

Definition WriteShaderFooter (shaderDesc : GpuShaderDesc) : GpuShaderDesc :=
  addToFunctionFooterShaderCode shaderDesc
    [ (O, EmptyString);
      (1%nat, ("return " ++ getPixelName shaderDesc ++ ";")%string);
      (O, "}"%string) ].

(** "Create the shader program information": each op, in order. *)
Fixpoint generate (gpuOps : list Op) (shaderDesc : GpuShaderDesc)
    : result GpuShaderDesc :=
  match gpuOps with
  | [] => Ok shaderDesc
  | op :: rest =>
      shaderDesc' <- op_extractGpuShaderInfo op shaderDesc ;;
      generate rest shaderDesc'
  end.

(** The legacy branch: the ops that code is generated for.  [edgelen] is
    [legacy->getEdgelen()]. *)
Definition legacy_ops (fuel : nat) (m_ops : list Op) (edgelen : Z)
    : result (list Op) :=
  let '(gpuOpsHwPreProcess, gpuOpsCpuLatticeProcess, gpuOpsHwPostProcess) :=
    PartitionGPUOps m_ops in
  lattice <- FinalizeOpVec gpuOpsCpuLatticeProcess FINALIZATION_DEFAULT ;;
  gpuLut <- Create3DLut lattice edgelen ;;
  let gpuOps := gpuOpsHwPreProcess ++ gpuLut ++ gpuOpsHwPostProcess in
  optimized <- Optimizer.OptimizeOpVec fuel gpuOps BIT_DEPTH_F32
                 OPTIMIZATION_DEFAULT ;;
  FinalizeOpVec (Optimizer.opt_ops optimized) FINALIZATION_DEFAULT.

(** [GPUProcessor::Impl::extractGpuShaderInfo]; [legacy] is the edge length
    when the description is a [LegacyGpuShaderDesc]. *)
Definition extractGpuShaderInfo (fuel : nat) (m_ops : list Op)
    (legacy : option Z) (shaderDesc : GpuShaderDesc) : result GpuShaderDesc :=
  gpuOps <- match legacy with
            | Some edgelen => legacy_ops fuel m_ops edgelen
            | None => Ok m_ops
            end ;;
  shaderDesc1 <- generate gpuOps shaderDesc ;;
  let shaderDesc2 := WriteShaderHeader shaderDesc1 in
  let shaderDesc3 := WriteShaderFooter shaderDesc2 in
  shaderDesc_finalize shaderDesc3.

End Processor.
End GPU.
(* ================================================================== *)
(** * [ops/Matrix/MatrixOpData.cpp] *)
(* ================================================================== *)

(** What the matrix code calls beyond this file: [round] of [<cmath>],
    [EqualWithAbsError] of [MathUtils.h], and what the base classes
    [ArrayDouble] and [OpData] do in [validate()] and to the file bit depths
    and format metadata in [compose] ([compose_base first second]: the input
    depth of the first, the output depth of the second, the metadata of the
    first combined with that of the second). *)
Class MatrixInterface (Array Base : Type) : Type := {
  round : Double.t -> Double.t;
  EqualWithAbsError : Double.t -> Double.t -> Double.t -> bool;
  ArrayDouble_validate : Array -> result unit;
  compose_base : Base -> Base -> Base
}.

Module Matrix.

(** [for (k = from; k < from + count; ++k) body]. *)
Fixpoint for_loop {St : Type} (count from : nat)
    (body : nat -> St -> result St) (s : St) : result St :=
  match count with
  | O => Ok s
  | S count' => s' <- body from s ;; for_loop count' (S from) body s'
  end.

(** The same loop around a test that returns [false] at the first failure. *)
Fixpoint all_below (count from : nat) (test : nat -> result bool)
    : result bool :=
  match count with
  | O => Ok true
  | S count' =>
      b <- test from ;;
      if b then all_below count' (S from) test else Ok false
  end.

(** [v[i]] and [v[i] = x] on a [std::vector<double>]; outside the vector the
    behaviour is undefined. *)
Definition get (v : list Double.t) (i : nat) : result Double.t :=
  match nth_error v i with
  | Some x => Ok x
  | None => Fault OutOfBounds
  end.

Fixpoint set (v : list Double.t) (i : nat) (x : Double.t)
    : result (list Double.t) :=
  match v, i with
  | [], _ => Fault OutOfBounds
  | _ :: rest, O => Ok (x :: rest)
  | y :: rest, S i' => rest' <- set rest i' x ;; Ok (y :: rest')
  end.

(** ** [MatrixOpData::Offsets]: [double m_values[4]] *)

Record Offsets : Type := mkOffsets {
  off0 : Double.t;
  off1 : Double.t;
  off2 : Double.t;
  off3 : Double.t
}.

(** [Offsets()]: [memset] to zero. *)
Definition Offsets_default : Offsets :=
  mkOffsets Double.zero Double.zero Double.zero Double.zero.

(** [operator[]]. *)
Definition Offsets_get (o : Offsets) (i : nat) : result Double.t :=
  match i with
  | 0%nat => Ok (off0 o)
  | 1%nat => Ok (off1 o)
  | 2%nat => Ok (off2 o)
  | 3%nat => Ok (off3 o)
  | _ => Fault OutOfBounds
  end.

Definition Offsets_set (o : Offsets) (i : nat) (x : Double.t)
    : result Offsets :=
  match i with
  | 0%nat => Ok (mkOffsets x (off1 o) (off2 o) (off3 o))
  | 1%nat => Ok (mkOffsets (off0 o) x (off2 o) (off3 o))
  | 2%nat => Ok (mkOffsets (off0 o) (off1 o) x (off3 o))
  | 3%nat => Ok (mkOffsets (off0 o) (off1 o) (off2 o) x)
  | _ => Fault OutOfBounds
  end.

(** [Offsets::setRGB(v3)] and [Offsets::setRGBA(v4)]; [None] is the null
    pointer. *)
Definition Offsets_setRGB (v3 : option (list Double.t)) : result Offsets :=
  match v3 with
  | None => Throw (mkException [Str "Matrix: setRGB NULL pointer."])
  | Some (red :: green :: blue :: _) =>
      Ok (mkOffsets red green blue Double.zero)
  | Some _ => Fault OutOfBounds
  end.

Definition Offsets_setRGBA (v4 : option (list Double.t)) : result Offsets :=
  match v4 with
  | None => Throw (mkException [Str "Matrix: setRGBA NULL pointer."])
  | Some (red :: green :: blue :: alpha :: _) =>
      Ok (mkOffsets red green blue alpha)
  | Some _ => Fault OutOfBounds
  end.

(** A double whose bytes are all zero: [+0.0]. *)
Definition all_bits_zero (x : Double.t) : bool :=
  match x with
  | S754_zero false => true
  | _ => false
  end.

(** [Offsets::isNotNull()]: [memcmp] with four zero doubles. *)
Definition Offsets_isNotNull (o : Offsets) : bool :=
  negb (all_bits_zero (off0 o) && all_bits_zero (off1 o) &&
        all_bits_zero (off2 o) && all_bits_zero (off3 o)).

(** [Offsets::scale(s)]. *)
Definition Offsets_scale (o : Offsets) (s : Double.t) : Offsets :=
  mkOffsets (Double.mul (off0 o) s) (Double.mul (off1 o) s)
    (Double.mul (off2 o) s) (Double.mul (off3 o) s).

(** ** [MatrixOpData::MatrixArray] *)

(** The state of the [ArrayDouble] base: [getLength()],
    [getNumColorComponents()] and [getValues()]. *)
Record MatrixArray : Type := mkMatrixArray {
  getLength : nat;
  getNumColorComponents : nat;
  getValues : list Double.t
}.

Definition getNumValues (a : MatrixArray) : nat := getLength a * getLength a.

(** [resize(length, numColorComponents)]: the vector gets [getNumValues()]
    elements, the new ones zero. *)
Definition resize (a : MatrixArray) (length numColorComponents : nat)
    : MatrixArray :=
  let n := (length * length)%nat in
  mkMatrixArray length numColorComponents
    (firstn n (getValues a) ++
     repeat Double.zero (n - List.length (getValues a))).

(** [fill()]: zero everywhere, one on the diagonal. *)
Definition fill (a : MatrixArray) : result MatrixArray :=
  let dim := getLength a in
  let zeros := repeat Double.zero (List.length (getValues a)) in
  values <-
    for_loop dim 0
      (fun i values =>
         for_loop dim 0
           (fun j values =>
              if Nat.eqb i j then set values (i * dim + j) Double.one
              else Ok values)
           values)
      zeros ;;
  Ok (mkMatrixArray (getLength a) (getNumColorComponents a) values).

(** [MatrixArray(dimension, numColorComponents)]. *)
Definition MatrixArray_new (dimension numColorComponents : nat)
    : result MatrixArray :=
  fill (resize (mkMatrixArray 0 0 []) dimension numColorComponents).

(** [MatrixArray::isUnityDiagonal()]: strict comparisons. *)
Definition isUnityDiagonal (a : MatrixArray) : result bool :=
  let dim := getLength a in
  let values := getValues a in
  all_below dim 0
    (fun i =>
       all_below dim 0
         (fun j =>
            v <- get values (i * dim + j) ;;
            if Nat.eqb i j then Ok (negb (Double.ne v Double.one))
            else Ok (negb (Double.ne v Double.zero)))).

(** [MatrixArray::setRGB(values)]: nine values into the sixteen. *)
Definition setRGB (a : MatrixArray) (values : list Double.t)
    : result MatrixArray :=
  match values with
  | v0 :: v1 :: v2 :: v3 :: v4 :: v5 :: v6 :: v7 :: v8 :: _ =>
      if (16 <=? List.length (getValues a))%nat then
        Ok (mkMatrixArray (getLength a) (getNumColorComponents a)
              ([v0; v1; v2; Double.zero;
                v3; v4; v5; Double.zero;
                v6; v7; v8; Double.zero;
                Double.zero; Double.zero; Double.zero; Double.one] ++
               skipn 16 (getValues a)))
      else Fault OutOfBounds
  | _ => Fault OutOfBounds
  end.

(** [MatrixArray::setRGBA(const double * values)]: [memcpy] of sixteen. *)
Definition setRGBA (a : MatrixArray) (values : list Double.t)
    : result MatrixArray :=
  if ((16 <=? List.length values) && (16 <=? List.length (getValues a)))%nat
  then Ok (mkMatrixArray (getLength a) (getNumColorComponents a)
             (firstn 16 values ++ skipn 16 (getValues a)))
  else Fault OutOfBounds.

Definition expandFrom3x3To4x4 (a : MatrixArray) : result MatrixArray :=
  let oldValues := getValues a in
  setRGB (resize a 4 4) oldValues.

Section Arrays.
Context {Base : Type} `{MatrixInterface MatrixArray Base}.

(** [MatrixArray::validate()]; the result is the array as the call leaves
    it. *)
Definition MatrixArray_validate (a : MatrixArray) : result MatrixArray :=
  ArrayDouble_validate a ;;;
  a' <- (if Nat.eqb (getLength a) 3 then expandFrom3x3To4x4 a
         else if negb (Nat.eqb (getLength a) 4) then
           Throw (mkException [Str "Matrix: array content issue."])
         else Ok a) ;;
  if negb (Nat.eqb (getNumColorComponents a') 4) then
    Throw (mkException [Str "Matrix: dimensions must be 4x4."])
  else Ok a'.

End Arrays.

(** [MatrixArray::inner(B)], the product of [*this] and [B].  The
    declarations [MatrixArray A_4x4 = *this] and [MatrixArray B_4x4 = B]
    are copy-initialisations: the two arrays are read as they are. *)
Definition inner (A B : MatrixArray) : result MatrixArray :=
  let Avals := getValues A in
  let Bvals := getValues B in
  let dim := 4%nat in
  Out <- MatrixArray_new dim 4 ;;
  Ovals <-
    for_loop dim 0
      (fun row Ovals =>
         for_loop dim 0
           (fun col Ovals =>
              accum <-
                for_loop dim 0
                  (fun i accum =>
                     a <- get Avals (row * dim + i) ;;
                     b <- get Bvals (i * dim + col) ;;
                     Ok (Double.add accum (Double.mul a b)))
                  Double.zero ;;
              set Ovals (row * dim + col) accum)
           Ovals)
      (getValues Out) ;;
  Ok (mkMatrixArray (getLength Out) (getNumColorComponents Out) Ovals).

(** [MatrixArray::inner(b, out)], the product of [*this] and the offsets. *)
Definition inner_offsets (A : MatrixArray) (b out : Offsets)
    : result Offsets :=
  let dim := getLength A in
  let Avals := getValues A in
  for_loop dim 0
    (fun i out =>
       accum <-
         for_loop dim 0
           (fun j accum =>
              a <- get Avals (i * dim + j) ;;
              bj <- Offsets_get b j ;;
              Ok (Double.add accum (Double.mul a bj)))
           Double.zero ;;
       Offsets_set out i accum)
    out.

(** ** [MatrixOpData] *)

Section Data.
Context {Base : Type} `{OpDataInterface Base}
        `{MatrixInterface MatrixArray Base}.

Record MatrixOpData : Type := mkMatrixOpData {
  base : Base;
  m_array : MatrixArray;
  m_offsets : Offsets
}.

(** [MatrixOpData()]: a 4x4 identity without offsets. *)
Definition MatrixOpData_default : result MatrixOpData :=
  array <- MatrixArray_new 4 4 ;;
  Ok (mkMatrixOpData OpData_default array Offsets_default).

Definition setArrayValue (d : MatrixOpData) (index : nat) (value : Double.t)
    : result MatrixOpData :=
  values <- set (getValues (m_array d)) index value ;;
  Ok (mkMatrixOpData (base d)
        (mkMatrixArray (getLength (m_array d))
           (getNumColorComponents (m_array d)) values)
        (m_offsets d)).

Definition offset_index_out_of_range (index : nat) : Exception :=
  mkException
    [Str "Matrix array content issue: '"; Str "' offset index out of range '";
     Num (Z.of_nat index); Str "'. "].

Definition getOffsetValue (d : MatrixOpData) (index : nat) : result Double.t :=
  let dim := getLength (m_array d) in
  if (dim <=? index)%nat then Throw (offset_index_out_of_range index)
  else Offsets_get (m_offsets d) index.

Definition setOffsetValue (d : MatrixOpData) (index : nat) (value : Double.t)
    : result MatrixOpData :=
  let dim := getLength (m_array d) in
  if (dim <=? index)%nat then Throw (offset_index_out_of_range index)
  else
    offsets <- Offsets_set (m_offsets d) index value ;;
    Ok (mkMatrixOpData (base d) (m_array d) offsets).

(** [MatrixOpData::validate()]; the result is the object as the call leaves
    it. *)
Definition validate (d : MatrixOpData) : result MatrixOpData :=
  OpData_validate (base d) ;;;
  match MatrixArray_validate (m_array d) with
  | Ok array => Ok (mkMatrixOpData (base d) array (m_offsets d))
  | Throw e =>
      Throw (mkException (Str "Matrix array content issue: " :: what e))
  | Fault f => Fault f
  end.

Definition isUnityDiagonal_data (d : MatrixOpData) : result bool :=
  isUnityDiagonal (m_array d).

(** [MatrixOpData::isMatrixIdentity()]. *)
Definition isMatrixIdentity (d : MatrixOpData) : result bool :=
  let maxDiff := Double.lit 1 1000000 in
  let m := getValues (m_array d) in
  let dim := getLength (m_array d) in
  all_below dim 0
    (fun i =>
       all_below dim 0
         (fun j =>
            if Nat.eqb i j then
              v <- get m (i * dim + j) ;;
              Ok (EqualWithAbsError v Double.one maxDiff)
            else Ok true)).

(** [MatrixOpData::isDiagonal()]. *)
Definition isDiagonal (d : MatrixOpData) : result bool :=
  let m := getValues (m_array d) in
  let max := getNumValues (m_array d) in
  let dim := getLength (m_array d) in
  all_below max 0
    (fun idx =>
       if negb (Nat.eqb (idx mod (dim + 1)) 0) then
         v <- get m idx ;; Ok (negb (Double.ne v Double.zero))
       else Ok true).

(** [MatrixOpData::hasAlpha()]: the operands of [||] in their order. *)
Definition hasAlpha (d : MatrixOpData) : result bool :=
  let m := getValues (m_array d) in
  let maxDiff := Double.lit 1 1000000 in
  m3 <- get m 3 ;;
  if Double.ne m3 Double.zero then Ok true else
  m7 <- get m 7 ;;
  if Double.ne m7 Double.zero then Ok true else
  m11 <- get m 11 ;;
  if Double.ne m11 Double.zero then Ok true else
  m15 <- get m 15 ;;
  if negb (EqualWithAbsError m15 Double.one maxDiff) then Ok true else
  m12 <- get m 12 ;;
  if Double.ne m12 Double.zero then Ok true else
  m13 <- get m 13 ;;
  if Double.ne m13 Double.zero then Ok true else
  m14 <- get m 14 ;;
  if Double.ne m14 Double.zero then Ok true else
  Ok (Double.ne (off3 (m_offsets d)) Double.zero).

(** [MatrixOpData::CreateDiagonalMatrix(diagValue)]. *)
Definition CreateDiagonalMatrix (diagValue : Double.t) : result MatrixOpData :=
  pM <- MatrixOpData_default ;;
  pM <- validate pM ;;
  pM <- setArrayValue pM 0 diagValue ;;
  pM <- setArrayValue pM 5 diagValue ;;
  pM <- setArrayValue pM 10 diagValue ;;
  setArrayValue pM 15 diagValue.

(** [max_val = max_val > val ? max_val : val]. *)
Definition keep_max (max_val val : Double.t) : Double.t :=
  if Double.gt max_val val then max_val else val.

(** The test of [cleanUp]: [fabs(val - round(val)) < abs_tol]. *)
Definition near_integer (abs_tol val : Double.t) : bool :=
  Double.lt (Double.fabs (Double.sub val (round val))) abs_tol.

(** [MatrixOpData::cleanUp(offsetScale)]. *)
Definition cleanUp (d : MatrixOpData) (offsetScale : Double.t)
    : result MatrixOpData :=
  let dim := getLength (m_array d) in
  max_val <-
    for_loop dim 0
      (fun i max_val =>
         for_loop dim 0
           (fun j max_val =>
              v <- get (getValues (m_array d)) (i * dim + j) ;;
              Ok (keep_max max_val (Double.fabs v)))
           max_val)
      Double.zero ;;
  let scale :=
    if Double.gt max_val (Double.lit 1 10000) then max_val
    else Double.lit 1 10000 in
  let abs_tol := Double.mul scale (Double.lit 1 1000000) in
  d <-
    for_loop dim 0
      (fun i d =>
         for_loop dim 0
           (fun j d =>
              val <- get (getValues (m_array d)) (i * dim + j) ;;
              let round_val := round val in
              if near_integer abs_tol val
              then setArrayValue d (i * dim + j) round_val
              else Ok d)
           d)
      d ;;
  let scale2 :=
    if Double.gt offsetScale (Double.lit 1 10000) then offsetScale
    else Double.lit 1 10000 in
  let abs_tol2 := Double.mul scale2 (Double.lit 1 1000000) in
  for_loop dim 0
    (fun i d =>
       val <- Offsets_get (m_offsets d) i ;;
       let round_val := round val in
       if near_integer abs_tol2 val then setOffsetValue d i round_val
       else Ok d)
    d.

(** [A.compose(B)]: "op A precedes op B". *)
Definition compose (A B : MatrixOpData) : result MatrixOpData :=
  if negb (Nat.eqb (getLength (m_array A)) 4) ||
     negb (Nat.eqb (getLength (m_array B)) 4)
  then Throw (mkException [Str "MatrixOpData: array content issue."])
  else
    out <- MatrixOpData_default ;;
    let newBase := compose_base (base A) (base B) in
    outPtr <- inner (m_array B) (m_array A) ;;
    offs <- inner_offsets (m_array B) (m_offsets A) Offsets_default ;;
    let dim := getLength (m_array A) in
    max_val <-
      for_loop dim 0
        (fun i max_val =>
           o <- Offsets_get offs i ;;
           let max_val := keep_max max_val (Double.fabs o) in
           b <- Offsets_get (m_offsets B) i ;;
           Ok (keep_max max_val (Double.fabs b)))
        Double.zero ;;
    offs <-
      for_loop dim 0
        (fun i offs =>
           o <- Offsets_get offs i ;;
           b <- Offsets_get (m_offsets B) i ;;
           Offsets_set offs i (Double.add o b))
        offs ;;
    cleanUp (mkMatrixOpData newBase outPtr offs) max_val.

(** ** The values that [compose] computes *)

(** What [cleanUp] leaves in the place of [val]. *)
Definition cleaned (abs_tol val : Double.t) : Double.t :=
  if near_integer abs_tol val then round val else val.

(** [abs_tol] for the magnitude [max_val]. *)
Definition tolerance (max_val : Double.t) : Double.t :=
  Double.mul
    (if Double.gt max_val (Double.lit 1 10000) then max_val
     else Double.lit 1 10000)
    (Double.lit 1 1000000).

(** [max_val] after the magnitudes of [values], in their order. *)
Definition max_fabs (values : list Double.t) (max_val : Double.t)
    : Double.t :=
  fold_left (fun m v => keep_max m (Double.fabs v)) values max_val.

(** Row [row] of the 4x4 matrix [X] times column [col] of [Y], accumulated
    from zero in the order of the index. *)
Definition product_entry (X Y : list Double.t) (row col : nat) : Double.t :=
  fold_left
    (fun accum i =>
       Double.add accum
         (Double.mul (nth (row * 4 + i) X Double.zero)
            (nth (i * 4 + col) Y Double.zero)))
    [0; 1; 2; 3]%nat Double.zero.

Definition product (X Y : list Double.t) : list Double.t :=
  map (fun k => product_entry X Y (k / 4) (k mod 4)) (seq 0 16).

(** Row [row] of the 4x4 matrix [X] times the offsets [b]. *)
Definition product_offset (X : list Double.t) (b : Offsets) (row : nat)
    : Double.t :=
  fold_left
    (fun accum jb =>
       Double.add accum
         (Double.mul (nth (row * 4 + fst jb) X Double.zero) (snd jb)))
    [(0, off0 b); (1, off1 b); (2, off2 b); (3, off3 b)]%nat Double.zero.

End Data.

Arguments MatrixOpData Base : clear implicits.

End Matrix.

(** [round] of [<cmath>] on a double: to the nearest integer, halfway cases
    away from zero. *)
Definition round_half_away (x : Double.t) : Double.t :=
  match x with
  | S754_finite s m e =>
      if 0 <=? e then x
      else
        let unit := 2 ^ (- e) in
        let q := Z.pos m / unit in
        let r := Z.pos m mod unit in
        let n := if unit <=? 2 * r then q + 1 else q in
        if n =? 0 then S754_zero s
        else binary_normalize Double.prec Double.emax (cond_Zopp s n) 0 false
  | _ => x
  end.

(** A base without content, arrays that always validate,
    [EqualWithAbsError(x1, x2, e)] as [((x1 > x2) ? x1 - x2 : x2 - x1) <= e]. *)
#[global] Instance StdMatrix : MatrixInterface Matrix.MatrixArray unit := {|
  round := round_half_away;
  EqualWithAbsError := fun x1 x2 e =>
    Double.le (if Double.gt x1 x2 then Double.sub x1 x2 else Double.sub x2 x1) e;
  ArrayDouble_validate := fun _ => Ok tt;
  compose_base := fun _ _ => tt
|}.

(* ================================================================== *)
(** * A small implementation of the interfaces *)
(* ================================================================== *)

(** The op kinds that the unit tests of [OpOptimizers.cpp] build, reduced to
    what the optimizer observes of them: exponent and log ops cancel
    against their inverse, scale matrices and exponent ops combine (into
    nothing when the product is the identity), a CDL with saturation has
    channel crosstalk, an exposure op is dynamic. *)
Module TestOps.

Inductive Op : Type :=
| ExponentOp (dir : TransformDirection)   (* CreateExponentOp(ops, exp, dir) *)
| ExponentPowerOp (k : Z)                 (* exponent ops combined: exp^k *)
| LogOp (dir : TransformDirection)        (* CreateLogOp(ops, base, ..., dir) *)
| ScaleOp (k : Z)                         (* CreateScaleOp: RGB times 2^k *)
| GammaOp                                 (* CreateGammaOp, BASIC_REV *)
| SatOp                                   (* a CDL whose saturation is not 1 *)
| ExposureOp                              (* dynamic exposure *)
| Lut1DOp (dir : TransformDirection) (entries : Z)
| Lut3DOp (array : list Single.t).        (* CreateLut3DOp, forward *)

Definition opposite (a b : TransformDirection) : bool :=
  match a, b with
  | TRANSFORM_DIR_FORWARD, TRANSFORM_DIR_INVERSE
  | TRANSFORM_DIR_INVERSE, TRANSFORM_DIR_FORWARD => true
  | _, _ => false
  end.

(** The power of [exp] that an exponent op raises to: 1 for the forward op,
    -1 for the inverse op. *)
Definition exponent_power (o : Op) : option Z :=
  match o with
  | ExponentOp TRANSFORM_DIR_INVERSE => Some (-1)
  | ExponentOp _ => Some 1
  | ExponentPowerOp k => Some k
  | _ => None
  end.

Definition op_isNoOp (o : Op) : bool :=
  match o with
  | ScaleOp k => k =? 0
  | ExponentPowerOp k => k =? 0
  | _ => false
  end.

Definition op_getType (o : Op) : OpDataType :=
  match o with
  | ExponentOp _ | ExponentPowerOp _ => ExponentType
  | LogOp _ => LogType
  | ScaleOp _ => MatrixType
  | GammaOp => GammaType
  | SatOp => CDLType
  | ExposureOp => ExposureContrastType
  | Lut1DOp _ _ => Lut1DType
  | Lut3DOp _ => Lut3DType
  end.

Definition op_isSameType (a b : Op) : bool :=
  match a, b with
  | ExponentOp _, ExponentOp _
  | ExponentOp _, ExponentPowerOp _
  | ExponentPowerOp _, ExponentOp _
  | ExponentPowerOp _, ExponentPowerOp _
  | LogOp _, LogOp _
  | ScaleOp _, ScaleOp _
  | GammaOp, GammaOp
  | SatOp, SatOp
  | ExposureOp, ExposureOp
  | Lut1DOp _ _, Lut1DOp _ _
  | Lut3DOp _, Lut3DOp _ => true
  | _, _ => false
  end.

Definition op_isInverse (a b : Op) : bool :=
  match a, b with
  | ExponentOp d1, ExponentOp d2 => opposite d1 d2
  | ExponentOp _, ExponentPowerOp _
  | ExponentPowerOp _, ExponentOp _
  | ExponentPowerOp _, ExponentPowerOp _ =>
      match exponent_power a, exponent_power b with
      | Some k1, Some k2 => k1 + k2 =? 0
      | _, _ => false
      end
  | LogOp d1, LogOp d2 => opposite d1 d2
  | Lut1DOp d1 n1, Lut1DOp d2 n2 => opposite d1 d2 && (n1 =? n2)
  | _, _ => false
  end.

(** Two scales combine, and so do two exponent ops, as in the unit test
    [OpOptimizers, CombineOps]. *)
Definition op_canCombineWith (a b : Op) : bool :=
  match a, b with
  | ScaleOp _, ScaleOp _ => true
  | _, _ =>
      match exponent_power a, exponent_power b with
      | Some _, Some _ => true
      | _, _ => false
      end
  end.

(** The exponent op for [exp^k]; none when the power is zero. *)
Definition exponent_op (k : Z) : list Op :=
  if k =? 0 then []
  else if k =? 1 then [ExponentOp TRANSFORM_DIR_FORWARD]
  else if k =? -1 then [ExponentOp TRANSFORM_DIR_INVERSE]
  else [ExponentPowerOp k].

Definition op_combineWith (a b : Op) : list Op :=
  match a, b with
  | ScaleOp k1, ScaleOp k2 => if k1 + k2 =? 0 then [] else [ScaleOp (k1 + k2)]
  | _, _ =>
      match exponent_power a, exponent_power b with
      | Some k1, Some k2 => exponent_op (k1 + k2)
      | _, _ => []
      end
  end.

Definition op_hasChannelCrosstalk (o : Op) : bool :=
  match o with SatOp => true | _ => false end.

Definition op_isDynamic (o : Op) : bool :=
  match o with ExposureOp => true | _ => false end.

Definition op_getDirection (o : Op) : TransformDirection :=
  match o with
  | ExponentOp d | LogOp d | Lut1DOp d _ => d
  | _ => TRANSFORM_DIR_FORWARD
  end.

#[global] Instance ops : OpInterface Op := {|
  isNoOp := op_isNoOp;
  isSameType := op_isSameType;
  isInverse := op_isInverse;
  canCombineWith := op_canCombineWith;
  combineWith := op_combineWith;
  hasChannelCrosstalk := op_hasChannelCrosstalk;
  isDynamic := op_isDynamic;
  getType := op_getType;
  getDirection := op_getDirection;
  clone := fun o => o
|}.

(** The number of entries of the lookup domain for a bit depth. *)
Definition domain_entries (d : BitDepth) : Z :=
  match d with
  | BIT_DEPTH_UINT8 => 256
  | BIT_DEPTH_UINT10 => 1024
  | BIT_DEPTH_UINT12 => 4096
  | BIT_DEPTH_UINT14 => 16384
  | _ => 65536
  end.

#[global] Instance luts : Lut1DInterface Op := {|
  Lut1DOpData := Z;
  MakeLookupDomain := domain_entries;
  ComposeVec := fun lut _ => lut;
  CreateLut1DOp := fun lut dir => [Lut1DOp dir lut]
|}.

#[global] Instance env : Optimizer.OptimizerEnv Op := {|
  Optimizer.OPTIMIZATION_COMP_SEPARABLE_PREFIX := 8;
  Optimizer.IsDebugLoggingEnabled := false;
  Optimizer.SerializeOpVec := fun _ _ => EmptyString
|}.

(** [n] nested layers of a log op around a scale, closed by their
    inverses: [Log, Scale 2, ..., Scale 1/2, Log'].  Built like
    [CreateLogOp]/[CreateScaleOp] calls in sequence. *)
Fixpoint nest (n : nat) (inner : list Op) : list Op :=
  match n with
  | O => inner
  | S n' =>
      LogOp TRANSFORM_DIR_FORWARD :: ScaleOp 1 ::
      nest n' inner ++ [ScaleOp (-1); LogOp TRANSFORM_DIR_INVERSE]
  end.

(** Rendering: a scale multiplies R, G and B by [2^k], the gamma op
    squares them, the other ops of this miniature leave the pixel alone. *)
Definition scale_factor (k : Z) : Single.t :=
  if 0 <=? k then Single.of_Z (2 ^ k) else Single.lit 1 (2 ^ (- k)).

Fixpoint map_rgb (f : Single.t -> Single.t) (n : nat) (img : list Single.t)
    : list Single.t :=
  match n, img with
  | S n', red :: green :: blue :: alpha :: rest =>
      f red :: f green :: f blue :: alpha :: map_rgb f n' rest
  | _, _ => img
  end.

Definition render (o : Op) (img : list Single.t) (numPixels : Z)
    : result (list Single.t) :=
  match o with
  | ScaleOp k =>
      Ok (map_rgb (fun x => Single.mul x (scale_factor k)) (Z.to_nat numPixels) img)
  | GammaOp => Ok (map_rgb (fun x => Single.mul x x) (Z.to_nat numPixels) img)
  | _ => Ok img
  end.

(** [GenerateIdentityLut3D] of [ops/Lut3D/Lut3DOp.cpp]: sample [i] holds
    the grid coordinates of [i] times [1 / (edgeLen - 1)]; with
    [LUT3DORDER_FAST_BLUE] the blue coordinate is [i % edgeLen]. *)
Definition lattice_sample (edgeLen : Z) (order : Lut3DOrder) (alpha : Single.t)
    (i : Z) : list Single.t :=
  let c := Single.div (Single.of_Z 1) (Single.of_Z (edgeLen - 1)) in
  let fast := Single.mul (Single.of_Z (i mod edgeLen)) c in
  let middle := Single.mul (Single.of_Z ((i / edgeLen) mod edgeLen)) c in
  let slow := Single.mul (Single.of_Z ((i / edgeLen / edgeLen) mod edgeLen)) c in
  match order with
  | LUT3DORDER_FAST_RED => [fast; middle; slow; alpha]
  | LUT3DORDER_FAST_BLUE => [slow; middle; fast; alpha]
  end.

Definition generate_identity (img : list Single.t) (edgeLen numChannels : Z)
    (order : Lut3DOrder) : result (list Single.t) :=
  if negb (numChannels =? 4) then
    Throw (mkException [Str "Only RGBA lattices are generated here."])
  else if (length img <? Z.to_nat (4 * (edgeLen * edgeLen * edgeLen)))%nat then
    Fault OutOfBounds
  else
    Ok (flat_map
          (fun i => lattice_sample edgeLen order
                      (nth (4 * i + 3) img Single.zero) (Z.of_nat i))
          (seq 0 (Z.to_nat (edgeLen * edgeLen * edgeLen)))).

(** The ops that a legacy shader cannot express. *)
Definition supportedByLegacyShader (o : Op) : bool :=
  match o with
  | GammaOp | Lut1DOp _ _ => false
  | _ => true
  end.

Fixpoint take_supported (ops : list Op) : list Op :=
  match ops with
  | o :: rest => if supportedByLegacyShader o then o :: take_supported rest else []
  | [] => []
  end.

Definition partition (ops : list Op) : list Op * list Op * list Op :=
  let pre := take_supported ops in
  let remaining := skipn (length pre) ops in
  let post := rev (take_supported (rev remaining)) in
  (pre, firstn (length remaining - length post) remaining, post).

(** A shader description that records what was added to it. *)
Record Desc : Type := mkDesc {
  d_body : list string;
  d_header : list shader_line;
  d_footer : list shader_line;
  d_finalized : bool
}.

Definition op_name (o : Op) : string :=
  match o with
  | ExponentOp _ | ExponentPowerOp _ => "exponent"
  | LogOp _ => "log"
  | ScaleOp _ => "matrix"
  | GammaOp => "gamma"
  | SatOp => "cdl"
  | ExposureOp => "exposure"
  | Lut1DOp _ _ => "lut1d"
  | Lut3DOp _ => "lut3d"
  end.

Definition emit (o : Op) (d : Desc) : result Desc :=
  Ok (mkDesc (d_body d ++ [op_name o]) (d_header d) (d_footer d) (d_finalized d)).

#[global] Instance gpu : GpuInterface Op := {|
  DynamicProperty := Z;
  GpuShaderDesc := Desc;
  Lut3DOpData := list Single.t;
  op_apply := render;
  hasDynamicProperty := fun o t =>
    match o, t with
    | ExposureOp, DYNAMIC_PROPERTY_EXPOSURE => true
    | _, _ => false
    end;
  op_getDynamicProperty := fun o t =>
    match o, t with
    | ExposureOp, DYNAMIC_PROPERTY_EXPOSURE => Ok 1
    | _, _ => Throw (mkException [Str "Op does not implement dynamic property."])
    end;
  op_extractGpuShaderInfo := emit;
  GenerateIdentityLut3D := generate_identity;
  Lut3DOpData_new := fun edgeLen =>
    repeat Single.zero (Z.to_nat (3 * (edgeLen * edgeLen * edgeLen)));
  getArray := fun lut => lut;
  setArray := fun _ array => array;
  CreateLut3DOp := fun lut _ => [Lut3DOp lut];
  PartitionGPUOps := partition;
  FinalizeOpVec := fun ops _ => Ok ops;
  OPTIMIZATION_DEFAULT := 0;
  FINALIZATION_DEFAULT := 0;
  getFunctionName := fun _ => "OCIODisplay"%string;
  getPixelName := fun _ => "outColor"%string;
  vec4fKeyword := fun _ => "vec4"%string;
  addToFunctionHeaderShaderCode := fun d text =>
    mkDesc (d_body d) (d_header d ++ text) (d_footer d) (d_finalized d);
  addToFunctionFooterShaderCode := fun d text =>
    mkDesc (d_body d) (d_header d) (d_footer d ++ text) (d_finalized d);
  shaderDesc_finalize := fun d =>
    Ok (mkDesc (d_body d) (d_header d) (d_footer d) true);
  getShaderText := fun _ => EmptyString
|}.

End TestOps.

(* ================================================================== *)
(** * Facts about outcomes *)
(* ================================================================== *)

Lemma bind_Ok_inv {A B : Type} (m : result A) (k : A -> result B) (b : B) :
  bind m k = Ok b -> exists a, m = Ok a /\ k a = Ok b.
Proof.
  destruct m as [a | e | f]; simpl; intros Hb; try discriminate.
  exists a. split; [reflexivity | exact Hb].
Qed.

Lemma throws_not_returns {A : Type} (m : result A) : throws m -> ~ returns m.
Proof. intros [e He] [a Ha]. congruence. Qed.

(* ================================================================== *)
(** * The sweeps of the optimizer *)
(* ================================================================== *)

Section SweepFacts.
Context {Op : Type} `{OpInterface Op}.
Import Optimizer.

Lemma static_cast_int_small (u : Z) :
  0 <= u < 2 ^ 31 -> static_cast_int u = u.
Proof.
  intros Hu. unfold static_cast_int.
  change (2 ^ 31) with 2147483648 in *. change (2 ^ 32) with 4294967296.
  rewrite Z.mod_small by lia.
  destruct (Z.ltb_spec u 2147483648); lia.
Qed.

Lemma last_index_small (opVec : list Op) :
  (0 < length opVec)%nat -> Z.of_nat (length opVec) <= 2 ^ 31 ->
  last_index opVec = Z.of_nat (length opVec) - 1.
Proof.
  intros Hpos Hle. unfold last_index.
  change (2 ^ 31) with 2147483648 in Hle.
  change (2 ^ 64) with 18446744073709551616.
  rewrite Z.mod_small by lia.
  apply static_cast_int_small. change (2 ^ 31) with 2147483648. lia.
Qed.

Lemma last_index_nil : last_index (@nil Op) = -1.
Proof. reflexivity. Qed.

End SweepFacts.

(* ================================================================== *)
(** * [RemoveInverseOps]: cancellation of nested inverse pairs *)
(* ================================================================== *)

Section InverseFacts.
Context {Op : Type} `{OpInterface Op}.
Import Optimizer.

Lemma erase_app (pre suf : list Op) (a b : Op) :
  erase (pre ++ a :: b :: suf) (Z.of_nat (length pre))
        (Z.of_nat (length pre) + 2) = pre ++ suf.
Proof.
  unfold erase.
  replace (Z.to_nat (Z.of_nat (length pre) + 2)) with (length pre + 2)%nat by lia.
  rewrite Nat2Z.id.
  rewrite firstn_app, firstn_all, Nat.sub_diag, app_nil_r. simpl firstn.
  rewrite skipn_app, skipn_all2 by lia.
  replace (length pre + 2 - length pre)%nat with 2%nat by lia.
  reflexivity.
Qed.

Lemma nth_error_first (pre suf : list Op) (a b : Op) :
  nth_error (pre ++ a :: b :: suf) (Z.to_nat (Z.of_nat (length pre))) = Some a.
Proof.
  rewrite Nat2Z.id, nth_error_app2, Nat.sub_diag by lia. reflexivity.
Qed.

Lemma nth_error_second (pre suf : list Op) (a b : Op) :
  nth_error (pre ++ a :: b :: suf) (Z.to_nat (Z.of_nat (length pre) + 1)) = Some b.
Proof.
  replace (Z.to_nat (Z.of_nat (length pre) + 1)) with (length pre + 1)%nat by lia.
  rewrite nth_error_app2 by lia.
  replace (length pre + 1 - length pre)%nat with 1%nat by lia. reflexivity.
Qed.

Lemma cursor_in_range (pre suf : list Op) (a b : Op) :
  fits_int (pre ++ a :: b :: suf) ->
  (Z.of_nat (length pre) <? last_index (pre ++ a :: b :: suf)) = true.
Proof.
  intros Hfit. rewrite last_index_small.
  - rewrite length_app. simpl length. apply Z.ltb_lt. lia.
  - rewrite length_app. simpl length. lia.
  - exact Hfit.
Qed.

(** One iteration that erases the pair under the cursor. *)
Lemma RemoveInverseOps_loop_erase (fuel : nat) (opVec pre suf : list Op)
    (a b : Op) (firstindex count : Z) :
  opVec = pre ++ a :: b :: suf ->
  firstindex = Z.of_nat (length pre) ->
  fits_int opVec ->
  inverse_pair a b = true ->
  RemoveInverseOps_loop (S fuel) opVec firstindex count =
  RemoveInverseOps_loop fuel (pre ++ suf) (Z.max 0 (firstindex - 1)) (count + 1).
Proof.
  intros -> -> Hfit Hab. unfold inverse_pair in Hab. simpl RemoveInverseOps_loop.
  rewrite cursor_in_range by exact Hfit.
  rewrite nth_error_first, nth_error_second, Hab, erase_app. reflexivity.
Qed.

(** One iteration that moves the cursor forward. *)
Lemma RemoveInverseOps_loop_skip (fuel : nat) (opVec pre suf : list Op)
    (a b : Op) (firstindex count : Z) :
  opVec = pre ++ a :: b :: suf ->
  firstindex = Z.of_nat (length pre) ->
  fits_int opVec ->
  inverse_pair a b = false ->
  RemoveInverseOps_loop (S fuel) opVec firstindex count =
  RemoveInverseOps_loop fuel opVec (firstindex + 1) count.
Proof.
  intros -> -> Hfit Hab. unfold inverse_pair in Hab. simpl RemoveInverseOps_loop.
  rewrite cursor_in_range by exact Hfit.
  rewrite nth_error_first, nth_error_second, Hab. reflexivity.
Qed.

(** The loop ends when the cursor has reached the last op. *)
Lemma RemoveInverseOps_loop_done (fuel : nat) (opVec : list Op)
    (firstindex count : Z) :
  (firstindex <? last_index opVec) = false ->
  RemoveInverseOps_loop fuel opVec firstindex count = Ok (opVec, count).
Proof.
  intros Hend. destruct fuel; simpl; rewrite Hend; reflexivity.
Qed.

Ltac short_vector := unfold fits_int; simpl length; simpl Z.of_nat; lia.

Ltac erase_at pre suf a b :=
  etransitivity;
  [ eapply (RemoveInverseOps_loop_erase _ _ pre suf a b);
    [ reflexivity | reflexivity | short_vector | assumption ]
  | ].

Ltac skip_at pre suf a b :=
  etransitivity;
  [ eapply (RemoveInverseOps_loop_skip _ _ pre suf a b);
    [ reflexivity | reflexivity | short_vector | assumption ]
  | ].

(** A single exact-inverse pair is erased. *)
Lemma RemoveInverseOps_pair (O O' : Op) :
  inverse_pair O O' = true ->
  RemoveInverseOps [O; O'] = Ok ([], 1).
Proof.
  intros HO. unfold RemoveInverseOps.
  erase_at (@nil Op) (@nil Op) O O'.
  apply RemoveInverseOps_loop_done. reflexivity.
Qed.

(** Two nested pairs are erased in the same sweep: after [B, B'] is
    erased the cursor steps back onto [A], which now precedes [A']. *)
Lemma RemoveInverseOps_nested2 (A B B' A' : Op) :
  inverse_pair B B' = true ->
  inverse_pair A A' = true ->
  (inverse_pair A B = true -> inverse_pair B' A' = true) ->
  RemoveInverseOps [A; B; B'; A'] = Ok ([], 2).
Proof.
  intros HB HA HAB. unfold RemoveInverseOps.
  destruct (inverse_pair A B) eqn:EAB.
  - specialize (HAB eq_refl).
    erase_at (@nil Op) [B'; A'] A B.
    erase_at (@nil Op) (@nil Op) B' A'.
    apply RemoveInverseOps_loop_done. reflexivity.
  - skip_at (@nil Op) [B'; A'] A B.
    erase_at [A] [A'] B B'.
    erase_at (@nil Op) (@nil Op) A A'.
    apply RemoveInverseOps_loop_done. reflexivity.
Qed.

End InverseFacts.

(** C1.  [RemoveInverseOps] erases an exact-inverse pair [O, O'] (here
    [B, B']), and collapses the nested pattern [A, B, B', A'] to the empty
    sequence within one call: after erasing the inner pair the cursor is
    re-anchored at [max(0, i-1)], so the outer pair, newly adjacent, is
    examined and erased in the same sweep.  The side condition covers the
    case where [A, B] themselves are an inverse pair and are erased first:
    then [B', A'] must be one too, as they are when the inverse of an op is
    unique and [isInverse] is symmetric. *)
Theorem RemoveInverseOps_collapses_nested_pairs
    {Op : Type} `{OpInterface Op} (A B B' A' : Op) :
  Optimizer.inverse_pair B B' = true ->
  Optimizer.inverse_pair A A' = true ->
  (Optimizer.inverse_pair A B = true -> Optimizer.inverse_pair B' A' = true) ->
  Optimizer.RemoveInverseOps [B; B'] = Ok ([], 1) /\
  Optimizer.RemoveInverseOps [A; B; B'; A'] = Ok ([], 2).
Proof.
  intros HB HA HAB. split.
  - apply RemoveInverseOps_pair; assumption.
  - apply RemoveInverseOps_nested2; assumption.
Qed.

(** The sequence of the unit test [OpOptimizers, RemoveInverseOps]:
    exponent, log, inverse log, inverse exponent. *)
Lemma RemoveInverseOps_collapses_nested_pairs_witness :
  Optimizer.RemoveInverseOps
    [TestOps.LogOp TRANSFORM_DIR_FORWARD; TestOps.LogOp TRANSFORM_DIR_INVERSE]
    = Ok ([], 1) /\
  Optimizer.RemoveInverseOps
    [TestOps.ExponentOp TRANSFORM_DIR_FORWARD;
     TestOps.LogOp TRANSFORM_DIR_FORWARD;
     TestOps.LogOp TRANSFORM_DIR_INVERSE;
     TestOps.ExponentOp TRANSFORM_DIR_INVERSE] = Ok ([], 2).
Proof.
  apply (RemoveInverseOps_collapses_nested_pairs
           (TestOps.ExponentOp TRANSFORM_DIR_FORWARD)
           (TestOps.LogOp TRANSFORM_DIR_FORWARD)
           (TestOps.LogOp TRANSFORM_DIR_INVERSE)
           (TestOps.ExponentOp TRANSFORM_DIR_INVERSE)).
  - reflexivity.
  - reflexivity.
  - vm_compute. intros Hf. discriminate Hf.
Defined.

(* ================================================================== *)
(** * [OptimizeOpVec]: the pass budget and re-running the optimizer *)
(* ================================================================== *)

Section CountFacts.
Context {Op : Type} `{OpInterface Op}.
Import Optimizer.

(** The counters only grow, and a sweep that counts nothing leaves the
    vector as it was. *)
Lemma RemoveNoOps_loop_count (rest : list Op) (count : Z) :
  count <= snd (RemoveNoOps_loop rest count) /\
  (snd (RemoveNoOps_loop rest count) = count ->
   fst (RemoveNoOps_loop rest count) = rest).
Proof.
  revert count. induction rest as [| o rest IH]; intros count; simpl.
  - split; [lia | reflexivity].
  - destruct (isNoOp o).
    + destruct (IH (count + 1)) as [Hle _]. split; [lia | intros Heq; lia].
    + destruct (IH count) as [Hle Hsame].
      destruct (RemoveNoOps_loop rest count) as [kept count'] eqn:E.
      simpl in *. split; [exact Hle |].
      intros Heq. rewrite (Hsame Heq). reflexivity.
Qed.

Lemma RemoveInverseOps_loop_count (fuel : nat) :
  forall (opVec : list Op) (firstindex count : Z) (opVec' : list Op) (count' : Z),
  RemoveInverseOps_loop fuel opVec firstindex count = Ok (opVec', count') ->
  count <= count' /\ (count' = count -> opVec' = opVec).
Proof.
  induction fuel as [| fuel IH]; intros opVec firstindex count opVec' count';
    simpl; destruct (firstindex <? last_index opVec); intros Hrun;
    try discriminate Hrun;
    try (injection Hrun as <- <-; split; [lia | reflexivity]).
  destruct (nth_error opVec (Z.to_nat firstindex)) as [first |];
    [| discriminate Hrun].
  destruct (nth_error opVec (Z.to_nat (firstindex + 1))) as [second |];
    [| discriminate Hrun].
  destruct (isSameType first second && isInverse first second).
  - apply IH in Hrun. destruct Hrun as [Hle _]. split; [lia | intros; lia].
  - apply IH in Hrun. exact Hrun.
Qed.

Lemma CombineOps_loop_count (fuel : nat) :
  forall (opVec : list Op) (firstindex count : Z) (opVec' : list Op) (count' : Z),
  CombineOps_loop fuel opVec firstindex count = Ok (opVec', count') ->
  count <= count' /\ (count' = count -> opVec' = opVec).
Proof.
  induction fuel as [| fuel IH]; intros opVec firstindex count opVec' count';
    simpl; destruct (firstindex <? last_index opVec); intros Hrun;
    try discriminate Hrun;
    try (injection Hrun as <- <-; split; [lia | reflexivity]).
  destruct (nth_error opVec (Z.to_nat firstindex)) as [first |];
    [| discriminate Hrun].
  destruct (nth_error opVec (Z.to_nat (firstindex + 1))) as [second |];
    [| discriminate Hrun].
  destruct (canCombineWith first second).
  - apply IH in Hrun. destruct Hrun as [Hle _]. split; [lia | intros; lia].
  - apply IH in Hrun. exact Hrun.
Qed.

(** A pass whose three counts are zero has changed nothing. *)
Lemma one_pass_zero (fuel : nat) (ops ops' : list Op) :
  one_pass fuel ops = Ok (ops', (0, 0, 0)) -> ops' = ops.
Proof.
  unfold one_pass, RemoveNoOps, RemoveInverseOps, CombineOps.
  destruct (RemoveNoOps_loop_count ops 0) as [_ Hnoop].
  destruct (RemoveNoOps_loop ops 0) as [ops1 noops]. simpl in Hnoop.
  intros Hrun.
  apply bind_Ok_inv in Hrun. destruct Hrun as [[ops2 inverseops] [Hinv Hrun]].
  apply bind_Ok_inv in Hrun. destruct Hrun as [[ops3 combines] [Hcomb Hrun]].
  injection Hrun as -> -> -> ->.
  apply RemoveInverseOps_loop_count in Hinv. destruct Hinv as [_ Hinv].
  apply CombineOps_loop_count in Hcomb. destruct Hcomb as [_ Hcomb].
  rewrite (Hcomb eq_refl), (Hinv eq_refl). apply Hnoop. reflexivity.
Qed.

Lemma one_pass_zero_no_progress (fuel : nat) (ops ops' : list Op) :
  one_pass fuel ops = Ok (ops', (0, 0, 0)) -> no_progress fuel ops.
Proof.
  intros Hrun. unfold no_progress.
  rewrite <- (one_pass_zero _ _ _ Hrun) at 2. exact Hrun.
Qed.

(** The counts of a pass are never negative. *)
Lemma one_pass_counts (fuel : nat) (ops ops' : list Op) (n i c : Z) :
  one_pass fuel ops = Ok (ops', (n, i, c)) -> 0 <= n /\ 0 <= i /\ 0 <= c.
Proof.
  unfold one_pass, RemoveNoOps, RemoveInverseOps, CombineOps.
  destruct (RemoveNoOps_loop_count ops 0) as [Hnoop _].
  destruct (RemoveNoOps_loop ops 0) as [ops1 noops]. simpl in Hnoop.
  intros Hrun.
  apply bind_Ok_inv in Hrun. destruct Hrun as [[ops2 inverseops] [Hinv Hrun]].
  apply bind_Ok_inv in Hrun. destruct Hrun as [[ops3 combines] [Hcomb Hrun]].
  injection Hrun as -> -> -> ->.
  apply RemoveInverseOps_loop_count in Hinv.
  apply CombineOps_loop_count in Hcomb. lia.
Qed.

(** ** The fixed-point loop *)

(** The loop never leaves with more than nine counted passes, and it
    leaves with eight or fewer only through the [break]: the last pass
    found nothing to do. *)
Lemma OptimizeOpVec_loop_exit (n fuel : nat) :
  forall st st' : LoopState Op,
  OptimizeOpVec_loop n fuel st = Ok st' ->
  ls_passes st <= MAX_OPTIMIZATION_PASSES + 1 ->
  ls_passes st <= ls_passes st' <= MAX_OPTIMIZATION_PASSES + 1 /\
  (ls_passes st' <= MAX_OPTIMIZATION_PASSES -> no_progress fuel (ls_ops st')).
Proof.
  unfold MAX_OPTIMIZATION_PASSES.
  induction n as [| n IH]; intros st st'; simpl;
    destruct (Z.leb_spec (ls_passes st) MAX_OPTIMIZATION_PASSES) as [Hle | Hgt];
    unfold MAX_OPTIMIZATION_PASSES in *; intros Hrun Hbound;
    try discriminate Hrun;
    try (injection Hrun as <-; split; [lia | intros; lia]).
  apply bind_Ok_inv in Hrun.
  destruct Hrun as [[ops' [[noops inverseops] combines]] [Hpass Hrun]].
  destruct ((noops =? 0) && (inverseops =? 0) && (combines =? 0)) eqn:Hzero.
  - injection Hrun as <-. simpl. split; [lia |]. intros _.
    apply andb_prop in Hzero. destruct Hzero as [Hzero Hc].
    apply andb_prop in Hzero. destruct Hzero as [Hn Hi].
    apply Z.eqb_eq in Hn, Hi, Hc. subst.
    pose proof (one_pass_zero _ _ _ Hpass) as ->. exact Hpass.
  - apply IH in Hrun; simpl in *; [| lia].
    destruct Hrun as [Hrange Hstable]. split; [lia | exact Hstable].
Qed.

(** Ten units of fuel finish the loop whenever the sweeps return. *)
Lemma OptimizeOpVec_loop_no_progress (n fuel : nat) (ops : list Op)
    (tn ti tc : Z) :
  no_progress fuel ops ->
  OptimizeOpVec_loop (S n) fuel (mkLoopState ops 0 tn ti tc) =
  Ok (mkLoopState ops 0 tn ti tc).
Proof.
  unfold no_progress. intros Hstable. simpl. rewrite Hstable. reflexivity.
Qed.

End CountFacts.

Section PrefixFacts.
Context {Op : Type} `{OpInterface Op}.
Import Optimizer.

(** The run counted by the first loop is maximal: the op after it, if any,
    has crosstalk or is dynamic. *)
Lemma separable_run_maximal (ops : list Op) :
  separable_run (skipn (separable_run ops) ops) = O.
Proof.
  induction ops as [| op rest IH]; simpl; [reflexivity |].
  destruct (hasChannelCrosstalk op || isDynamic op) eqn:Hbreak; simpl.
  - rewrite Hbreak. reflexivity.
  - exact IH.
Qed.

(** The ops of the run have no channel crosstalk. *)
Lemma separable_run_no_crosstalk (ops : list Op) :
  Forall (fun op => hasChannelCrosstalk op = false)
         (firstn (separable_run ops) ops).
Proof.
  induction ops as [| op rest IH]; simpl; [constructor |].
  destruct (hasChannelCrosstalk op || isDynamic op) eqn:Hbreak; simpl.
  - constructor.
  - apply orb_false_elim in Hbreak. destruct Hbreak as [Hcross _].
    constructor; assumption.
Qed.

(** The second loop does not throw on ops without crosstalk. *)
Lemma count_expensive_returns (run : list Op) :
  Forall (fun op => hasChannelCrosstalk op = false) run ->
  forall expensiveOps, exists total, count_expensive run expensiveOps = Ok total.
Proof.
  induction 1 as [| op rest Hop _ IH]; intros expensiveOps; simpl.
  - exists expensiveOps. reflexivity.
  - rewrite Hop. destruct (getType op); apply IH.
Qed.

(** ["Non-separable op."] is never thrown, and the result is either 0 or
    the length of the maximal separable run. *)
Lemma FindSeparablePrefix_returns (ops : list Op) :
  FindSeparablePrefix ops = Ok O \/
  (FindSeparablePrefix ops = Ok (separable_run ops) /\ separable_run ops <> O).
Proof.
  unfold FindSeparablePrefix.
  match goal with |- context [if ?c then _ else _] => destruct c end;
    [left; reflexivity |].
  destruct (count_expensive_returns _ (separable_run_no_crosstalk ops) O)
    as [total ->]. simpl.
  destruct total as [| total]; simpl; [left; reflexivity |].
  destruct (separable_run ops) eqn:Hrun; [left; reflexivity |].
  right. split; [reflexivity | discriminate].
Qed.

(** "If the only op is a 1D LUT, there is actually nothing to optimize":
    a forward 1D LUT followed by nothing separable is a prefix of length 0. *)
Lemma FindSeparablePrefix_forward_lut (l : Op) (rest : list Op) :
  getType l = Lut1DType ->
  getDirection l = TRANSFORM_DIR_FORWARD ->
  hasChannelCrosstalk l = false ->
  isDynamic l = false ->
  separable_run rest = O ->
  FindSeparablePrefix (l :: rest) = Ok O.
Proof.
  intros Htype Hdir Hcross Hdyn Hrest.
  unfold FindSeparablePrefix. simpl separable_run.
  rewrite Hcross, Hdyn, Hrest, Htype, Hdir. reflexivity.
Qed.

End PrefixFacts.

Section Idempotence.
Context {Op : Type} `{OpInterface Op} `{Lut1DInterface Op}
        `{Optimizer.OptimizerEnv Op}.
Import Optimizer.

(** After [OptimizeSeparablePrefix] a second call changes nothing: either
    nothing was baked, or the sequence now starts with the baked forward
    1D LUT, which [FindSeparablePrefix] treats as a run of length 0. *)
Lemma OptimizeSeparablePrefix_twice (ops ops' : list Op) (d : BitDepth)
    (oFlags : Z) :
  creates_plain_lut ->
  OptimizeSeparablePrefix ops d oFlags = Ok ops' ->
  OptimizeSeparablePrefix ops' d oFlags = Ok ops'.
Proof.
  intros Hlut Hrun. unfold OptimizeSeparablePrefix in Hrun.
  destruct ops as [| op0 ops0] eqn:Eops; [injection Hrun as <-; reflexivity |].
  rewrite <- Eops in *. clear Eops op0 ops0.
  destruct (is_F32_or_UINT32 d) eqn:Hdepth.
  - injection Hrun as <-. unfold OptimizeSeparablePrefix. rewrite Hdepth.
    destruct ops; reflexivity.
  - destruct (FindSeparablePrefix_returns ops) as [Hzero | [Hlen Hpos]].
    + rewrite Hzero in Hrun. simpl in Hrun. injection Hrun as <-.
      unfold OptimizeSeparablePrefix. rewrite Hdepth, Hzero.
      destruct ops; reflexivity.
    + rewrite Hlen in Hrun. simpl in Hrun.
      destruct (Nat.eqb_spec (separable_run ops) 0) as [Hz | _];
        [contradiction |].
      injection Hrun as <-.
      destruct (Hlut (ComposeVec (MakeLookupDomain d)
                        (map clone (firstn (separable_run ops) ops))))
        as [l [-> [Htype [Hdir [Hcross Hdyn]]]]].
      simpl app. unfold OptimizeSeparablePrefix. rewrite Hdepth.
      rewrite (FindSeparablePrefix_forward_lut l _ Htype Hdir Hcross Hdyn
                 (separable_run_maximal ops)).
      reflexivity.
Qed.

(** The optimizer returns its input when a pass finds nothing to do in it
    and the separable-prefix step leaves it alone. *)
Lemma OptimizeOpVec_fixed_point (fuel : nat) (ops : list Op) (d : BitDepth)
    (oFlags : Z) :
  no_progress fuel ops ->
  (has_flag oFlags OPTIMIZATION_COMP_SEPARABLE_PREFIX = true ->
   OptimizeSeparablePrefix ops d oFlags = Ok ops) ->
  exists r, OptimizeOpVec fuel ops d oFlags = Ok r /\
            opt_ops r = ops /\ opt_passes r = 0.
Proof.
  intros Hstable Hprefix. unfold OptimizeOpVec.
  destruct ops as [| op0 ops0].
  - eexists. split; [reflexivity | split; reflexivity].
  - rewrite (OptimizeOpVec_loop_no_progress 9 fuel (op0 :: ops0) 0 0 0 Hstable).
    cbn [bind ls_ops ls_passes].
    destruct (has_flag oFlags OPTIMIZATION_COMP_SEPARABLE_PREFIX).
    + rewrite (Hprefix eq_refl). cbn [bind].
      eexists. split; [reflexivity | split; reflexivity].
    + cbn [bind]. eexists. split; [reflexivity | split; reflexivity].
Qed.

End Idempotence.

(** Whenever a remove/combine pass finds nothing left to do in the output
    of a run, a second run returns that output, also after a prefix was
    baked: a baked separable prefix is not baked again, because the sequence
    then starts with a forward 1D LUT followed by a non-separable or dynamic
    op, a run of length 1 that [FindSeparablePrefix] counts as 0.  Whether
    the output of a run is such a fixed point is another matter: it is one
    when the loop stopped within its budget and no prefix was baked
    ([OptimizeOpVec_idempotent_within_budget_without_bake] below); after a
    bake the passes have not seen the new LUT. *)
Theorem OptimizeOpVec_idempotent_at_fixed_point
    {Op : Type} `{OpInterface Op} `{Lut1DInterface Op}
    `{Optimizer.OptimizerEnv Op}
    (fuel : nat) (ops : list Op) (d : BitDepth) (oFlags : Z)
    (r1 : Optimizer.Optimized Op) :
  Optimizer.creates_plain_lut ->
  Optimizer.OptimizeOpVec fuel ops d oFlags = Ok r1 ->
  Optimizer.no_progress fuel (Optimizer.opt_ops r1) ->
  exists r2,
    Optimizer.OptimizeOpVec fuel (Optimizer.opt_ops r1) d oFlags = Ok r2 /\
    Optimizer.opt_ops r2 = Optimizer.opt_ops r1 /\
    Optimizer.opt_passes r2 = 0.
Proof.
  intros Hlut Hrun Hstable.
  apply OptimizeOpVec_fixed_point; [exact Hstable |].
  intros Hflag. unfold Optimizer.OptimizeOpVec in Hrun.
  destruct ops as [| op0 ops0]; [injection Hrun as <-; reflexivity |].
  apply bind_Ok_inv in Hrun. destruct Hrun as [st [_ Hrun]].
  apply bind_Ok_inv in Hrun. destruct Hrun as [ops' [Hprefix Hrun]].
  injection Hrun as <-. cbn [Optimizer.opt_ops].
  destruct (Optimizer.ls_ops st) as [| op1 ops1] eqn:Els.
  - injection Hprefix as <-. reflexivity.
  - rewrite Hflag in Hprefix.
    apply (OptimizeSeparablePrefix_twice _ _ _ _ Hlut) in Hprefix.
    exact Hprefix.
Qed.

Section Budget.
Context {Op : Type} `{OpInterface Op} `{Lut1DInterface Op}
        `{Optimizer.OptimizerEnv Op}.
Import Optimizer.

(** The counter [passes] never exceeds nine, no exception leaves the loop,
    and the "max number of passes" message is logged exactly when the
    counter is eight at the exit. *)
Lemma OptimizeOpVec_passes_bound (fuel : nat) (ops : list Op) (d : BitDepth)
    (oFlags : Z) (r : Optimized Op) :
  OptimizeOpVec fuel ops d oFlags = Ok r ->
  0 <= opt_passes r <= MAX_OPTIMIZATION_PASSES + 1 /\
  (In (max_passes_message (opt_passes r)) (opt_log r) <->
   opt_passes r = MAX_OPTIMIZATION_PASSES).
Proof.
  unfold OptimizeOpVec. destruct ops as [| op0 ops0].
  - intros Hrun. injection Hrun as <-. simpl. unfold MAX_OPTIMIZATION_PASSES.
    split; [lia |]. split; [intros [] | discriminate].
  - intros Hrun.
    apply bind_Ok_inv in Hrun. destruct Hrun as [st [Hloop Hrun]].
    apply bind_Ok_inv in Hrun. destruct Hrun as [ops' [_ Hrun]].
    injection Hrun as <-. cbn [opt_passes opt_log].
    apply OptimizeOpVec_loop_exit in Hloop;
      [| simpl; unfold MAX_OPTIMIZATION_PASSES; lia].
    destruct Hloop as [Hrange _]. simpl in Hrange.
    split; [unfold MAX_OPTIMIZATION_PASSES in *; lia |].
    destruct (Z.eqb_spec (ls_passes st) MAX_OPTIMIZATION_PASSES) as [Heq | Hne].
    + split; [intros _; exact Heq |]. intros _.
      apply in_or_app. right. apply in_or_app. left. left. reflexivity.
    + split; [| intros Heq; contradiction].
      intros Hin. apply in_app_or in Hin. destruct Hin as [Hin | Hin].
      * destruct IsDebugLoggingEnabled; simpl in Hin;
          [destruct Hin as [Hin | [Hin | []]]; discriminate Hin | destruct Hin].
      * simpl in Hin. destruct IsDebugLoggingEnabled; simpl in Hin;
          [destruct Hin as [Hin | []]; discriminate Hin | destruct Hin].
Qed.

(** When the loop stopped on a pass without progress and no prefix was
    baked, the output is a fixed point of a pass. *)
Lemma OptimizeOpVec_converged_no_progress (fuel : nat) (ops : list Op)
    (d : BitDepth) (oFlags : Z) (r : Optimized Op) :
  OptimizeOpVec fuel ops d oFlags = Ok r ->
  opt_passes r <= MAX_OPTIMIZATION_PASSES ->
  has_flag oFlags OPTIMIZATION_COMP_SEPARABLE_PREFIX = false \/
  is_F32_or_UINT32 d = true ->
  ops <> [] ->
  no_progress fuel (opt_ops r).
Proof.
  unfold OptimizeOpVec. destruct ops as [| op0 ops0];
    intros Hrun Hpasses Hnobake Hne; [contradiction |].
  apply bind_Ok_inv in Hrun. destruct Hrun as [st [Hloop Hrun]].
  apply bind_Ok_inv in Hrun. destruct Hrun as [ops' [Hprefix Hrun]].
  injection Hrun as <-. cbn [opt_passes opt_ops] in *.
  apply OptimizeOpVec_loop_exit in Hloop;
    [| simpl; unfold MAX_OPTIMIZATION_PASSES; lia].
  destruct Hloop as [_ Hstable]. specialize (Hstable Hpasses).
  assert (Hsame : ops' = ls_ops st).
  { destruct (ls_ops st) as [| op1 ops1] eqn:Els;
      [injection Hprefix as <-; reflexivity |].
    destruct Hnobake as [Hflag | Hdepth].
    - rewrite Hflag in Hprefix. injection Hprefix as <-. reflexivity.
    - destruct (has_flag oFlags OPTIMIZATION_COMP_SEPARABLE_PREFIX);
        [| injection Hprefix as <-; reflexivity].
      unfold OptimizeSeparablePrefix in Hprefix. rewrite Hdepth in Hprefix.
      injection Hprefix as <-. reflexivity. }
  rewrite Hsame. exact Hstable.
Qed.

(** No prefix is baked without the flag, and none at a 32-bit depth. *)
Lemma no_prefix_baked_without_flag (fuel : nat) (ops : list Op)
    (d : BitDepth) (oFlags : Z) (r : Optimized Op) :
  OptimizeOpVec fuel ops d oFlags = Ok r ->
  has_flag oFlags OPTIMIZATION_COMP_SEPARABLE_PREFIX = false \/
  is_F32_or_UINT32 d = true ->
  no_prefix_baked fuel ops r.
Proof.
  unfold OptimizeOpVec, no_prefix_baked.
  destruct ops as [| op0 ops0]; intros Hrun Hnobake st Hst.
  - injection Hrun as <-. cbn [opt_ops].
    assert (Hnil : no_progress fuel (@nil Op))
      by (unfold no_progress; destruct fuel; reflexivity).
    rewrite (OptimizeOpVec_loop_no_progress 9 fuel [] 0 0 0 Hnil) in Hst.
    injection Hst as <-. reflexivity.
  - rewrite Hst in Hrun. cbn [bind] in Hrun.
    apply bind_Ok_inv in Hrun. destruct Hrun as [ops' [Hprefix Hrun]].
    injection Hrun as <-. cbn [opt_ops].
    destruct (ls_ops st) as [| op1 ops1] eqn:Els;
      [injection Hprefix as <-; reflexivity |].
    destruct Hnobake as [Hflag | Hdepth].
    + rewrite Hflag in Hprefix. injection Hprefix as <-. reflexivity.
    + destruct (has_flag oFlags OPTIMIZATION_COMP_SEPARABLE_PREFIX);
        [| injection Hprefix as <-; reflexivity].
      unfold OptimizeSeparablePrefix in Hprefix. rewrite Hdepth in Hprefix.
      injection Hprefix as <-. reflexivity.
Qed.

(** When the loop stopped within its budget and no prefix was baked, the
    output is a fixed point of a pass, and [OptimizeSeparablePrefix] leaves
    it as it is. *)
Lemma OptimizeOpVec_within_budget_without_bake (fuel : nat) (ops : list Op)
    (d : BitDepth) (oFlags : Z) (r : Optimized Op) :
  OptimizeOpVec fuel ops d oFlags = Ok r ->
  opt_passes r <= MAX_OPTIMIZATION_PASSES ->
  no_prefix_baked fuel ops r ->
  (ops <> [] -> no_progress fuel (opt_ops r)) /\
  (opt_ops r <> [] ->
   has_flag oFlags OPTIMIZATION_COMP_SEPARABLE_PREFIX = true ->
   OptimizeSeparablePrefix (opt_ops r) d oFlags = Ok (opt_ops r)).
Proof.
  unfold OptimizeOpVec, no_prefix_baked.
  destruct ops as [| op0 ops0]; intros Hrun Hpasses Hnobake.
  - injection Hrun as <-. cbn [opt_ops].
    split; intros Hne; contradiction.
  - apply bind_Ok_inv in Hrun. destruct Hrun as [st [Hloop Hrun]].
    apply bind_Ok_inv in Hrun. destruct Hrun as [ops' [Hprefix Hrun]].
    injection Hrun as <-. cbn [opt_passes opt_ops] in *.
    specialize (Hnobake st Hloop). subst ops'.
    apply OptimizeOpVec_loop_exit in Hloop;
      [| simpl; unfold MAX_OPTIMIZATION_PASSES; lia].
    destruct Hloop as [_ Hstable]. specialize (Hstable Hpasses).
    split; [intros _; exact Hstable |].
    intros Hne Hflag.
    destruct (ls_ops st) as [| op1 ops1] eqn:Els; [contradiction |].
    rewrite Hflag in Hprefix. exact Hprefix.
Qed.

End Budget.

(** C7, as the code has it.  Running the optimizer again on its own output
    changes nothing, when the loop of the first run stopped on a pass
    without progress within its budget (its counter is at most 8) and the
    first run baked no prefix (it returned the ops as its loop left them).
    Both conditions are needed of a run in general: when the nine passes
    are used up the output can be reduced further
    ([OptimizeOpVec_second_run_changes_output]), and after a bake the passes
    have not seen the new LUT. *)
Theorem OptimizeOpVec_idempotent_within_budget_without_bake
    {Op : Type} `{OpInterface Op} `{Lut1DInterface Op}
    `{Optimizer.OptimizerEnv Op}
    (fuel : nat) (ops : list Op) (d : BitDepth) (oFlags : Z)
    (r1 : Optimizer.Optimized Op) :
  Optimizer.OptimizeOpVec fuel ops d oFlags = Ok r1 ->
  Optimizer.opt_passes r1 <= Optimizer.MAX_OPTIMIZATION_PASSES ->
  Optimizer.no_prefix_baked fuel ops r1 ->
  exists r2,
    Optimizer.OptimizeOpVec fuel (Optimizer.opt_ops r1) d oFlags = Ok r2 /\
    Optimizer.opt_ops r2 = Optimizer.opt_ops r1 /\
    Optimizer.opt_passes r2 = 0.
Proof.
  intros Hrun Hpasses Hnobake.
  destruct (OptimizeOpVec_within_budget_without_bake fuel ops d oFlags r1
              Hrun Hpasses Hnobake) as [Hstable Hprefix].
  destruct (Optimizer.opt_ops r1) as [| op1 ops1] eqn:Eout.
  - eexists. split; [reflexivity | split; reflexivity].
  - rewrite <- Eout in *.
    assert (Hout : Optimizer.opt_ops r1 <> []) by (rewrite Eout; discriminate).
    apply OptimizeOpVec_fixed_point.
    + apply Hstable. intros ->. unfold Optimizer.OptimizeOpVec in Hrun.
      injection Hrun as <-. apply Hout. reflexivity.
    + intros Hflag. apply Hprefix; assumption.
Qed.

(** C2 at its failing input: nine nested layers of a log op around a scale
    matrix, closed by their inverses (36 ops).  Each pass peels one layer of
    each kind, so the loop body runs with progress nine times, one more than
    [MAX_OPTIMIZATION_PASSES]; the loop is then left with [passes = 9], with
    the inverse pair [Log, Log'] still in the sequence (one more pass would
    remove it), and the "max number of passes" diagnostic is not logged. *)
Theorem OptimizeOpVec_runs_nine_passes_silently :
  Optimizer.OptimizeOpVec 100 (TestOps.nest 9 []) BIT_DEPTH_F32 0 =
    Ok (Optimizer.mkOptimized
          [TestOps.LogOp TRANSFORM_DIR_FORWARD; TestOps.LogOp TRANSFORM_DIR_INVERSE]
          9 []) /\
  Optimizer.one_pass 100
    [TestOps.LogOp TRANSFORM_DIR_FORWARD; TestOps.LogOp TRANSFORM_DIR_INVERSE] =
    Ok ([], (0, 1, 0)).
Proof. split; vm_compute; reflexivity. Qed.

(** With seven layers the sequence is empty after eight passes; the ninth
    pass finds nothing to do, and the diagnostic is logged although a fixed
    point was reached. *)
Lemma OptimizeOpVec_logs_at_fixed_point :
  Optimizer.OptimizeOpVec 100 (TestOps.nest 7 []) BIT_DEPTH_F32 0 =
    Ok (Optimizer.mkOptimized [] 8 [Optimizer.max_passes_message 8]).
Proof. vm_compute. reflexivity. Qed.

(** Against C7 as stated: the output of the first run on the 36-op nest is
    [Log, Log'], and a second run turns it into the empty sequence. *)
Lemma OptimizeOpVec_second_run_changes_output :
  exists r1 r2,
    Optimizer.OptimizeOpVec 100 (TestOps.nest 9 []) BIT_DEPTH_F32 0 = Ok r1 /\
    Optimizer.OptimizeOpVec 100 (Optimizer.opt_ops r1) BIT_DEPTH_F32 0 = Ok r2 /\
    Optimizer.opt_ops r1 =
      [TestOps.LogOp TRANSFORM_DIR_FORWARD; TestOps.LogOp TRANSFORM_DIR_INVERSE] /\
    Optimizer.opt_ops r2 = [].
Proof.
  eexists. eexists.
  split; [vm_compute; reflexivity |].
  split; [vm_compute; reflexivity |].
  split; reflexivity.
Qed.

Lemma TestOps_creates_plain_lut : Optimizer.creates_plain_lut (Op := TestOps.Op).
Proof.
  intros lut. exists (TestOps.Lut1DOp TRANSFORM_DIR_FORWARD lut).
  repeat split.
Qed.

(** A gamma and a scale in front of a saturation op, at 8-bit depth with the
    separable-prefix flag: the first run bakes [Gamma, Scale] into a 256-entry
    LUT, the second run returns [Lut1D, Sat] as it is. *)
Lemma OptimizeOpVec_idempotent_at_fixed_point_witness :
  exists r2,
    Optimizer.OptimizeOpVec 100
      [TestOps.Lut1DOp TRANSFORM_DIR_FORWARD 256; TestOps.SatOp]
      BIT_DEPTH_UINT8 8 = Ok r2 /\
    Optimizer.opt_ops r2 =
      [TestOps.Lut1DOp TRANSFORM_DIR_FORWARD 256; TestOps.SatOp] /\
    Optimizer.opt_passes r2 = 0.
Proof.
  apply (OptimizeOpVec_idempotent_at_fixed_point 100
           [TestOps.GammaOp; TestOps.ScaleOp 1; TestOps.SatOp]
           BIT_DEPTH_UINT8 8
           (Optimizer.mkOptimized
              [TestOps.Lut1DOp TRANSFORM_DIR_FORWARD 256; TestOps.SatOp] 0 [])).
  - exact TestOps_creates_plain_lut.
  - vm_compute. reflexivity.
  - vm_compute. reflexivity.
Defined.

(** A gamma op, two layers of the nest and a saturation op, at 8 bits
    without the separable-prefix flag: the first run takes three passes and
    leaves [Gamma, Sat]; the second run returns [Gamma, Sat] as it is. *)
Lemma OptimizeOpVec_idempotent_within_budget_without_bake_witness :
  exists r2,
    Optimizer.OptimizeOpVec 100 [TestOps.GammaOp; TestOps.SatOp]
      BIT_DEPTH_UINT8 0 = Ok r2 /\
    Optimizer.opt_ops r2 = [TestOps.GammaOp; TestOps.SatOp] /\
    Optimizer.opt_passes r2 = 0.
Proof.
  refine (OptimizeOpVec_idempotent_within_budget_without_bake 100
            (TestOps.GammaOp :: TestOps.nest 2 [] ++ [TestOps.SatOp])
            BIT_DEPTH_UINT8 0
            (Optimizer.mkOptimized [TestOps.GammaOp; TestOps.SatOp] 3 [])
            _ _ _).
  - vm_compute. reflexivity.
  - vm_compute. discriminate.
  - intros st Hst. vm_compute in Hst. injection Hst as <-. reflexivity.
Defined.

(* ================================================================== *)
(** * Order of IEEE-754 numbers *)
(* ================================================================== *)

Lemma SFcompare_antisym (x y : spec_float) :
  SFcompare y x = option_map CompOpp (SFcompare x y).
Proof.
  destruct x as [sx | sx | | sx mx ex], y as [sy | sy | | sy my ey];
    simpl; try reflexivity;
    try (destruct sx; reflexivity); try (destruct sy; reflexivity);
    try (destruct sx, sy; reflexivity).
  destruct sx, sy; simpl; try reflexivity;
    rewrite (Z.compare_antisym ex ey);
    destruct (ex ?= ey)%Z; simpl; try reflexivity;
    rewrite (Pos.compare_cont_antisym mx my Eq); simpl;
    try rewrite CompOpp_involutive; reflexivity.
Qed.

(** [x < y] excludes [x >= y]. *)
Lemma lt_not_ge (x y : spec_float) :
  Double.lt x y = true -> Double.ge x y = false.
Proof.
  unfold Double.lt, Double.ge, SFltb, SFleb.
  rewrite (SFcompare_antisym x y).
  destruct (SFcompare x y) as [[ | | ] |]; simpl; congruence.
Qed.

(** [x <= y] excludes [x > y]. *)
Lemma le_not_gt (x y : spec_float) :
  Double.le x y = true -> Double.gt x y = false.
Proof.
  unfold Double.le, Double.gt, SFltb, SFleb.
  rewrite (SFcompare_antisym x y).
  destruct (SFcompare x y) as [[ | | ] |]; simpl; congruence.
Qed.

(** Numbers other than NaN are comparable. *)
Lemma SFcompare_not_nan (x y : spec_float) :
  Double.isnan x = false -> Double.isnan y = false ->
  exists c, SFcompare x y = Some c.
Proof.
  intros Hx Hy.
  destruct x, y; try discriminate Hx; try discriminate Hy; simpl;
    eexists; reflexivity.
Qed.

(** Away from NaN the order is total: [!(x < y)] is [y <= x]. *)
Lemma not_lt_le (x y : spec_float) :
  Double.isnan x = false -> Double.isnan y = false ->
  Double.lt x y = negb (Double.le y x).
Proof.
  unfold Double.lt, Double.le, SFltb, SFleb. intros Hx Hy.
  rewrite (SFcompare_antisym x y).
  destruct (SFcompare_not_nan x y Hx Hy) as [c ->].
  destruct c; reflexivity.
Qed.

(** Every comparison with NaN is false. *)
Lemma compare_nan_l (y : spec_float) :
  Double.lt Double.nan y = false /\ Double.gt Double.nan y = false /\
  Double.le Double.nan y = false /\ Double.ge Double.nan y = false.
Proof.
  unfold Double.lt, Double.gt, Double.le, Double.ge, SFltb, SFleb, Double.nan.
  destruct y; simpl; repeat split; reflexivity.
Qed.

(** The order is transitive. *)
Lemma SFltb_trans (x y z : spec_float) :
  SFltb x y = true -> SFltb y z = true -> SFltb x z = true.
Proof.
  unfold SFltb.
  destruct x as [sx | sx | | sx mx ex], y as [sy | sy | | sy my ey],
    z as [sz | sz | | sz mz ez]; simpl; try congruence;
    try (destruct sx; congruence); try (destruct sy; congruence);
    try (destruct sz; congruence);
    try (destruct sx, sy; congruence); try (destruct sy, sz; congruence);
    try (destruct sx, sz; congruence);
    try (destruct sx, sy, sz; congruence).
  change (Pos.compare_cont Eq mx my) with (Pos.compare mx my).
  change (Pos.compare_cont Eq my mz) with (Pos.compare my mz).
  change (Pos.compare_cont Eq mx mz) with (Pos.compare mx mz).
  destruct sx, sy, sz; try congruence;
    destruct (Z.compare_spec ex ey), (Z.compare_spec ey ez),
      (Z.compare_spec ex ez); try congruence; try lia;
    destruct (Pos.compare_spec mx my), (Pos.compare_spec my mz),
      (Pos.compare_spec mx mz); simpl; try congruence; lia.
Qed.

(* ================================================================== *)
(** * Validation of CDL parameters *)
(* ================================================================== *)

Section CDLFacts.
Context {Base : Type} `{OpDataInterface Base}.
Import CDL.

Lemma validateGreaterEqual_spec (name : string) (value threshold : Double.t) :
  (Double.ge value threshold = true /\
   validateGreaterEqual name value threshold = Ok tt) \/
  (Double.ge value threshold = false /\
   throws_with (validateGreaterEqual name value threshold)
     " should be greater than ").
Proof.
  unfold validateGreaterEqual.
  destruct (Double.ge value threshold); simpl; [left | right]; split;
    try reflexivity.
  eexists. split; [reflexivity |]. simpl. tauto.
Qed.

Lemma validateGreaterThan_spec (name : string) (value threshold : Double.t) :
  (Double.gt value threshold = true /\
   validateGreaterThan name value threshold = Ok tt) \/
  (Double.gt value threshold = false /\
   throws_with (validateGreaterThan name value threshold)
     " should be greater than ").
Proof.
  unfold validateGreaterThan.
  destruct (Double.gt value threshold); simpl; [left | right]; split;
    try reflexivity.
  eexists. split; [reflexivity |]. simpl. tauto.
Qed.

(** [validateParams] returns exactly on the domain, and throws an exception
    saying "should be greater than" outside of it. *)
Lemma validateParams_spec (slopeParams powerParams : ChannelParams)
    (saturation : Double.t) :
  (in_domain slopeParams powerParams saturation = true /\
   validateParams slopeParams powerParams saturation = Ok tt) \/
  (in_domain slopeParams powerParams saturation = false /\
   throws_with (validateParams slopeParams powerParams saturation)
     " should be greater than ").
Proof.
  unfold validateParams, validateChannelParams, validateGreaterEqual,
    validateGreaterThan, in_domain.
  repeat match goal with
         | |- context [Double.ge ?a ?b] =>
             destruct (Double.ge a b); cbn [negb bind andb]
         | |- context [Double.gt ?a ?b] =>
             destruct (Double.gt a b); cbn [negb bind andb]
         end;
    first
      [ left; split; reflexivity
      | right; split;
        [reflexivity | eexists; split; [reflexivity | simpl; tauto]] ].
Qed.

Lemma validate_spec (d : CDLOpData Base) :
  base_validates ->
  (in_domain (m_slopeParams d) (m_powerParams d) (m_saturation d) = true /\
   validate d = Ok tt) \/
  (in_domain (m_slopeParams d) (m_powerParams d) (m_saturation d) = false /\
   throws (validate d)).
Proof.
  intros Hbase. unfold validate. rewrite Hbase. cbn [bind].
  destruct (validateParams_spec (m_slopeParams d) (m_powerParams d)
              (m_saturation d)) as [[Hin Hok] | [Hout [e [Hthrow _]]]].
  - left. split; assumption.
  - right. split; [assumption | exists e; assumption].
Qed.

End CDLFacts.

(** C3, as the code has it.  The parameterised constructor validates: with
    a slope, power or saturation outside the domain it raises.  The mutating
    setters only assign: called with the same values they return normally
    and the object holds the values exactly as given (nothing is clamped);
    the exception is raised by the next [validate()]. *)
Theorem CDL_constructor_validates_setters_store
    {Base : Type} `{OpDataInterface Base}
    (d : CDL.CDLOpData Base) (style : CDL.Style)
    (slope offset power : CDL.ChannelParams) (saturation : Double.t) :
  base_validates ->
  CDL.in_domain slope power saturation = false ->
  throws (CDL.CDLOpData_new style slope offset power saturation) /\
  exists d1 d2 d3,
    CDL.setSlopeParams d slope = Ok d1 /\
    CDL.setPowerParams d1 power = Ok d2 /\
    CDL.setSaturation d2 saturation = Ok d3 /\
    CDL.m_slopeParams d3 = slope /\
    CDL.m_powerParams d3 = power /\
    CDL.m_saturation d3 = saturation /\
    throws (CDL.validate d3).
Proof.
  intros Hbase Hout. split.
  - unfold CDL.CDLOpData_new.
    destruct (validate_spec
                (CDL.mkCDLOpData OpData_default style slope offset power
                   saturation) Hbase) as [[Hin _] | [_ [e He]]].
    + simpl in Hin. congruence.
    + exists e. rewrite He. reflexivity.
  - eexists. eexists. eexists.
    split; [reflexivity |]. split; [reflexivity |]. split; [reflexivity |].
    split; [reflexivity |]. split; [reflexivity |]. split; [reflexivity |].
    match goal with
    | |- throws (CDL.validate ?d3) =>
        destruct (validate_spec d3 Hbase) as [[Hin _] | [_ Hthrow]]
    end.
    + simpl in Hin. congruence.
    + exact Hthrow.
Qed.

(** The values of the unit test [CDLOpData, validation_failure]: slope -0.9,
    power 1.2, saturation 1.17. *)
Lemma CDL_constructor_validates_setters_store_witness :
  throws (CDL.CDLOpData_new (Base := unit) CDL.CDL_V1_2_FWD
            (CDL.uniform (Double.lit (-9) 10)) (CDL.uniform (Double.lit 1 100))
            (CDL.uniform (Double.lit 12 10)) (Double.lit 117 100)) /\
  exists d1 d2 d3,
    CDL.setSlopeParams (CDL.CDLOpData_default (Base := unit))
      (CDL.uniform (Double.lit (-9) 10)) = Ok d1 /\
    CDL.setPowerParams d1 (CDL.uniform (Double.lit 12 10)) = Ok d2 /\
    CDL.setSaturation d2 (Double.lit 117 100) = Ok d3 /\
    CDL.m_slopeParams d3 = CDL.uniform (Double.lit (-9) 10) /\
    CDL.m_powerParams d3 = CDL.uniform (Double.lit 12 10) /\
    CDL.m_saturation d3 = Double.lit 117 100 /\
    throws (CDL.validate d3).
Proof.
  apply (CDL_constructor_validates_setters_store
           (CDL.CDLOpData_default (Base := unit)) CDL.CDL_V1_2_FWD
           (CDL.uniform (Double.lit (-9) 10)) (CDL.uniform (Double.lit 1 100))
           (CDL.uniform (Double.lit 12 10)) (Double.lit 117 100)).
  - intros b. reflexivity.
  - vm_compute. reflexivity.
Defined.

(** Against C3 as stated: [setSlopeParams] with the negative slope -0.9
    returns normally and the object stores -0.9; only [validate()] raises. *)
Lemma CDL_setSlopeParams_does_not_raise :
  exists d',
    CDL.setSlopeParams (CDL.CDLOpData_default (Base := unit))
      (CDL.uniform (Double.lit (-9) 10)) = Ok d' /\
    CDL.m_slopeParams d' = CDL.uniform (Double.lit (-9) 10) /\
    Double.lt (Double.lit (-9) 10) Double.zero = true /\
    throws (CDL.validate d').
Proof.
  eexists. split; [reflexivity |]. split; [reflexivity |].
  split; [vm_compute; reflexivity |].
  eexists. vm_compute. reflexivity.
Qed.

(* ================================================================== *)
(** * Validation of FixedFunction parameters *)
(* ================================================================== *)

Section FixedFunctionFacts.
Context {Base : Type} `{OpDataInterface Base}.
Import FixedFunction.

(** Nothing is both below the lower and above the upper bound. *)
Lemma above_hi_not_below_low (p : Double.t) :
  Double.gt p hi_bound = true -> Double.lt p low_bound = false.
Proof.
  unfold Double.gt, Double.lt. intros Hhi.
  destruct (SFltb p low_bound) eqn:Hlow; [| reflexivity].
  pose proof (SFltb_trans _ _ _ Hhi Hlow) as Habs.
  vm_compute in Habs. discriminate Habs.
Qed.

(** Validation of a surround op: one parameter, and neither comparison of
    the source fires. *)
Lemma validate_surround (d : FixedFunctionOpData Base) :
  base_validates ->
  m_style d = REC2100_SURROUND ->
  (validate d = Ok tt <->
   exists p, m_params d = [p] /\
             Double.lt p low_bound = false /\ Double.gt p hi_bound = false).
Proof.
  intros Hbase Hstyle. unfold validate. rewrite Hbase, Hstyle. cbn [bind is_surround].
  destruct (m_params d) as [| p [| q rest]].
  - split; [discriminate | intros [p [Hp _]]; discriminate Hp].
  - destruct (Double.lt p low_bound) eqn:Hlow.
    + split; [discriminate |].
      intros [p' [Hp [Hlow' _]]]. injection Hp as <-. congruence.
    + destruct (Double.gt p hi_bound) eqn:Hhi.
      * split; [discriminate |].
        intros [p' [Hp [_ Hhi']]]. injection Hp as <-. congruence.
      * split; [| reflexivity]. intros _. exists p. repeat split; assumption.
  - split; [discriminate | intros [p' [Hp _]]; discriminate Hp].
Qed.

(** For a parameter that is a number, the two comparisons of the source
    say [0.001 <= p <= 100]. *)
Lemma in_range_comparisons (p : Double.t) :
  Double.isnan p = false ->
  (Double.lt p low_bound = false /\ Double.gt p hi_bound = false <->
   in_range p = true).
Proof.
  intros Hp. unfold in_range.
  change (Double.gt p hi_bound) with (Double.lt hi_bound p).
  rewrite (not_lt_le p low_bound Hp) by (vm_compute; reflexivity).
  rewrite (not_lt_le hi_bound p) by (try exact Hp; vm_compute; reflexivity).
  destruct (Double.le low_bound p), (Double.le p hi_bound); simpl;
    split; try tauto; try discriminate; intros [? ?]; discriminate.
Qed.

(** The messages of the two bound checks. *)
Lemma validate_surround_above (b : Base) (p : Double.t) :
  base_validates ->
  Double.gt p hi_bound = true ->
  throws_with (validate (mkFixedFunctionOpData b REC2100_SURROUND [p]))
    " is greater than upper bound ".
Proof.
  intros Hbase Hhi. unfold validate. rewrite Hbase. cbn [bind is_surround m_style m_params].
  rewrite (above_hi_not_below_low p Hhi), Hhi.
  eexists. split; [reflexivity | simpl; tauto].
Qed.

Lemma validate_surround_below (b : Base) (p : Double.t) :
  base_validates ->
  Double.lt p low_bound = true ->
  throws_with (validate (mkFixedFunctionOpData b REC2100_SURROUND [p]))
    " is less than lower bound ".
Proof.
  intros Hbase Hlow. unfold validate. rewrite Hbase. cbn [bind is_surround m_style m_params].
  rewrite Hlow. eexists. split; [reflexivity | simpl; tauto].
Qed.

(** Every other style validates exactly without parameters. *)
Lemma validate_other_styles (d : FixedFunctionOpData Base) :
  base_validates ->
  m_style d <> REC2100_SURROUND ->
  (validate d = Ok tt <-> m_params d = []).
Proof.
  intros Hbase Hstyle. unfold validate. rewrite Hbase. cbn [bind].
  destruct (m_style d); try contradiction; cbn [is_surround];
    destruct (m_params d); split; intros Hx; try reflexivity;
    discriminate Hx.
Qed.

(** CDL validation throws for a slope below zero, a power at or below zero
    and a saturation below zero. *)
Lemma CDL_validateParams_throws (slope power : CDL.ChannelParams)
    (saturation : Double.t) :
  Double.lt (CDL.red slope) Double.zero = true \/
  Double.lt (CDL.green slope) Double.zero = true \/
  Double.lt (CDL.blue slope) Double.zero = true \/
  Double.le (CDL.red power) Double.zero = true \/
  Double.le (CDL.green power) Double.zero = true \/
  Double.le (CDL.blue power) Double.zero = true \/
  Double.lt saturation Double.zero = true ->
  throws (CDL.validateParams slope power saturation).
Proof.
  intros Hbad.
  destruct (validateParams_spec slope power saturation)
    as [[Hin _] | [_ [e [He _]]]]; [| exists e; exact He].
  unfold CDL.in_domain in Hin.
  repeat (apply andb_prop in Hin; destruct Hin as [Hin ?]).
  repeat match goal with
         | Hb : _ \/ _ |- _ => destruct Hb as [Hb | Hb]
         end;
    first [ apply lt_not_ge in Hbad | apply le_not_gt in Hbad ]; congruence.
Qed.

End FixedFunctionFacts.

(** C4 at its failing input.  [validate()] tests [p < 0.001] and
    [p > 100]; both are false for NaN, so a "Rec2100Surround" op whose only
    parameter is NaN validates, although NaN is not in [0.001, 100].  (CDL
    validation, written as [!(value >= threshold)], does reject NaN.) *)
Theorem FixedFunction_validate_accepts_NaN :
  FixedFunction.validate
    (FixedFunction.mkFixedFunctionOpData tt FixedFunction.REC2100_SURROUND
       [Double.nan]) = Ok tt /\
  FixedFunction.in_range Double.nan = false /\
  returns (FixedFunction.FixedFunctionOpData_new (Base := unit) [Double.nan]
             FixedFunction.REC2100_SURROUND) /\
  throws (CDL.validateParams (CDL.uniform Double.nan) (CDL.uniform Double.one)
            Double.one).
Proof.
  split; [vm_compute; reflexivity |]. split; [vm_compute; reflexivity |].
  split; [eexists; vm_compute; reflexivity | eexists; vm_compute; reflexivity].
Qed.

(* ================================================================== *)
(** * [inverse()] of CDL and FixedFunction data *)
(* ================================================================== *)

Section InverseData.
Context {Base : Type} `{OpDataInterface Base}.

(** The inverse of a CDL is the same CDL with the direction of its style
    flipped. *)
Lemma CDL_inverse_spec (d : CDL.CDLOpData Base) :
  CDL.isReverse (CDL.inverse d) = negb (CDL.isReverse d) /\
  CDL.isClamping (CDL.inverse d) = CDL.isClamping d /\
  CDL.m_slopeParams (CDL.inverse d) = CDL.m_slopeParams d /\
  CDL.m_offsetParams (CDL.inverse d) = CDL.m_offsetParams d /\
  CDL.m_powerParams (CDL.inverse d) = CDL.m_powerParams d /\
  CDL.m_saturation (CDL.inverse d) = CDL.m_saturation d /\
  CDL.base (CDL.inverse d) = CDL.base d.
Proof.
  unfold CDL.inverse, CDL.isReverse, CDL.isClamping, CDL.clone.
  destruct d as [b style slope offset power sat]; destruct style; simpl;
    repeat split; reflexivity.
Qed.

Lemma CDL_inverse_involutive (d : CDL.CDLOpData Base) :
  CDL.inverse (CDL.inverse d) = d.
Proof.
  destruct d as [b style slope offset power sat]; destruct style; reflexivity.
Qed.

(** A validated op of an ACES style: the inverse has the opposite style and
    the same (empty) parameter list. *)
Lemma FixedFunction_inverse_aces (d : FixedFunction.FixedFunctionOpData Base) :
  base_validates ->
  FixedFunction.validate d = Ok tt ->
  FixedFunction.m_style d <> FixedFunction.REC2100_SURROUND ->
  exists r,
    FixedFunction.inverse d = Ok r /\
    FixedFunction.opposite_style (FixedFunction.m_style d)
      (FixedFunction.m_style r) = true /\
    FixedFunction.m_params r = FixedFunction.m_params d.
Proof.
  intros Hbase Hvalid Hstyle.
  pose proof (proj1 (validate_other_styles d Hbase Hstyle) Hvalid) as Hparams.
  unfold FixedFunction.inverse, FixedFunction.clone,
    FixedFunction.FixedFunctionOpData_new, FixedFunction.validate.
  rewrite Hbase, Hparams. cbn [bind FixedFunction.m_style FixedFunction.m_params].
  destruct (FixedFunction.m_style d); try contradiction;
    cbn; eexists; repeat split; reflexivity.
Qed.

(** A validated surround op: the style stays, the parameter becomes its
    reciprocal. *)
Lemma FixedFunction_inverse_surround (d : FixedFunction.FixedFunctionOpData Base) :
  base_validates ->
  FixedFunction.validate d = Ok tt ->
  FixedFunction.m_style d = FixedFunction.REC2100_SURROUND ->
  exists p,
    FixedFunction.m_params d = [p] /\
    FixedFunction.inverse d =
      Ok (FixedFunction.mkFixedFunctionOpData OpData_default
            FixedFunction.REC2100_SURROUND [Double.div Double.one p]).
Proof.
  intros Hbase Hvalid Hstyle.
  destruct (proj1 (validate_surround d Hbase Hstyle) Hvalid)
    as [p [Hparams [Hlow Hhi]]].
  exists p. split; [exact Hparams |].
  unfold FixedFunction.inverse, FixedFunction.clone,
    FixedFunction.FixedFunctionOpData_new, FixedFunction.validate.
  rewrite Hbase, Hparams, Hstyle.
  cbn [bind FixedFunction.m_style FixedFunction.m_params FixedFunction.is_surround].
  rewrite Hlow, Hhi. reflexivity.
Qed.

End InverseData.

(** C5, as the code has it.  The inverse of a CDL keeps slope, offset,
    power and saturation and flips the direction of the style.  The inverse
    of a validated FixedFunction of an ACES style has the opposite style and
    the same parameters; for the "Rec2100Surround" style, which has no
    reverse style, the style stays and the parameter is replaced by its
    reciprocal. *)
Theorem inverse_flips_style_or_inverts_surround
    {Base : Type} `{OpDataInterface Base}
    (cdl : CDL.CDLOpData Base) (d : FixedFunction.FixedFunctionOpData Base) :
  base_validates ->
  FixedFunction.validate d = Ok tt ->
  (CDL.isReverse (CDL.inverse cdl) = negb (CDL.isReverse cdl) /\
   CDL.isClamping (CDL.inverse cdl) = CDL.isClamping cdl /\
   CDL.m_slopeParams (CDL.inverse cdl) = CDL.m_slopeParams cdl /\
   CDL.m_offsetParams (CDL.inverse cdl) = CDL.m_offsetParams cdl /\
   CDL.m_powerParams (CDL.inverse cdl) = CDL.m_powerParams cdl /\
   CDL.m_saturation (CDL.inverse cdl) = CDL.m_saturation cdl) /\
  (FixedFunction.m_style d <> FixedFunction.REC2100_SURROUND ->
   exists r,
     FixedFunction.inverse d = Ok r /\
     FixedFunction.opposite_style (FixedFunction.m_style d)
       (FixedFunction.m_style r) = true /\
     FixedFunction.m_params r = FixedFunction.m_params d) /\
  (FixedFunction.m_style d = FixedFunction.REC2100_SURROUND ->
   exists p,
     FixedFunction.m_params d = [p] /\
     FixedFunction.inverse d =
       Ok (FixedFunction.mkFixedFunctionOpData OpData_default
             FixedFunction.REC2100_SURROUND [Double.div Double.one p])).
Proof.
  intros Hbase Hvalid. split; [| split].
  - destruct (CDL_inverse_spec cdl) as [H1 [H2 [H3 [H4 [H5 [H6 _]]]]]].
    repeat split; assumption.
  - apply FixedFunction_inverse_aces; assumption.
  - apply FixedFunction_inverse_surround; assumption.
Qed.

(** The CDL of the unit test [CDLOpData, inverse] and the FixedFunction of
    the unit test [FixedFunctionOpData, aces_dark_to_dim10_style]. *)
Lemma inverse_flips_style_or_inverts_surround_witness :
  let cdl :=
    CDL.mkCDLOpData tt CDL.CDL_V1_2_FWD
      (CDL.mkChannelParams (Double.lit 135 100) (Double.lit 11 10) (Double.lit 71 100))
      (CDL.mkChannelParams (Double.lit 5 100) (Double.lit (-23) 100) (Double.lit 11 100))
      (CDL.mkChannelParams (Double.lit 93 100) (Double.lit 81 100) (Double.lit 127 100))
      (Double.lit 123 100) in
  let d :=
    FixedFunction.mkFixedFunctionOpData tt
      FixedFunction.ACES_DARK_TO_DIM_10_FWD [] in
  (CDL.isReverse (CDL.inverse cdl) = negb (CDL.isReverse cdl) /\
   CDL.isClamping (CDL.inverse cdl) = CDL.isClamping cdl /\
   CDL.m_slopeParams (CDL.inverse cdl) = CDL.m_slopeParams cdl /\
   CDL.m_offsetParams (CDL.inverse cdl) = CDL.m_offsetParams cdl /\
   CDL.m_powerParams (CDL.inverse cdl) = CDL.m_powerParams cdl /\
   CDL.m_saturation (CDL.inverse cdl) = CDL.m_saturation cdl) /\
  (FixedFunction.m_style d <> FixedFunction.REC2100_SURROUND ->
   exists r,
     FixedFunction.inverse d = Ok r /\
     FixedFunction.opposite_style (FixedFunction.m_style d)
       (FixedFunction.m_style r) = true /\
     FixedFunction.m_params r = FixedFunction.m_params d) /\
  (FixedFunction.m_style d = FixedFunction.REC2100_SURROUND ->
   exists p,
     FixedFunction.m_params d = [p] /\
     FixedFunction.inverse d =
       Ok (FixedFunction.mkFixedFunctionOpData OpData_default
             FixedFunction.REC2100_SURROUND [Double.div Double.one p])).
Proof.
  intros cdl d.
  apply (inverse_flips_style_or_inverts_surround cdl d).
  - intros b. reflexivity.
  - reflexivity.
Defined.

(** Against C5 as stated: the inverse of the surround op with parameter 2
    (unit test [rec2100_surround_style]) has the same style and the
    parameter 0.5. *)
Lemma FixedFunction_surround_inverse_changes_parameter :
  exists r,
    FixedFunction.inverse
      (FixedFunction.mkFixedFunctionOpData tt FixedFunction.REC2100_SURROUND
         [Double.of_Z 2]) = Ok r /\
    FixedFunction.m_style r = FixedFunction.REC2100_SURROUND /\
    FixedFunction.m_params r = [Double.lit 1 2] /\
    FixedFunction.Params_eqb (FixedFunction.m_params r) [Double.of_Z 2] = false.
Proof.
  eexists. split; [vm_compute; reflexivity |].
  split; [reflexivity |]. split; [reflexivity |]. vm_compute. reflexivity.
Qed.

(* ================================================================== *)
(** * NaN in the Range renderers *)
(* ================================================================== *)

Section RangeFacts.
Context `{MathUtils}.
Import Range.

(** NaN goes through the scaling: [NaN * m_scale + m_offset] is NaN. *)
Lemma scaled_nan (r : RangeOpCPU) : scaled r Single.nan = Single.nan.
Proof.
  unfold scaled, Single.mul, Single.add, Single.nan.
  destruct (m_scale r), (m_offset r); reflexivity.
Qed.

(** [std::max(lo, NaN)] is [lo] and [std::min(hi, NaN)] is [hi]: the
    comparison with NaN is false and the first argument is returned. *)
Lemma std_max_nan (lo : Single.t) : Single.std_max lo Single.nan = lo.
Proof.
  unfold Single.std_max, Single.lt, SFltb, Single.nan.
  destruct lo; reflexivity.
Qed.

Lemma std_min_nan (hi : Single.t) : Single.std_min hi Single.nan = hi.
Proof.
  unfold Single.std_min, Single.lt, SFltb, Single.nan. reflexivity.
Qed.

(** A NaN channel becomes the lower bound in the renderers that have one,
    and the upper bound in those that only have that one. *)
Lemma render_channel_nan (k : Renderer) (r : RangeOpCPU) :
  Clamp_sends_nan_to_min ->
  (has_both_bounds k = true -> Single.lt (m_upperBound r) (m_lowerBound r) = false) ->
  (has_lower_bound k = true -> render_channel k r Single.nan = m_lowerBound r) /\
  (has_upper_bound_only k = true -> render_channel k r Single.nan = m_upperBound r).
Proof.
  intros Hclamp Hordered.
  destruct k; simpl in *; split; intros Hk; try discriminate Hk;
    rewrite ?scaled_nan;
    first [ apply Hclamp; apply Hordered; reflexivity
          | apply std_max_nan
          | apply std_min_nan ].
Qed.

(** [apply] on a buffer of exactly [numPixels] RGBA pixels returns, and
    renders pixel by pixel. *)
Lemma apply_loop_pixels (k : Renderer) (r : RangeOpCPU) (n : nat) :
  forall inImg : list Single.t,
  length inImg = (4 * n)%nat ->
  exists out,
    apply_loop k r n inImg = Ok out /\
    length out = (4 * n)%nat /\
    forall (i : nat) (c : nat), (i < n)%nat -> (c < 4)%nat ->
      exists x, nth_error inImg (4 * i + c) = Some x /\
                nth_error out (4 * i + c) =
                  Some (if (c <? 3)%nat then render_channel k r x else x).
Proof.
  induction n as [| n IH]; intros inImg Hlen.
  - exists []. simpl. repeat split; try reflexivity. intros i c Hi. lia.
  - destruct inImg as [| red [| green [| blue [| alpha rest]]]];
      simpl in Hlen; try lia.
    destruct (IH rest ltac:(lia)) as [out [Hrun [Hout Hpix]]].
    exists (render_channel k r red :: render_channel k r green ::
            render_channel k r blue :: alpha :: out).
    split; [simpl; rewrite Hrun; reflexivity |].
    split; [simpl; lia |].
    intros i c Hi Hc. destruct i as [| i].
    + destruct c as [| [| [| [| c]]]]; try lia; simpl;
        eexists; split; reflexivity.
    + destruct (Hpix i c ltac:(lia) Hc) as [x [Hin Hx]].
      exists x. replace (4 * S i + c)%nat with (S (S (S (S (4 * i + c))))) by lia.
      simpl nth_error. split; assumption.
Qed.

End RangeFacts.

(** C9, as the code has it.  On a buffer of [numPixels] RGBA pixels
    [apply] returns without an error; a NaN in R, G or B becomes the lower
    bound in the renderers that clamp from below
    ([RangeScaleMinMaxRenderer], [RangeScaleMinRenderer],
    [RangeMinMaxRenderer], [RangeMinRenderer]) and the upper bound in the
    renderers whose only bound is the upper one ([RangeScaleMaxRenderer],
    [RangeMaxRenderer], "NaNs become m_upperBound"); alpha is copied. *)
Theorem Range_apply_NaN_to_bound `{MathUtils}
    (k : Range.Renderer) (r : Range.RangeOpCPU) (inImg : list Single.t)
    (numPixels : Z) (i c : nat) :
  Clamp_sends_nan_to_min ->
  (Range.has_both_bounds k = true ->
   Single.lt (Range.m_upperBound r) (Range.m_lowerBound r) = false) ->
  0 <= numPixels ->
  length inImg = (4 * Z.to_nat numPixels)%nat ->
  (i < Z.to_nat numPixels)%nat -> (c < 3)%nat ->
  nth_error inImg (4 * i + c) = Some Single.nan ->
  exists out,
    Range.apply k r inImg numPixels = Ok out /\
    length out = length inImg /\
    nth_error out (4 * i + 3) = nth_error inImg (4 * i + 3) /\
    (Range.has_lower_bound k = true ->
     nth_error out (4 * i + c) = Some (Range.m_lowerBound r)) /\
    (Range.has_upper_bound_only k = true ->
     nth_error out (4 * i + c) = Some (Range.m_upperBound r)).
Proof.
  intros Hclamp Hordered Hn Hlen Hi Hc Hnan.
  destruct (apply_loop_pixels k r (Z.to_nat numPixels) inImg Hlen)
    as [out [Hrun [Hout Hpix]]].
  exists out. split; [exact Hrun |]. split; [lia |].
  destruct (Hpix i 3%nat Hi ltac:(lia)) as [a [Hina Houta]].
  destruct (Hpix i c Hi ltac:(lia)) as [x [Hinx Houtx]].
  rewrite Hnan in Hinx. injection Hinx as <-.
  destruct (Nat.ltb_spec c 3) as [_ | Hge]; [| lia].
  destruct (render_channel_nan k r Hclamp Hordered) as [Hlow Hup].
  split; [rewrite Hina, Houta; reflexivity |].
  split; intros Hk; rewrite Houtx; f_equal; [apply Hlow | apply Hup]; exact Hk.
Qed.

Lemma StdClamp_sends_nan_to_min : Clamp_sends_nan_to_min.
Proof.
  intros lo hi Hord. simpl.
  rewrite std_max_nan. unfold Single.std_min. rewrite Hord. reflexivity.
Qed.

(** The renderer and the NaN pixel of the unit test
    [RangeOpCPU, scale_with_low_and_high_clippings]: a range from [0, 1] to
    [0.5, 1.5]. *)
Lemma Range_apply_NaN_to_bound_witness :
  let r := Range.RangeOpCPU_new Double.one (Double.lit 1 2) (Double.lit 1 2)
             (Double.lit 3 2) in
  let inImg := [Single.nan; Single.nan; Single.nan; Single.zero] in
  exists out,
    Range.apply Range.RangeScaleMinMaxRenderer r inImg 1 = Ok out /\
    length out = length inImg /\
    nth_error out 3 = nth_error inImg 3 /\
    (Range.has_lower_bound Range.RangeScaleMinMaxRenderer = true ->
     nth_error out 0 = Some (Range.m_lowerBound r)) /\
    (Range.has_upper_bound_only Range.RangeScaleMinMaxRenderer = true ->
     nth_error out 0 = Some (Range.m_upperBound r)).
Proof.
  intros r inImg.
  apply (Range_apply_NaN_to_bound Range.RangeScaleMinMaxRenderer r inImg 1
           0%nat 0%nat).
  - exact StdClamp_sends_nan_to_min.
  - intros _. vm_compute. reflexivity.
  - lia.
  - reflexivity.
  - vm_compute. lia.
  - lia.
  - reflexivity.
Defined.

(** Against C9 as stated: a Range whose only bound is the upper bound 1
    ([RangeMaxRenderer]; the empty lower bound is NaN) maps a NaN pixel to
    1, the upper bound. *)
Lemma RangeMaxRenderer_sends_NaN_to_upper_bound :
  let r := Range.RangeOpCPU_new Double.one Double.zero Double.nan Double.one in
  Range.apply Range.RangeMaxRenderer r
    [Single.nan; Single.nan; Single.nan; Single.zero] 1 =
    Ok [Single.of_Z 1; Single.of_Z 1; Single.of_Z 1; Single.zero] /\
  Range.m_upperBound r = Single.of_Z 1 /\
  Range.m_lowerBound r = Single.nan /\
  Single.lt (Range.m_lowerBound r) (Range.m_upperBound r) = false.
Proof. vm_compute. repeat split; reflexivity. Qed.

(* ================================================================== *)
(** * [GPUProcessor]: dynamic properties and the legacy lattice *)
(* ================================================================== *)

Section GpuFacts.
Context {Op : Type} `{OpInterface Op} `{Lut1DInterface Op}
        `{Optimizer.OptimizerEnv Op} `{GpuInterface Op}.
Import GPU.

Lemma u32_small (x : Z) : 0 <= x < 2 ^ 32 -> u32 x = x.
Proof. intros Hx. unfold u32. apply Z.mod_small. exact Hx. Qed.

Lemma read_at (pre suf : list Single.t) (j : nat) (k : Z) (x : Single.t) :
  Z.to_nat k = (length pre + j)%nat ->
  nth_error suf j = Some x ->
  read (pre ++ suf) k = Ok x.
Proof.
  intros Hk Hx. unfold read. rewrite Hk, nth_error_app2 by lia.
  replace (length pre + j - length pre)%nat with j by lia.
  rewrite Hx. reflexivity.
Qed.

Lemma write_at (pre mid suf : list Single.t) (k : Z) (old x : Single.t) :
  Z.to_nat k = (length pre + length mid)%nat ->
  write (pre ++ mid ++ old :: suf) k x = Ok (pre ++ mid ++ x :: suf).
Proof.
  intros Hk. unfold write. rewrite Hk.
  rewrite !app_assoc. rewrite <- (length_app pre mid).
  destruct (Nat.ltb_spec (length (pre ++ mid))
              (length ((pre ++ mid) ++ old :: suf))) as [_ | Hge];
    [| rewrite (length_app (pre ++ mid)) in Hge; simpl in Hge; lia].
  rewrite firstn_app, firstn_all, Nat.sub_diag, app_nil_r. cbn [firstn].
  rewrite skipn_app, skipn_all2 by lia.
  replace (S (length (pre ++ mid)) - length (pre ++ mid))%nat with 1%nat by lia.
  reflexivity.
Qed.

(** One iteration of the copy loop moves the RGB values of one pixel. *)
Lemma copy_rgb_step (count : nat) (i : Z)
    (done_rgb rest_rgb done_rgba rest_rgba : list Single.t)
    (x y z r g b a : Single.t) :
  Z.of_nat (length done_rgb) = 3 * i ->
  Z.of_nat (length done_rgba) = 4 * i ->
  0 <= i -> 4 * i + 3 < 2 ^ 32 ->
  copy_rgb (S count) i (done_rgb ++ x :: y :: z :: rest_rgb)
    (done_rgba ++ r :: g :: b :: a :: rest_rgba) =
  copy_rgb count (i + 1) (done_rgb ++ r :: g :: b :: rest_rgb)
    (done_rgba ++ r :: g :: b :: a :: rest_rgba).
Proof.
  intros Hd3 Hd4 Hi Hfit. cbn [copy_rgb].
  rewrite !u32_small by lia.
  rewrite (read_at done_rgba (r :: g :: b :: a :: rest_rgba) 0 (4 * i + 0) r)
    by (try reflexivity; lia).
  cbn [bind].
  pose proof (write_at done_rgb [] (y :: z :: rest_rgb) (3 * i + 0) x r) as E0.
  cbn [app length] in E0. rewrite E0 by lia. clear E0. cbn [bind].
  rewrite (read_at done_rgba (r :: g :: b :: a :: rest_rgba) 1 (4 * i + 1) g)
    by (try reflexivity; lia).
  cbn [bind].
  pose proof (write_at done_rgb [r] (z :: rest_rgb) (3 * i + 1) y g) as E1.
  cbn [app length] in E1. rewrite E1 by lia. clear E1. cbn [bind].
  rewrite (read_at done_rgba (r :: g :: b :: a :: rest_rgba) 2 (4 * i + 2) b)
    by (try reflexivity; lia).
  cbn [bind].
  pose proof (write_at done_rgb [r; g] rest_rgb (3 * i + 2) z b) as E2.
  cbn [app length] in E2. rewrite E2 by lia. clear E2. cbn [bind].
  reflexivity.
Qed.

(** The copy loop from pixel [i] on: the RGB values already written stay,
    those of the remaining pixels replace the rest of the array. *)
Lemma copy_rgb_from (count : nat) :
  forall (i : Z) (done_rgb rest_rgb done_rgba rest_rgba : list Single.t),
  Z.of_nat (length done_rgb) = 3 * i ->
  Z.of_nat (length done_rgba) = 4 * i ->
  length rest_rgb = (3 * count)%nat ->
  length rest_rgba = (4 * count)%nat ->
  0 <= i -> 4 * (i + Z.of_nat count) < 2 ^ 32 ->
  copy_rgb count i (done_rgb ++ rest_rgb) (done_rgba ++ rest_rgba) =
  Ok (done_rgb ++ rgb_of rest_rgba).
Proof.
  induction count as [| count IH];
    intros i done_rgb rest_rgb done_rgba rest_rgba Hd3 Hd4 Hr3 Hr4 Hi Hfit.
  - destruct rest_rgb; [| discriminate Hr3].
    destruct rest_rgba; [| discriminate Hr4]. reflexivity.
  - destruct rest_rgb as [| x [| y [| z rest_rgb]]];
      cbn [length] in Hr3; try lia.
    destruct rest_rgba as [| r [| g [| b [| a rest_rgba]]]];
      cbn [length] in Hr4; try lia.
    rewrite copy_rgb_step by lia.
    change (done_rgb ++ r :: g :: b :: rest_rgb)
      with (done_rgb ++ [r; g; b] ++ rest_rgb).
    change (done_rgba ++ r :: g :: b :: a :: rest_rgba)
      with (done_rgba ++ [r; g; b; a] ++ rest_rgba).
    rewrite !app_assoc.
    rewrite (IH (i + 1) (done_rgb ++ [r; g; b]) rest_rgb
               (done_rgba ++ [r; g; b; a]) rest_rgba);
      try (rewrite length_app; cbn [length]; lia); try lia.
    rewrite <- app_assoc. reflexivity.
Qed.

(** The whole loop discards alpha: the array becomes the RGB values of the
    RGBA lattice. *)
Lemma copy_rgb_discards_alpha (n : Z) (lutArray lut3D : list Single.t) :
  0 <= n -> 4 * n < 2 ^ 32 ->
  length lutArray = Z.to_nat (3 * n) ->
  length lut3D = Z.to_nat (4 * n) ->
  copy_rgb (Z.to_nat n) 0 lutArray lut3D = Ok (rgb_of lut3D).
Proof.
  intros Hn Hfit Harr Hbuf.
  change (2 ^ 32) with 4294967296 in *.
  apply (copy_rgb_from (Z.to_nat n) 0 [] lutArray [] lut3D);
    cbn [length]; change (2 ^ 32) with 4294967296; lia.
Qed.

Lemma length_rgb_of (rgba : list Single.t) (n : nat) :
  length rgba = (4 * n)%nat -> length (rgb_of rgba) = (3 * n)%nat.
Proof.
  revert rgba. induction n as [| n IH]; intros rgba Hlen.
  - destruct rgba; [reflexivity | discriminate Hlen].
  - destruct rgba as [| r [| g [| b [| a rest]]]]; simpl in Hlen; try lia.
    simpl. rewrite (IH rest) by lia. lia.
Qed.

(** [Create3DLut] on a non-empty span. *)
Lemma Create3DLut_spec (ops : list Op) (edgelen : Z)
    (identity rendered : list Single.t) :
  ops <> [] ->
  0 < edgelen * edgelen * edgelen ->
  4 * (edgelen * edgelen * edgelen) < 2 ^ 32 ->
  length (getArray (Lut3DOpData_new edgelen)) =
    Z.to_nat (3 * (edgelen * edgelen * edgelen)) ->
  GenerateIdentityLut3D
    (repeat Single.zero (Z.to_nat (4 * (edgelen * edgelen * edgelen))))
    edgelen 4 LUT3DORDER_FAST_BLUE = Ok identity ->
  apply_ops ops identity (edgelen * edgelen * edgelen) = Ok rendered ->
  length rendered = Z.to_nat (4 * (edgelen * edgelen * edgelen)) ->
  Create3DLut ops edgelen =
  Ok (CreateLut3DOp (setArray (Lut3DOpData_new edgelen) (rgb_of rendered))
        TRANSFORM_DIR_FORWARD).
Proof.
  intros Hne Hpos Hfit Harr Hgen Happly Hlen.
  unfold Create3DLut. destruct ops as [| op ops']; [contradiction |].
  cbv zeta.
  rewrite (u32_small (edgelen * edgelen * edgelen)) by lia.
  rewrite (u32_small (edgelen * edgelen * edgelen * 4)) by lia.
  replace (edgelen * edgelen * edgelen * 4)
    with (4 * (edgelen * edgelen * edgelen)) by lia.
  rewrite Hgen. cbn [bind]. rewrite Happly. cbn [bind].
  rewrite copy_rgb_discards_alpha by (try lia; assumption).
  reflexivity.
Qed.

(** With an empty span no lattice is built and no op is made. *)
Lemma Create3DLut_nil (edgelen : Z) : Create3DLut [] edgelen = Ok [].
Proof. reflexivity. Qed.

End GpuFacts.

(* ================================================================== *)
(** * More on the sweeps: what is removed, and termination *)
(* ================================================================== *)

Section SweepResults.
Context {Op : Type} `{OpInterface Op}.
Import Optimizer.

Lemma RemoveNoOps_loop_filter (rest : list Op) (count : Z) :
  RemoveNoOps_loop rest count =
  (filter (fun o => negb (isNoOp o)) rest,
   count + (Z.of_nat (length rest) -
            Z.of_nat (length (filter (fun o => negb (isNoOp o)) rest)))).
Proof.
  revert count.
  induction rest as [| o rest IH]; intros count;
    cbn [RemoveNoOps_loop filter length].
  - f_equal. lia.
  - destruct (isNoOp o); cbn [negb length]; rewrite IH; f_equal;
      rewrite ?Nat2Z.inj_succ; lia.
Qed.

Lemma RemoveNoOpTypes_filter (ops : list Op) :
  RemoveNoOpTypes ops = filter (fun o => negb (is_NoOpType (getType o))) ops.
Proof.
  induction ops as [| o ops IH]; simpl; [reflexivity |].
  destruct (is_NoOpType (getType o)); simpl; rewrite IH; reflexivity.
Qed.

(** The bound of the loops never exceeds the index of the last op. *)
Lemma static_cast_int_le (u : Z) : 0 <= u -> static_cast_int u <= u.
Proof.
  intros Hu. unfold static_cast_int.
  change (2 ^ 31) with 2147483648. change (2 ^ 32) with 4294967296.
  pose proof (Z.mod_le u 4294967296 Hu ltac:(lia)).
  pose proof (Z.mod_pos_bound u 4294967296 ltac:(lia)).
  destruct (u mod 4294967296 <? 2147483648); lia.
Qed.

Lemma last_index_le (opVec : list Op) :
  last_index opVec <= Z.of_nat (length opVec) - 1.
Proof.
  unfold last_index. destruct opVec as [| o opVec]; [vm_compute; discriminate |].
  cbn [length]. change (2 ^ 64) with 18446744073709551616.
  pose proof (Z.mod_le (Z.of_nat (S (length opVec)) - 1) 18446744073709551616
                ltac:(lia) ltac:(lia)).
  pose proof (Z.mod_pos_bound (Z.of_nat (S (length opVec)) - 1)
                18446744073709551616 ltac:(lia)).
  pose proof (static_cast_int_le
                ((Z.of_nat (S (length opVec)) - 1) mod 18446744073709551616)
                ltac:(lia)).
  lia.
Qed.

Lemma length_erase (opVec : list Op) (i : Z) :
  0 <= i -> i + 2 <= Z.of_nat (length opVec) ->
  Z.of_nat (length (erase opVec i (i + 2))) = Z.of_nat (length opVec) - 2.
Proof.
  intros Hi Hlen. unfold erase.
  rewrite length_app, length_firstn, length_skipn. lia.
Qed.

Lemma nth_error_in_range (opVec : list Op) (i : Z) :
  0 <= i < Z.of_nat (length opVec) ->
  exists o, nth_error opVec (Z.to_nat i) = Some o.
Proof.
  intros Hi. destruct (nth_error opVec (Z.to_nat i)) as [o |] eqn:E.
  - exists o. reflexivity.
  - apply nth_error_None in E. lia.
Qed.

(** Termination of the loop of [RemoveInverseOps]: every iteration lowers
    [2 * size - firstindex]. *)
Lemma RemoveInverseOps_loop_terminates (fuel : nat) :
  forall (opVec : list Op) (firstindex count : Z),
  0 <= firstindex ->
  2 * Z.of_nat (length opVec) - firstindex < Z.of_nat fuel ->
  exists opVec' count',
    RemoveInverseOps_loop fuel opVec firstindex count = Ok (opVec', count') /\
    Z.of_nat (length opVec') + 2 * (count' - count) = Z.of_nat (length opVec).
Proof.
  induction fuel as [| fuel IH]; intros opVec firstindex count Hi Hfuel.
  - pose proof (last_index_le opVec) as Hlast. cbn [RemoveInverseOps_loop].
    destruct (Z.ltb_spec firstindex (last_index opVec)); [lia |].
    exists opVec, count. split; [reflexivity | lia].
  - pose proof (last_index_le opVec) as Hlast. cbn [RemoveInverseOps_loop].
    destruct (Z.ltb_spec firstindex (last_index opVec)) as [Hlt | Hge].
    + destruct (nth_error_in_range opVec firstindex ltac:(lia)) as [a ->].
      destruct (nth_error_in_range opVec (firstindex + 1) ltac:(lia)) as [b ->].
      destruct (isSameType a b && isInverse a b).
      * pose proof (length_erase opVec firstindex Hi ltac:(lia)) as Hlen.
        destruct (IH (erase opVec firstindex (firstindex + 2))
                     (Z.max 0 (firstindex - 1)) (count + 1)
                     ltac:(lia) ltac:(lia))
          as [opVec' [count' [Hrun Hacc]]].
        exists opVec', count'. split; [exact Hrun | lia].
      * destruct (IH opVec (firstindex + 1) count ltac:(lia) ltac:(lia))
          as [opVec' [count' [Hrun Hacc]]].
        exists opVec', count'. split; [exact Hrun | lia].
    + exists opVec, count. split; [reflexivity | lia].
Qed.

End SweepResults.

(** [RemoveNoOps] keeps exactly the ops that are not no-ops, in their
    order, and returns how many it erased; [RemoveNoOpTypes] does the same
    for the ops whose data is of [NoOpType]. *)
Theorem RemoveNoOps_keeps_the_other_ops {Op : Type} `{OpInterface Op}
    (opVec : list Op) :
  Optimizer.RemoveNoOps opVec =
    (filter (fun o => negb (isNoOp o)) opVec,
     Z.of_nat (length opVec) -
     Z.of_nat (length (filter (fun o => negb (isNoOp o)) opVec))) /\
  Optimizer.RemoveNoOpTypes opVec =
    filter (fun o => negb (Optimizer.is_NoOpType (getType o))) opVec.
Proof.
  split.
  - unfold Optimizer.RemoveNoOps. rewrite RemoveNoOps_loop_filter.
    f_equal.
  - apply RemoveNoOpTypes_filter.
Qed.

(** For ops whose [isSameType] and [isInverse] return (as [OpInterface]
    takes them; an op on which one of them raises is outside this
    statement), [RemoveInverseOps] returns: its loop ends within
    [2 * size + 1] iterations whatever the two methods answer, it never
    indexes outside the vector, and the vector shrinks by two ops for each
    counted pair. *)
Theorem RemoveInverseOps_terminates {Op : Type} `{OpInterface Op}
    (opVec : list Op) :
  exists opVec' count,
    Optimizer.RemoveInverseOps opVec = Ok (opVec', count) /\
    0 <= count /\
    Z.of_nat (length opVec') + 2 * count = Z.of_nat (length opVec).
Proof.
  destruct (RemoveInverseOps_loop_terminates (2 * length opVec + 1) opVec 0 0
              ltac:(lia) ltac:(lia)) as [opVec' [count [Hrun Hacc]]].
  exists opVec', count. split; [exact Hrun |].
  pose proof (RemoveInverseOps_loop_count _ _ _ _ _ _ Hrun) as [Hle _].
  split; lia.
Qed.

Section CombineTermination.
Context {Op : Type} `{OpInterface Op}.
Import Optimizer.

Lemma length_insert_erase (opVec tmpops : list Op) (i : Z) :
  0 <= i -> i + 2 <= Z.of_nat (length opVec) ->
  Z.of_nat (length (insert (erase opVec i (i + 2)) i tmpops)) =
  Z.of_nat (length opVec) - 2 + Z.of_nat (length tmpops).
Proof.
  intros Hi Hlen. pose proof (length_erase opVec i Hi Hlen) as Herase.
  unfold insert.
  rewrite !length_app, length_firstn, length_skipn. lia.
Qed.

(** Termination of the loop of [CombineOps] when no combination returns
    more than one op. *)
Lemma CombineOps_loop_terminates (fuel : nat) :
  (forall a b : Op, canCombineWith a b = true ->
                    (length (combineWith a b) <= 1)%nat) ->
  forall (opVec : list Op) (firstindex count : Z),
  0 <= firstindex ->
  2 * Z.of_nat (length opVec) - firstindex < Z.of_nat fuel ->
  exists opVec' count',
    CombineOps_loop fuel opVec firstindex count = Ok (opVec', count') /\
    Z.of_nat (length opVec') + (count' - count) <= Z.of_nat (length opVec).
Proof.
  intros Hshrink.
  induction fuel as [| fuel IH]; intros opVec firstindex count Hi Hfuel.
  - pose proof (last_index_le opVec) as Hlast. cbn [CombineOps_loop].
    destruct (Z.ltb_spec firstindex (last_index opVec)); [lia |].
    exists opVec, count. split; [reflexivity | lia].
  - pose proof (last_index_le opVec) as Hlast. cbn [CombineOps_loop].
    destruct (Z.ltb_spec firstindex (last_index opVec)) as [Hlt | Hge].
    + destruct (nth_error_in_range opVec firstindex ltac:(lia)) as [a ->].
      destruct (nth_error_in_range opVec (firstindex + 1) ltac:(lia)) as [b ->].
      destruct (canCombineWith a b) eqn:Hab.
      * pose proof (length_insert_erase opVec (combineWith a b) firstindex
                      Hi ltac:(lia)) as Hlen.
        pose proof (Hshrink a b Hab) as Hone.
        cbv zeta.
        assert (Hmeasure :
                  2 * Z.of_nat (length (insert (erase opVec firstindex
                                                  (firstindex + 2))
                                          firstindex (combineWith a b))) -
                  Z.max 0 (firstindex - 1) < Z.of_nat fuel) by lia.
        destruct (IH _ (Z.max 0 (firstindex - 1)) (count + 1)
                     ltac:(lia) Hmeasure)
          as [opVec' [count' [Hrun Hacc]]].
        exists opVec', count'. split; [exact Hrun | lia].
      * destruct (IH opVec (firstindex + 1) count ltac:(lia) ltac:(lia))
          as [opVec' [count' [Hrun Hacc]]].
        exists opVec', count'. split; [exact Hrun | lia].
    + exists opVec, count. split; [reflexivity | lia].
Qed.

End CombineTermination.

(** When [combineWith] never returns more than one op, [CombineOps]
    returns within [2 * size + 1] iterations, never indexes outside the
    vector, and the vector loses at least one op per counted combination. *)
Theorem CombineOps_terminates {Op : Type} `{OpInterface Op}
    (fuel : nat) (opVec : list Op) :
  (forall a b : Op, canCombineWith a b = true ->
                    (length (combineWith a b) <= 1)%nat) ->
  (2 * length opVec + 1 <= fuel)%nat ->
  exists opVec' count,
    Optimizer.CombineOps fuel opVec = Ok (opVec', count) /\
    0 <= count /\
    Z.of_nat (length opVec') + count <= Z.of_nat (length opVec).
Proof.
  intros Hshrink Hfuel.
  destruct (CombineOps_loop_terminates fuel Hshrink opVec 0 0
              ltac:(lia) ltac:(lia)) as [opVec' [count [Hrun Hacc]]].
  exists opVec', count. split; [exact Hrun |].
  pose proof (CombineOps_loop_count _ _ _ _ _ _ Hrun) as [Hle _].
  split; lia.
Qed.

Lemma TestOps_combineWith_shrinks (a b : TestOps.Op) :
  canCombineWith a b = true -> (length (combineWith a b) <= 1)%nat.
Proof.
  assert (Hexp : forall k, (length (TestOps.exponent_op k) <= 1)%nat).
  { intros k. unfold TestOps.exponent_op.
    destruct (k =? 0); [simpl; lia |].
    destruct (k =? 1); [simpl; lia |].
    destruct (k =? -1); simpl; lia. }
  destruct a as [[| |] | | | | | | | |], b as [[| |] | | | | | | | |];
    cbn -[TestOps.exponent_op]; try discriminate; intros _; try apply Hexp;
    repeat match goal with
           | |- context [if ?c then _ else _] => destruct c
           end; simpl; lia.
Qed.

(** Five equal scales, as in the unit test [OpOptimizers, CombineOps]. *)
Lemma CombineOps_terminates_witness :
  exists opVec' count,
    Optimizer.CombineOps 11
      [TestOps.ScaleOp 1; TestOps.ScaleOp 1; TestOps.ScaleOp 1;
       TestOps.ScaleOp 1; TestOps.ScaleOp 1] = Ok (opVec', count) /\
    0 <= count /\
    Z.of_nat (length opVec') + count <=
    Z.of_nat (length [TestOps.ScaleOp 1; TestOps.ScaleOp 1; TestOps.ScaleOp 1;
                      TestOps.ScaleOp 1; TestOps.ScaleOp 1]).
Proof.
  apply (CombineOps_terminates 11
           [TestOps.ScaleOp 1; TestOps.ScaleOp 1; TestOps.ScaleOp 1;
            TestOps.ScaleOp 1; TestOps.ScaleOp 1]).
  - exact TestOps_combineWith_shrinks.
  - simpl. lia.
Defined.

(** The last case of the unit test [OpOptimizers, CombineOps]: the two
    scales combine into nothing, then the exponent op and its inverse do. *)
Lemma CombineOps_exponent_around_scales :
  Optimizer.CombineOps 9
    [TestOps.ExponentOp TRANSFORM_DIR_FORWARD; TestOps.ScaleOp 1;
     TestOps.ScaleOp (-1); TestOps.ExponentOp TRANSFORM_DIR_INVERSE] =
  Ok ([], 2).
Proof. vm_compute. reflexivity. Qed.

(* ================================================================== *)
(** * Nests of any depth collapse in one sweep *)
(* ================================================================== *)

Section NestedPairs.
Context {Op : Type} `{OpInterface Op}.
Import Optimizer.

Lemma length_nested (pairs : list (Op * Op)) :
  length (nested pairs) = (2 * length pairs)%nat.
Proof.
  unfold nested. rewrite length_app, length_rev, !length_map. lia.
Qed.

Lemma nested_snoc (pairs : list (Op * Op)) (a a' : Op) :
  nested (pairs ++ [(a, a')]) = map fst pairs ++ a :: a' :: rev (map snd pairs).
Proof.
  unfold nested. rewrite !map_app, rev_app_distr. simpl.
  rewrite <- app_assoc. reflexivity.
Qed.

(** From the innermost pair outwards: each erasure steps the cursor back
    onto the next pair. *)
Lemma collapse_from_center (pairs : list (Op * Op)) :
  forall (fuel : nat) (count : Z),
  (length pairs <= fuel)%nat ->
  Forall (fun p => inverse_pair (fst p) (snd p) = true) pairs ->
  fits_int (nested pairs) ->
  RemoveInverseOps_loop fuel (nested pairs)
    (Z.max 0 (Z.of_nat (length pairs) - 1)) count =
  Ok ([], count + Z.of_nat (length pairs)).
Proof.
  induction pairs as [| [a a'] pairs IH] using rev_ind;
    intros fuel count Hfuel Hpairs Hfit.
  - rewrite RemoveInverseOps_loop_done by reflexivity.
    cbn [length Z.of_nat]. rewrite Z.add_0_r. reflexivity.
  - rewrite length_app in *. cbn [length] in *.
    destruct fuel as [| fuel]; [lia |].
    apply Forall_app in Hpairs. destruct Hpairs as [Hpairs Hlast].
    apply Forall_inv in Hlast. cbn [fst snd] in Hlast.
    rewrite nested_snoc in *.
    rewrite (RemoveInverseOps_loop_erase fuel _ (map fst pairs)
               (rev (map snd pairs)) a a' _ count eq_refl);
      [ | rewrite length_map; lia | exact Hfit | exact Hlast ].
    replace (Z.max 0 (Z.of_nat (length pairs + 1) - 1) - 1)
      with (Z.of_nat (length pairs) - 1) by lia.
    change (map fst pairs ++ rev (map snd pairs)) with (nested pairs).
    rewrite IH; [f_equal; f_equal; lia | lia | exact Hpairs |].
    unfold fits_int in *. rewrite length_nested.
    rewrite length_app, length_map in Hfit. cbn [length] in Hfit.
    rewrite length_rev, length_map in Hfit. lia.
Qed.

Lemma split_at_two (l : list Op) :
  forall j : nat, (j + 1 < length l)%nat ->
  exists a b, l = firstn j l ++ a :: b :: skipn (j + 2) l.
Proof.
  induction l as [| x l IH]; intros j Hj; cbn [length] in Hj; [lia |].
  destruct j as [| j].
  - destruct l as [| y l]; cbn [length] in Hj; [lia |].
    exists x, y. reflexivity.
  - destruct (IH j ltac:(lia)) as [a [b Hl]].
    exists a, b. cbn [firstn skipn Nat.add app]. f_equal. exact Hl.
Qed.

(** Towards the innermost pair: no pair is found on the way. *)
Lemma skip_to_center (d : nat) :
  forall (fuel : nat) (prefix rest : list Op) (k : nat) (count : Z),
  fits_int (prefix ++ rest) ->
  rest <> [] ->
  (k + d + 1 = length prefix)%nat ->
  (forall pre a b suf, prefix = pre ++ a :: b :: suf ->
                       inverse_pair a b = false) ->
  RemoveInverseOps_loop (d + fuel) (prefix ++ rest) (Z.of_nat k) count =
  RemoveInverseOps_loop fuel (prefix ++ rest) (Z.of_nat (k + d)) count.
Proof.
  induction d as [| d IH]; intros fuel prefix rest k count Hfit Hrest Hk Hchain.
  - rewrite Nat.add_0_r. reflexivity.
  - destruct (split_at_two prefix k ltac:(lia)) as [a [b Hsplit]].
    cbn [Nat.add].
    rewrite (RemoveInverseOps_loop_skip (d + fuel) (prefix ++ rest)
               (firstn k prefix) (skipn (k + 2) prefix ++ rest) a b
               (Z.of_nat k) count);
      [ | rewrite Hsplit at 1; rewrite <- app_assoc; reflexivity
        | rewrite length_firstn; lia
        | exact Hfit
        | exact (Hchain _ _ _ _ Hsplit) ].
    replace (Z.of_nat k + 1) with (Z.of_nat (S k)) by lia.
    rewrite (IH fuel prefix rest (S k) count Hfit Hrest ltac:(lia) Hchain).
    f_equal. lia.
Qed.

End NestedPairs.

(** The nest [A1, ..., An, An', ..., A1'] of [n] inverse pairs, in which no
    two neighbours [Ak, Ak+1] on the way in are themselves an inverse pair,
    is erased completely by one call of [RemoveInverseOps], which counts
    [n] pairs: the cursor walks to [An] and then steps back by one after
    each erasure. *)
Theorem RemoveInverseOps_collapses_any_depth {Op : Type} `{OpInterface Op}
    (pairs : list (Op * Op)) :
  Forall (fun p => Optimizer.inverse_pair (fst p) (snd p) = true) pairs ->
  (forall pre a b suf, map fst pairs = pre ++ a :: b :: suf ->
                       Optimizer.inverse_pair a b = false) ->
  Optimizer.fits_int (Optimizer.nested pairs) ->
  Optimizer.RemoveInverseOps (Optimizer.nested pairs) =
  Ok ([], Z.of_nat (length pairs)).
Proof.
  intros Hpairs Hchain Hfit. unfold Optimizer.RemoveInverseOps.
  rewrite length_nested.
  destruct pairs as [| p pairs]; [reflexivity |].
  set (all := p :: pairs) in *.
  assert (Hlen : length all = S (length pairs)) by reflexivity.
  replace (2 * (2 * length all) + 1)%nat
    with (length pairs + (3 * length all + 2))%nat by lia.
  change 0 with (Z.of_nat 0) at 1.
  unfold Optimizer.nested at 1.
  rewrite (skip_to_center (length pairs) (3 * length all + 2)
             (map fst all) (rev (map snd all)) 0 0);
    [ | exact Hfit
      | intros Hnil; apply (f_equal (@length Op)) in Hnil;
        rewrite length_rev, length_map in Hnil; simpl in Hnil; lia
      | rewrite length_map; lia
      | exact Hchain ].
  change (map fst all ++ rev (map snd all)) with (Optimizer.nested all).
  replace (Z.of_nat (0 + length pairs))
    with (Z.max 0 (Z.of_nat (length all) - 1)) by lia.
  rewrite collapse_from_center; [f_equal | lia | exact Hpairs | exact Hfit].
Qed.

(** Three layers: exponent, log, exponent and their inverses. *)
Lemma RemoveInverseOps_collapses_any_depth_witness :
  Optimizer.RemoveInverseOps
    (Optimizer.nested
       [(TestOps.ExponentOp TRANSFORM_DIR_FORWARD,
         TestOps.ExponentOp TRANSFORM_DIR_INVERSE);
        (TestOps.LogOp TRANSFORM_DIR_FORWARD,
         TestOps.LogOp TRANSFORM_DIR_INVERSE);
        (TestOps.ExponentOp TRANSFORM_DIR_FORWARD,
         TestOps.ExponentOp TRANSFORM_DIR_INVERSE)]) =
  Ok ([], Z.of_nat 3).
Proof.
  apply (RemoveInverseOps_collapses_any_depth
           [(TestOps.ExponentOp TRANSFORM_DIR_FORWARD,
             TestOps.ExponentOp TRANSFORM_DIR_INVERSE);
            (TestOps.LogOp TRANSFORM_DIR_FORWARD,
             TestOps.LogOp TRANSFORM_DIR_INVERSE);
            (TestOps.ExponentOp TRANSFORM_DIR_FORWARD,
             TestOps.ExponentOp TRANSFORM_DIR_INVERSE)]).
  - repeat constructor.
  - intros pre a b suf Hsplit. cbn [map fst] in Hsplit.
    destruct pre as [| x [| y [| z pre]]]; cbn [app] in Hsplit;
      inversion Hsplit; subst; try reflexivity.
    destruct pre; discriminate.
  - unfold Optimizer.fits_int. simpl. lia.
Defined.

(* ================================================================== *)
(** * More on the separable prefix and on the pass counter *)
(* ================================================================== *)

Section PrefixResults.
Context {Op : Type} `{OpInterface Op}.
Import Optimizer.

Lemma separable_run_le (ops : list Op) : (separable_run ops <= length ops)%nat.
Proof.
  induction ops as [| op rest IH]; simpl; [lia |].
  destruct (hasChannelCrosstalk op || isDynamic op); simpl; lia.
Qed.

Lemma separable_run_separable (ops : list Op) :
  Forall (fun op => hasChannelCrosstalk op = false /\ isDynamic op = false)
         (firstn (separable_run ops) ops).
Proof.
  induction ops as [| op rest IH]; simpl; [constructor |].
  destruct (hasChannelCrosstalk op || isDynamic op) eqn:Hbreak; simpl.
  - constructor.
  - apply orb_false_elim in Hbreak. constructor; assumption.
Qed.

Lemma separable_run_stops (ops : list Op) (op : Op) (rest : list Op) :
  skipn (separable_run ops) ops = op :: rest ->
  hasChannelCrosstalk op || isDynamic op = true.
Proof.
  intros Hskip. pose proof (separable_run_maximal ops) as Hmax.
  rewrite Hskip in Hmax. simpl in Hmax.
  destruct (hasChannelCrosstalk op || isDynamic op); [reflexivity | discriminate].
Qed.

(** The second loop counts the ops that are neither matrix nor range. *)
Lemma count_expensive_counted (run : list Op) :
  forall expensiveOps total : nat,
  count_expensive run expensiveOps = Ok total ->
  total <> expensiveOps ->
  Exists (fun op => is_inexpensive (getType op) = false) run.
Proof.
  induction run as [| op rest IH]; intros expensiveOps total Hrun Hne; simpl in Hrun.
  - injection Hrun as <-. contradiction.
  - destruct (hasChannelCrosstalk op); [discriminate Hrun |].
    destruct (is_inexpensive (getType op)) eqn:Hcheap.
    + apply Exists_cons_tl. apply (IH expensiveOps total); [| exact Hne].
      destruct (getType op); try discriminate Hcheap; exact Hrun.
    + apply Exists_cons_hd. exact Hcheap.
Qed.

End PrefixResults.

(** [FindSeparablePrefix] always returns a length (the exception
    "Non-separable op." cannot be raised).  A result other than zero is the
    length of the maximal leading run of ops that have no channel crosstalk
    and are not dynamic: the op after the run, if any, has crosstalk or is
    dynamic, and the run holds at least one op that is neither a matrix nor a
    range. *)
Theorem FindSeparablePrefix_finds_worthwhile_run {Op : Type} `{OpInterface Op}
    (ops : list Op) :
  exists prefixLen,
    Optimizer.FindSeparablePrefix ops = Ok prefixLen /\
    (prefixLen <= length ops)%nat /\
    (prefixLen <> O ->
     prefixLen = Optimizer.separable_run ops /\
     Forall (fun op => hasChannelCrosstalk op = false /\ isDynamic op = false)
       (firstn prefixLen ops) /\
     Exists (fun op => Optimizer.is_inexpensive (getType op) = false)
       (firstn prefixLen ops) /\
     (forall op rest, skipn prefixLen ops = op :: rest ->
                      hasChannelCrosstalk op || isDynamic op = true)).
Proof.
  unfold Optimizer.FindSeparablePrefix.
  match goal with |- context [if ?c then _ else _] => destruct c end.
  - exists O. split; [reflexivity |]. split; [lia | intros Hne; contradiction].
  - destruct (count_expensive_returns _ (separable_run_no_crosstalk ops) O)
      as [total Hcount].
    rewrite Hcount. cbn [bind].
    destruct (Nat.eqb_spec total 0) as [Hzero | Hpos].
    + exists O. split; [reflexivity |]. split; [lia | intros Hne; contradiction].
    + exists (Optimizer.separable_run ops). split; [reflexivity |].
      split; [apply separable_run_le |]. intros _.
      split; [reflexivity |].
      split; [apply separable_run_separable |].
      split; [exact (count_expensive_counted _ _ _ Hcount Hpos) |].
      intros op rest. apply separable_run_stops.
Qed.

(** [OptimizeSeparablePrefix] never raises.  It returns the ops as they are
    when the depth is 32-bit float or 32-bit unsigned integer; otherwise it
    either returns them as they are or replaces exactly the maximal separable
    run by what [CreateLut1DOp] makes of the lookup domain composed with
    clones of the run, and keeps the ops after the run in their order. *)
Theorem OptimizeSeparablePrefix_replaces_the_run
    {Op : Type} `{OpInterface Op} `{Lut1DInterface Op}
    (ops : list Op) (inDepth : BitDepth) (oFlags : Z) :
  exists ops',
    Optimizer.OptimizeSeparablePrefix ops inDepth oFlags = Ok ops' /\
    (Optimizer.is_F32_or_UINT32 inDepth = true -> ops' = ops) /\
    (ops' = ops \/
     ops' =
       CreateLut1DOp
         (ComposeVec (MakeLookupDomain inDepth)
            (map clone (firstn (Optimizer.separable_run ops) ops)))
         TRANSFORM_DIR_FORWARD ++
       skipn (Optimizer.separable_run ops) ops).
Proof.
  unfold Optimizer.OptimizeSeparablePrefix.
  destruct ops as [| op0 ops0] eqn:Eops.
  - exists []. split; [reflexivity |]. split; [reflexivity | left; reflexivity].
  - rewrite <- Eops. clear Eops op0 ops0.
    destruct (Optimizer.is_F32_or_UINT32 inDepth).
    + exists ops. split; [reflexivity |]. split; [reflexivity | left; reflexivity].
    + destruct (FindSeparablePrefix_returns ops) as [-> | [-> Hpos]]; cbn [bind].
      * exists ops. split; [reflexivity |].
        split; [discriminate | left; reflexivity].
      * destruct (Nat.eqb_spec (Optimizer.separable_run ops) 0) as [Hz | _];
          [contradiction |].
        eexists. split; [reflexivity |].
        split; [discriminate | right; reflexivity].
Qed.

(** A second call of [OptimizeSeparablePrefix] changes nothing, when the op
    that [CreateLut1DOp] makes is a plain forward 1D LUT: the baked LUT is a
    run of length one that [FindSeparablePrefix] reports as zero ("this also
    avoids an infinite loop"). *)
Theorem OptimizeSeparablePrefix_idempotent
    {Op : Type} `{OpInterface Op} `{Lut1DInterface Op}
    (ops ops' : list Op) (inDepth : BitDepth) (oFlags : Z) :
  Optimizer.creates_plain_lut ->
  Optimizer.OptimizeSeparablePrefix ops inDepth oFlags = Ok ops' ->
  Optimizer.OptimizeSeparablePrefix ops' inDepth oFlags = Ok ops'.
Proof. apply OptimizeSeparablePrefix_twice. Qed.

(** The prefix of the unit test [OptimizeSeparablePrefix, multi_op_prefix],
    in front of an op with crosstalk. *)
Lemma OptimizeSeparablePrefix_idempotent_witness :
  Optimizer.OptimizeSeparablePrefix
    [TestOps.Lut1DOp TRANSFORM_DIR_FORWARD 256; TestOps.SatOp]
    BIT_DEPTH_UINT8 8 =
  Ok [TestOps.Lut1DOp TRANSFORM_DIR_FORWARD 256; TestOps.SatOp].
Proof.
  apply (OptimizeSeparablePrefix_idempotent
           [TestOps.ScaleOp 1; TestOps.GammaOp; TestOps.SatOp]
           [TestOps.Lut1DOp TRANSFORM_DIR_FORWARD 256; TestOps.SatOp]
           BIT_DEPTH_UINT8 8).
  - exact TestOps_creates_plain_lut.
  - vm_compute. reflexivity.
Defined.

(** Whatever the ops, when [OptimizeOpVec] returns its counter [passes] is
    between 0 and 9, and the "max number of passes" message has been logged
    exactly when the counter is 8. *)
Theorem OptimizeOpVec_counts_at_most_nine_passes
    {Op : Type} `{OpInterface Op} `{Lut1DInterface Op}
    `{Optimizer.OptimizerEnv Op}
    (fuel : nat) (ops : list Op) (inBitDepth : BitDepth) (oFlags : Z)
    (r : Optimizer.Optimized Op) :
  Optimizer.OptimizeOpVec fuel ops inBitDepth oFlags = Ok r ->
  0 <= Optimizer.opt_passes r <= 9 /\
  (In (Optimizer.max_passes_message (Optimizer.opt_passes r))
      (Optimizer.opt_log r) <->
   Optimizer.opt_passes r = 8).
Proof.
  intros Hrun. apply OptimizeOpVec_passes_bound in Hrun. exact Hrun.
Qed.

(** Four layers of the nest: five passes with progress, no message. *)
Lemma OptimizeOpVec_counts_at_most_nine_passes_witness :
  0 <= 5 <= 9 /\
  (In (Optimizer.max_passes_message 5) (@nil (list piece)) <-> 5 = 8).
Proof.
  apply (OptimizeOpVec_counts_at_most_nine_passes 100 (TestOps.nest 4 [])
           BIT_DEPTH_F32 0 (Optimizer.mkOptimized [] 5 [])).
  vm_compute. reflexivity.
Defined.

(* ================================================================== *)
(** * More on the CDL and FixedFunction data *)
(* ================================================================== *)

Lemma isnan_eq (x : Double.t) : Double.isnan x = true -> x = Double.nan.
Proof. destruct x; try discriminate; reflexivity. Qed.

Lemma SFltb_asym (x y : spec_float) : SFltb x y = true -> SFltb y x = false.
Proof.
  unfold SFltb. rewrite (SFcompare_antisym x y).
  destruct (SFcompare x y) as [[ | | ] |]; simpl; congruence.
Qed.

Lemma SFltb_irrefl (x : spec_float) : SFltb x x = false.
Proof.
  destruct (SFltb x x) eqn:Hlt; [| reflexivity].
  pose proof (SFltb_asym x x Hlt). congruence.
Qed.

(** [CDLOpData::validate()] examines slope, power and saturation and nothing
    else: it returns exactly when slope >= 0, power > 0 and saturation >= 0
    on every channel, every exception it raises says "should be greater
    than", a NaN in any of the seven values is rejected (the tests are
    written as [!(value >= threshold)]), and the offsets are never looked
    at. *)
Theorem CDL_validate_checks_slope_power_saturation
    {Base : Type} `{OpDataInterface Base} (d : CDL.CDLOpData Base) :
  base_validates ->
  (CDL.validate d = Ok tt <->
   CDL.in_domain (CDL.m_slopeParams d) (CDL.m_powerParams d)
     (CDL.m_saturation d) = true) /\
  (CDL.validate d <> Ok tt ->
   throws_with (CDL.validate d) " should be greater than ") /\
  (existsb Double.isnan
     [CDL.red (CDL.m_slopeParams d); CDL.green (CDL.m_slopeParams d);
      CDL.blue (CDL.m_slopeParams d); CDL.red (CDL.m_powerParams d);
      CDL.green (CDL.m_powerParams d); CDL.blue (CDL.m_powerParams d);
      CDL.m_saturation d] = true ->
   throws (CDL.validate d)) /\
  (forall offsetParams : CDL.ChannelParams,
     CDL.validate
       (CDL.mkCDLOpData (CDL.base d) (CDL.m_style d) (CDL.m_slopeParams d)
          offsetParams (CDL.m_powerParams d) (CDL.m_saturation d)) =
     CDL.validate d).
Proof.
  intros Hbase.
  assert (Hval : CDL.validate d =
                 CDL.validateParams (CDL.m_slopeParams d) (CDL.m_powerParams d)
                   (CDL.m_saturation d)).
  { unfold CDL.validate. rewrite Hbase. reflexivity. }
  destruct (validateParams_spec (CDL.m_slopeParams d)
              (CDL.m_powerParams d) (CDL.m_saturation d))
    as [[Hin Hok] | [Hout Hthrow]].
  - split; [| split; [| split]].
    + rewrite Hval, Hok, Hin. tauto.
    + rewrite Hval, Hok. intros Hne. contradiction Hne. reflexivity.
    + intros Hnan. exfalso. unfold CDL.in_domain in Hin.
      repeat (apply andb_prop in Hin; destruct Hin as [Hin ?]).
      destruct (compare_nan_l Double.zero) as [_ [Hgt [_ Hge]]].
      cbn [existsb] in Hnan.
      repeat (apply orb_prop in Hnan; destruct Hnan as [Hnan | Hnan]);
        try discriminate Hnan;
        apply isnan_eq in Hnan; rewrite Hnan in *; congruence.
    + intros offsetParams. reflexivity.
  - split; [| split; [| split]].
    + rewrite Hval, Hout. destruct Hthrow as [e [He _]]. rewrite He.
      split; discriminate.
    + intros _. rewrite Hval. exact Hthrow.
    + intros _. rewrite Hval. destruct Hthrow as [e [He _]]. exists e. exact He.
    + intros offsetParams. reflexivity.
Qed.

(** The default-constructed CDL: slope 1, offset 0, power 1, saturation 1. *)
Lemma CDL_validate_checks_slope_power_saturation_witness :
  let d := CDL.CDLOpData_default (Base := unit) in
  (CDL.validate d = Ok tt <->
   CDL.in_domain (CDL.m_slopeParams d) (CDL.m_powerParams d)
     (CDL.m_saturation d) = true) /\
  (CDL.validate d <> Ok tt ->
   throws_with (CDL.validate d) " should be greater than ") /\
  (existsb Double.isnan
     [CDL.red (CDL.m_slopeParams d); CDL.green (CDL.m_slopeParams d);
      CDL.blue (CDL.m_slopeParams d); CDL.red (CDL.m_powerParams d);
      CDL.green (CDL.m_powerParams d); CDL.blue (CDL.m_powerParams d);
      CDL.m_saturation d] = true ->
   throws (CDL.validate d)) /\
  (forall offsetParams : CDL.ChannelParams,
     CDL.validate
       (CDL.mkCDLOpData (CDL.base d) (CDL.m_style d) (CDL.m_slopeParams d)
          offsetParams (CDL.m_powerParams d) (CDL.m_saturation d)) =
     CDL.validate d).
Proof.
  intros d.
  apply (CDL_validate_checks_slope_power_saturation d).
  intros b. reflexivity.
Defined.

(** [CDLOpData::inverse()] is an involution: the inverse of the inverse is
    the object itself.  One application flips [isReverse()], and keeps
    [isClamping()], the outcome of [validate()], [isNoOp()] and
    [hasChannelCrosstalk()]. *)
Theorem CDL_inverse_is_an_involution
    {Base : Type} `{OpDataInterface Base} (d : CDL.CDLOpData Base) :
  CDL.inverse (CDL.inverse d) = d /\
  CDL.isReverse (CDL.inverse d) = negb (CDL.isReverse d) /\
  CDL.isClamping (CDL.inverse d) = CDL.isClamping d /\
  CDL.validate (CDL.inverse d) = CDL.validate d /\
  CDL.isNoOp (CDL.inverse d) = CDL.isNoOp d /\
  CDL.hasChannelCrosstalk (CDL.inverse d) = CDL.hasChannelCrosstalk d.
Proof.
  destruct d as [b style slope offset power sat].
  destruct style; repeat split; reflexivity.
Qed.

(** [FixedFunctionOpData::validate()]: a style other than "Rec2100Surround"
    validates exactly without parameters; the surround style needs exactly
    one parameter, which is refused below 0.001 and above 100; for a
    parameter that is a number this is the interval [0.001, 100], and a NaN
    parameter passes both tests. *)
Theorem FixedFunction_validate_checks_count_and_bounds
    {Base : Type} `{OpDataInterface Base}
    (d : FixedFunction.FixedFunctionOpData Base) :
  base_validates ->
  (FixedFunction.m_style d <> FixedFunction.REC2100_SURROUND ->
   (FixedFunction.validate d = Ok tt <-> FixedFunction.m_params d = []) /\
   (FixedFunction.m_params d <> [] ->
    throws_with (FixedFunction.validate d)
      "' must have zero parameters but ")) /\
  (FixedFunction.m_style d = FixedFunction.REC2100_SURROUND ->
   (length (FixedFunction.m_params d) <> 1%nat ->
    throws_with (FixedFunction.validate d) "' must have one parameter but ") /\
   (forall p : Double.t,
      FixedFunction.m_params d = [p] ->
      (Double.lt p FixedFunction.low_bound = true ->
       throws_with (FixedFunction.validate d) " is less than lower bound ") /\
      (Double.gt p FixedFunction.hi_bound = true ->
       throws_with (FixedFunction.validate d)
         " is greater than upper bound ") /\
      (Double.isnan p = false ->
       (FixedFunction.validate d = Ok tt <->
        FixedFunction.in_range p = true)) /\
      (Double.isnan p = true -> FixedFunction.validate d = Ok tt))).
Proof.
  intros Hbase. split.
  - intros Hstyle. split; [apply validate_other_styles; assumption |].
    intros Hparams. unfold FixedFunction.validate. rewrite Hbase. cbn [bind].
    destruct (FixedFunction.m_style d); try contradiction;
      cbn [FixedFunction.is_surround];
      (destruct (FixedFunction.m_params d); [contradiction |]);
      eexists; (split; [reflexivity | simpl; tauto]).
  - intros Hstyle. split.
    + intros Hlen. unfold FixedFunction.validate.
      rewrite Hbase, Hstyle. cbn [bind FixedFunction.is_surround].
      destruct (FixedFunction.m_params d) as [| p [| q rest]];
        try (simpl in Hlen; contradiction Hlen; reflexivity);
        eexists; (split; [reflexivity | simpl; tauto]).
    + intros p Hparams.
      destruct d as [b style params]. simpl in Hstyle, Hparams. subst.
      split; [apply validate_surround_below; assumption |].
      split; [apply validate_surround_above; assumption |].
      split.
      * intros Hnum.
        rewrite (validate_surround
                   (FixedFunction.mkFixedFunctionOpData b
                      FixedFunction.REC2100_SURROUND [p]) Hbase eq_refl).
        rewrite <- (in_range_comparisons p Hnum). simpl. split.
        -- intros [p' [Hp Hcmp]]. injection Hp as <-. exact Hcmp.
        -- intros Hcmp. exists p. split; [reflexivity | exact Hcmp].
      * intros Hnan. apply isnan_eq in Hnan. subst p.
        apply (validate_surround
                 (FixedFunction.mkFixedFunctionOpData b
                    FixedFunction.REC2100_SURROUND [Double.nan]) Hbase eq_refl).
        exists Double.nan. simpl. split; [reflexivity |].
        split; vm_compute; reflexivity.
Qed.

(** The surround op of the unit test [rec2100_surround_style], parameter 2. *)
Lemma FixedFunction_validate_checks_count_and_bounds_witness :
  let d := FixedFunction.mkFixedFunctionOpData tt
             FixedFunction.REC2100_SURROUND [Double.of_Z 2] in
  (FixedFunction.m_style d <> FixedFunction.REC2100_SURROUND ->
   (FixedFunction.validate d = Ok tt <-> FixedFunction.m_params d = []) /\
   (FixedFunction.m_params d <> [] ->
    throws_with (FixedFunction.validate d)
      "' must have zero parameters but ")) /\
  (FixedFunction.m_style d = FixedFunction.REC2100_SURROUND ->
   (length (FixedFunction.m_params d) <> 1%nat ->
    throws_with (FixedFunction.validate d) "' must have one parameter but ") /\
   (forall p : Double.t,
      FixedFunction.m_params d = [p] ->
      (Double.lt p FixedFunction.low_bound = true ->
       throws_with (FixedFunction.validate d) " is less than lower bound ") /\
      (Double.gt p FixedFunction.hi_bound = true ->
       throws_with (FixedFunction.validate d)
         " is greater than upper bound ") /\
      (Double.isnan p = false ->
       (FixedFunction.validate d = Ok tt <->
        FixedFunction.in_range p = true)) /\
      (Double.isnan p = true -> FixedFunction.validate d = Ok tt))).
Proof.
  intros d.
  apply (FixedFunction_validate_checks_count_and_bounds d).
  intros b. reflexivity.
Defined.

(** For a validated op of an ACES style, [inverse()] returns an op of the
    opposite style without parameters, whose base sub-object is a fresh one
    ([clone()] goes through the constructor), and the inverse of that op has
    the first style again. *)
Theorem FixedFunction_inverse_round_trip_on_ACES_styles
    {Base : Type} `{OpDataInterface Base}
    (d : FixedFunction.FixedFunctionOpData Base) :
  base_validates ->
  FixedFunction.validate d = Ok tt ->
  FixedFunction.m_style d <> FixedFunction.REC2100_SURROUND ->
  exists r,
    FixedFunction.inverse d = Ok r /\
    FixedFunction.opposite_style (FixedFunction.m_style d)
      (FixedFunction.m_style r) = true /\
    FixedFunction.m_params r = [] /\
    FixedFunction.base r = OpData_default /\
    FixedFunction.inverse r =
      Ok (FixedFunction.mkFixedFunctionOpData OpData_default
            (FixedFunction.m_style d) []).
Proof.
  intros Hbase Hvalid Hstyle.
  pose proof (proj1 (validate_other_styles d Hbase Hstyle) Hvalid) as Hparams.
  unfold FixedFunction.inverse, FixedFunction.clone,
    FixedFunction.FixedFunctionOpData_new, FixedFunction.validate.
  rewrite Hparams.
  cbn [FixedFunction.m_style FixedFunction.m_params FixedFunction.base].
  rewrite !Hbase.
  destruct (FixedFunction.m_style d); try contradiction;
    cbn; rewrite ?Hbase; eexists;
    repeat split; cbn; rewrite ?Hbase; reflexivity.
Qed.

(** The op of the unit test [aces_red_mod_style]. *)
Lemma FixedFunction_inverse_round_trip_on_ACES_styles_witness :
  exists r,
    FixedFunction.inverse
      (FixedFunction.mkFixedFunctionOpData tt
         FixedFunction.ACES_RED_MOD_03_FWD []) = Ok r /\
    FixedFunction.opposite_style FixedFunction.ACES_RED_MOD_03_FWD
      (FixedFunction.m_style r) = true /\
    FixedFunction.m_params r = [] /\
    FixedFunction.base r = tt /\
    FixedFunction.inverse r =
      Ok (FixedFunction.mkFixedFunctionOpData tt
            FixedFunction.ACES_RED_MOD_03_FWD []).
Proof.
  refine (FixedFunction_inverse_round_trip_on_ACES_styles
            (FixedFunction.mkFixedFunctionOpData tt
               FixedFunction.ACES_RED_MOD_03_FWD []) _ _ _).
  - intros b. reflexivity.
  - reflexivity.
  - discriminate.
Defined.

(** The inverse of a validated "Rec2100Surround" op keeps the style and
    holds the reciprocal of the parameter, unchecked.  When the reciprocal
    is above 100 (a parameter below 0.01), the op that [inverse()] returns
    does not validate, and its own [inverse()] raises. *)
Theorem FixedFunction_surround_inverse_can_leave_the_range
    {Base : Type} `{OpDataInterface Base}
    (d : FixedFunction.FixedFunctionOpData Base) (p : Double.t) :
  base_validates ->
  FixedFunction.validate d = Ok tt ->
  FixedFunction.m_style d = FixedFunction.REC2100_SURROUND ->
  FixedFunction.m_params d = [p] ->
  Double.gt (Double.div Double.one p) FixedFunction.hi_bound = true ->
  exists r,
    FixedFunction.inverse d = Ok r /\
    FixedFunction.m_style r = FixedFunction.REC2100_SURROUND /\
    FixedFunction.m_params r = [Double.div Double.one p] /\
    throws_with (FixedFunction.validate r) " is greater than upper bound " /\
    throws (FixedFunction.inverse r).
Proof.
  intros Hbase Hvalid Hstyle Hparams Hhi.
  destruct (FixedFunction_inverse_surround d Hbase Hvalid Hstyle)
    as [p' [Hp' Hinv]].
  rewrite Hparams in Hp'. injection Hp' as <-.
  eexists. split; [exact Hinv |]. split; [reflexivity |].
  split; [reflexivity |].
  pose proof (validate_surround_above OpData_default _ Hbase Hhi) as Hthrow.
  split; [exact Hthrow |].
  destruct Hthrow as [e [He _]]. exists e.
  unfold FixedFunction.inverse, FixedFunction.clone,
    FixedFunction.FixedFunctionOpData_new.
  cbn [FixedFunction.m_style FixedFunction.m_params].
  rewrite He. reflexivity.
Qed.

(** The smallest parameter that validates, 0.001: its reciprocal is 1000. *)
Lemma FixedFunction_surround_inverse_can_leave_the_range_witness :
  exists r,
    FixedFunction.inverse
      (FixedFunction.mkFixedFunctionOpData tt FixedFunction.REC2100_SURROUND
         [Double.lit 1 1000]) = Ok r /\
    FixedFunction.m_style r = FixedFunction.REC2100_SURROUND /\
    FixedFunction.m_params r = [Double.div Double.one (Double.lit 1 1000)] /\
    throws_with (FixedFunction.validate r) " is greater than upper bound " /\
    throws (FixedFunction.inverse r).
Proof.
  apply (FixedFunction_surround_inverse_can_leave_the_range
           (FixedFunction.mkFixedFunctionOpData tt
              FixedFunction.REC2100_SURROUND [Double.lit 1 1000])
           (Double.lit 1 1000)).
  - intros b. reflexivity.
  - vm_compute. reflexivity.
  - reflexivity.
  - reflexivity.
  - vm_compute. reflexivity.
Defined.

(* ================================================================== *)
(** * More on the Range renderers and on the GPU processor *)
(* ================================================================== *)

Section RangeBounds.
Context `{MathUtils}.
Import Range.

(** [std::max(lo, x)] is never below [lo]. *)
Lemma std_max_not_below (lo x : Single.t) :
  Single.lt (Single.std_max lo x) lo = false.
Proof.
  unfold Single.std_max, Single.lt.
  destruct (SFltb lo x) eqn:Hlt; [apply SFltb_asym; exact Hlt | apply SFltb_irrefl].
Qed.

(** [std::min(hi, x)] is never above [hi]. *)
Lemma std_min_not_above (hi x : Single.t) :
  Single.lt hi (Single.std_min hi x) = false.
Proof.
  unfold Single.std_min, Single.lt.
  destruct (SFltb x hi) eqn:Hlt; [apply SFltb_asym; exact Hlt | apply SFltb_irrefl].
Qed.

(** What a renderer writes to a colour channel lies on the right side of the
    bounds that the renderer has. *)
Lemma render_channel_bounds (k : Renderer) (r : RangeOpCPU) (x : Single.t) :
  (forall a lo hi : Single.t,
     Clamp a lo hi = Single.std_min (Single.std_max lo a) hi) ->
  Single.lt (m_upperBound r) (m_lowerBound r) = false ->
  (has_lower_bound k = true ->
   Single.lt (render_channel k r x) (m_lowerBound r) = false) /\
  (has_lower_bound k = false -> k <> RangeScaleRenderer ->
   Single.lt (m_upperBound r) (render_channel k r x) = false) /\
  (has_both_bounds k = true ->
   Single.lt (m_upperBound r) (render_channel k r x) = false).
Proof.
  intros Hclamp Hordered.
  assert (Hboth : forall a : Single.t,
            Single.lt (Single.std_min (Single.std_max (m_lowerBound r) a)
                         (m_upperBound r)) (m_lowerBound r) = false /\
            Single.lt (m_upperBound r)
              (Single.std_min (Single.std_max (m_lowerBound r) a)
                 (m_upperBound r)) = false).
  { intros a.
    pose proof (std_max_not_below (m_lowerBound r) a) as Hmax.
    remember (Single.std_max (m_lowerBound r) a) as m eqn:Em. clear Em.
    unfold Single.std_min.
    destruct (Single.lt (m_upperBound r) m) eqn:Hlt.
    - split; [exact Hordered | apply SFltb_irrefl].
    - split; [exact Hmax | exact Hlt]. }
  destruct k; cbn [render_channel has_lower_bound has_both_bounds];
    rewrite ?Hclamp; repeat split; intros; try discriminate;
    try contradiction;
    first [ apply Hboth | apply std_max_not_below | apply std_min_not_above
          | congruence ].
Qed.

End RangeBounds.

(** [GetRangeRenderer] raises "No processing as the Range is a NoOp" for a
    range that does not scale and has neither bound, and for no other.  For
    every other range the renderer it picks, applied to a buffer of
    [numPixels] RGBA pixels, writes as many values, copies alpha, and writes
    to R, G and B a value that is not below the lower bound when the range
    has one and not above the upper bound when the range has one.  [Clamp]
    is taken to be [std::min(std::max(lo, a), hi)] and the bounds to be in
    order. *)
Theorem Range_renderer_respects_the_bounds `{MathUtils}
    (scales minIsEmpty maxIsEmpty : bool) (r : Range.RangeOpCPU)
    (inImg : list Single.t) (numPixels : Z) :
  (forall a lo hi : Single.t,
     Clamp a lo hi = Single.std_min (Single.std_max lo a) hi) ->
  Single.lt (Range.m_upperBound r) (Range.m_lowerBound r) = false ->
  0 <= numPixels ->
  length inImg = (4 * Z.to_nat numPixels)%nat ->
  (scales = false /\ minIsEmpty = true /\ maxIsEmpty = true ->
   throws_with (Range.GetRangeRenderer scales minIsEmpty maxIsEmpty)
     "No processing as the Range is a NoOp") /\
  (~ returns (Range.GetRangeRenderer scales minIsEmpty maxIsEmpty) ->
   scales = false /\ minIsEmpty = true /\ maxIsEmpty = true) /\
  (scales = true \/ minIsEmpty = false \/ maxIsEmpty = false ->
   exists k out,
     Range.GetRangeRenderer scales minIsEmpty maxIsEmpty = Ok k /\
     Range.apply k r inImg numPixels = Ok out /\
     length out = length inImg /\
     forall i : nat, (i < Z.to_nat numPixels)%nat ->
       nth_error out (4 * i + 3) = nth_error inImg (4 * i + 3) /\
       forall c : nat, (c < 3)%nat ->
         exists y,
           nth_error out (4 * i + c) = Some y /\
           (minIsEmpty = false ->
            Single.lt y (Range.m_lowerBound r) = false) /\
           (maxIsEmpty = false ->
            Single.lt (Range.m_upperBound r) y = false)).
Proof.
  intros Hclamp Hordered Hn Hlen. split; [| split].
  - intros [-> [-> ->]]. eexists. split; [reflexivity | simpl; tauto].
  - intros Hnot. destruct scales, minIsEmpty, maxIsEmpty;
      try (exfalso; apply Hnot; eexists; reflexivity).
    repeat split.
  - intros Hsome.
    destruct (Range.GetRangeRenderer scales minIsEmpty maxIsEmpty)
      as [k | e | f] eqn:Hk.
    + destruct (apply_loop_pixels k r (Z.to_nat numPixels) inImg Hlen)
        as [out [Hrun [Hout Hpix]]].
      exists k, out. split; [reflexivity |]. split; [exact Hrun |].
      split; [lia |]. intros i Hi. split.
      * destruct (Hpix i 3%nat Hi ltac:(lia)) as [a [Hina Houta]].
        rewrite Hina, Houta. reflexivity.
      * intros c Hc. destruct (Hpix i c Hi ltac:(lia)) as [x [_ Houtx]].
        destruct (Nat.ltb_spec c 3) as [_ | Hge]; [| lia].
        exists (Range.render_channel k r x). split; [exact Houtx |].
        destruct (render_channel_bounds k r x Hclamp Hordered)
          as [Hlow [Hup Hboth]].
        unfold Range.GetRangeRenderer in Hk.
        destruct scales, minIsEmpty, maxIsEmpty; simpl in Hk;
          try discriminate Hk; injection Hk as <-;
          split; intros Hb; try discriminate Hb;
          first [ apply Hlow; reflexivity
                | apply Hboth; reflexivity
                | apply Hup; [reflexivity | discriminate] ].
    + exfalso. unfold Range.GetRangeRenderer in Hk.
      destruct scales, minIsEmpty, maxIsEmpty; simpl in Hk;
        try discriminate Hk.
      destruct Hsome as [Hs | [Hs | Hs]]; discriminate Hs.
    + exfalso. unfold Range.GetRangeRenderer in Hk.
      destruct scales, minIsEmpty, maxIsEmpty; discriminate Hk.
Qed.

(** The range of the unit test [RangeOpCPU, scale_with_low_and_high_clippings],
    from [0, 1] to [0.5, 1.5], on the pixels (-0.5, 0.25, 2, 0) and
    (NaN, 1.25, 1, 1). *)
Lemma Range_renderer_respects_the_bounds_witness :
  let r := Range.RangeOpCPU_new Double.one (Double.lit 1 2) (Double.lit 1 2)
             (Double.lit 3 2) in
  let inImg := [Single.lit (-1) 2; Single.lit 1 4; Single.of_Z 2; Single.zero;
                Single.nan; Single.lit 5 4; Single.of_Z 1; Single.of_Z 1] in
  (true = false /\ false = true /\ false = true ->
   throws_with (Range.GetRangeRenderer true false false)
     "No processing as the Range is a NoOp") /\
  (~ returns (Range.GetRangeRenderer true false false) ->
   true = false /\ false = true /\ false = true) /\
  (true = true \/ false = false \/ false = false ->
   exists k out,
     Range.GetRangeRenderer true false false = Ok k /\
     Range.apply k r inImg 2 = Ok out /\
     length out = length inImg /\
     forall i : nat, (i < Z.to_nat 2)%nat ->
       nth_error out (4 * i + 3) = nth_error inImg (4 * i + 3) /\
       forall c : nat, (c < 3)%nat ->
         exists y,
           nth_error out (4 * i + c) = Some y /\
           (false = false ->
            Single.lt y (Range.m_lowerBound r) = false) /\
           (false = false ->
            Single.lt (Range.m_upperBound r) y = false)).
Proof.
  intros r inImg.
  refine (Range_renderer_respects_the_bounds true false false r inImg 2
            _ _ _ _).
  - intros a lo hi. reflexivity.
  - vm_compute. reflexivity.
  - lia.
  - reflexivity.
Defined.

Section GpuLookup.
Context {Op : Type} `{GpuInterface Op}.

Lemma getDynamicProperty_skips (pre : list Op) (type : DynamicPropertyType) :
  Forall (fun op => hasDynamicProperty op type = false) pre ->
  forall rest : list Op,
  GPU.getDynamicProperty (pre ++ rest) type = GPU.getDynamicProperty rest type.
Proof.
  induction 1 as [| op pre Hop _ IH]; intros rest; [reflexivity |].
  simpl. rewrite Hop. apply IH.
Qed.

Lemma getDynamicProperty_returns_exists (m_ops : list Op)
    (type : DynamicPropertyType) :
  returns (GPU.getDynamicProperty m_ops type) ->
  Exists (fun op => hasDynamicProperty op type = true /\
                    returns (op_getDynamicProperty op type)) m_ops.
Proof.
  induction m_ops as [| op rest IH]; intros [v Hv]; simpl in Hv.
  - discriminate Hv.
  - destruct (hasDynamicProperty op type) eqn:Hop.
    + apply Exists_cons_hd. split; [exact Hop | exists v; exact Hv].
    + apply Exists_cons_tl. apply IH. exists v. exact Hv.
Qed.

End GpuLookup.

(** [GPUProcessor::Impl::getDynamicProperty] answers with the first op of
    [m_ops] that has the property, whatever comes after it, and passes on
    what that op's [getDynamicProperty] does.  When no op has the property
    it raises "Cannot find dynamic property; not used by GPU processor.";
    it never returns a value without an op that has the property. *)
Theorem getDynamicProperty_asks_the_first_op_that_has_it
    {Op : Type} `{GpuInterface Op}
    (m_ops : list Op) (type : DynamicPropertyType) :
  (forall pre op suf,
     m_ops = pre ++ op :: suf ->
     Forall (fun o => hasDynamicProperty o type = false) pre ->
     hasDynamicProperty op type = true ->
     GPU.getDynamicProperty m_ops type = op_getDynamicProperty op type) /\
  (Forall (fun o => hasDynamicProperty o type = false) m_ops ->
   throws_with (GPU.getDynamicProperty m_ops type)
     "Cannot find dynamic property; not used by GPU processor.") /\
  (returns (GPU.getDynamicProperty m_ops type) ->
   Exists (fun o => hasDynamicProperty o type = true /\
                    returns (op_getDynamicProperty o type)) m_ops).
Proof.
  split; [| split].
  - intros pre op suf -> Hpre Hop.
    rewrite (getDynamicProperty_skips pre type Hpre). simpl.
    rewrite Hop. reflexivity.
  - intros Hnone.
    rewrite <- (app_nil_r m_ops).
    rewrite (getDynamicProperty_skips m_ops type Hnone). simpl.
    eexists. split; [reflexivity | simpl; tauto].
  - apply getDynamicProperty_returns_exists.
Qed.

(** [Create3DLut] on a span that is not empty, for an edge length whose
    lattice fits the 32-bit counters: the op made holds the R, G and B values
    of the identity lattice rendered by the span's ops in order, without the
    alpha values, three values per lattice point. *)
Theorem Create3DLut_bakes_the_rendered_lattice
    {Op : Type} `{OpInterface Op} `{Lut1DInterface Op}
    `{Optimizer.OptimizerEnv Op} `{GpuInterface Op}
    (ops : list Op) (edgelen : Z) (identity rendered : list Single.t) :
  ops <> [] ->
  0 < edgelen * edgelen * edgelen ->
  4 * (edgelen * edgelen * edgelen) < 2 ^ 32 ->
  length (getArray (Lut3DOpData_new edgelen)) =
    Z.to_nat (3 * (edgelen * edgelen * edgelen)) ->
  GenerateIdentityLut3D
    (repeat Single.zero (Z.to_nat (4 * (edgelen * edgelen * edgelen))))
    edgelen 4 LUT3DORDER_FAST_BLUE = Ok identity ->
  GPU.apply_ops ops identity (edgelen * edgelen * edgelen) = Ok rendered ->
  length rendered = Z.to_nat (4 * (edgelen * edgelen * edgelen)) ->
  GPU.Create3DLut ops edgelen =
    Ok (CreateLut3DOp
          (setArray (Lut3DOpData_new edgelen) (GPU.rgb_of rendered))
          TRANSFORM_DIR_FORWARD) /\
  length (GPU.rgb_of rendered) = Z.to_nat (3 * (edgelen * edgelen * edgelen)).
Proof.
  intros Hne Hpos Hfit Harr Hgen Happly Hlen. split.
  - apply (Create3DLut_spec ops edgelen identity rendered); assumption.
  - rewrite (length_rgb_of rendered (Z.to_nat (edgelen * edgelen * edgelen)))
      by lia.
    lia.
Qed.

(** A lattice of edge length 2 through a saturation op. *)
Lemma Create3DLut_bakes_the_rendered_lattice_witness :
  exists lut : list Single.t,
    GPU.Create3DLut [TestOps.SatOp] 2 = Ok [TestOps.Lut3DOp lut] /\
    length lut = 24%nat.
Proof.
  eexists.
  refine (Create3DLut_bakes_the_rendered_lattice [TestOps.SatOp] 2 _ _
            _ _ _ _ _ _ _).
  - discriminate.
  - lia.
  - vm_compute. reflexivity.
  - reflexivity.
  - vm_compute. reflexivity.
  - vm_compute. reflexivity.
  - reflexivity.
Defined.

(* ================================================================== *)
(** * Style names *)
(* ================================================================== *)

Section StyleNames.
Context `{PlatformInterface}.

(** The test [0 == Strcasecmp(a, b)], decided on the folded strings. *)
Lemma Strcasecmp_zero (a b : string) :
  Strcasecmp_ignores_case ->
  (Strcasecmp a b =? 0) = String.eqb (case_fold a) (case_fold b).
Proof.
  intros Hcase. destruct (String.eqb_spec (case_fold a) (case_fold b)) as [Heq | Hne].
  - apply Z.eqb_eq. apply Hcase. exact Heq.
  - apply Z.eqb_neq. intros Hzero. apply Hne. apply Hcase. exact Hzero.
Qed.

(** Two names that differ in case only get the same answers. *)
Lemma Strcasecmp_same_fold (n n' b : string) :
  Strcasecmp_ignores_case ->
  case_fold n = case_fold n' ->
  (Strcasecmp n b =? 0) = (Strcasecmp n' b =? 0).
Proof.
  intros Hcase Hfold. rewrite !Strcasecmp_zero by exact Hcase.
  rewrite Hfold. reflexivity.
Qed.

Lemma case_fold_nonempty (n n' : string) :
  case_fold n = case_fold n' ->
  match n, n' with
  | EmptyString, EmptyString => True
  | String _ _, String _ _ => True
  | _, _ => False
  end.
Proof. destruct n, n'; simpl; intros Hfold; try exact I; discriminate Hfold. Qed.

End StyleNames.

(** [CDLOpData::GetStyle] reads back the name that [GetStyleName] writes
    for each of the four styles, and reads the four original CTF names too.
    Names that differ only in the case of letters get the same answer.  A
    null pointer, an empty name and any name that is none of the eight
    raise "Unknown style for CDL.". *)
Theorem CDL_GetStyle_reads_the_style_names `{PlatformInterface} :
  Strcasecmp_ignores_case ->
  (forall style : CDL.Style,
     CDL.GetStyle (Some (CDL.GetStyleName style)) = Ok style) /\
  (CDL.GetStyle (Some CDL.V1_2_FWD_NAME) = Ok CDL.CDL_V1_2_FWD /\
   CDL.GetStyle (Some CDL.V1_2_REV_NAME) = Ok CDL.CDL_V1_2_REV /\
   CDL.GetStyle (Some CDL.NO_CLAMP_FWD_NAME) = Ok CDL.CDL_NO_CLAMP_FWD /\
   CDL.GetStyle (Some CDL.NO_CLAMP_REV_NAME) = Ok CDL.CDL_NO_CLAMP_REV) /\
  (forall n n' : string,
     case_fold n = case_fold n' ->
     CDL.GetStyle (Some n) = CDL.GetStyle (Some n')) /\
  (forall name : option string,
     (forall n, name = Some n ->
        ~ In (case_fold n)
            (map case_fold
               [CDL.V1_2_FWD_NAME; CDL.V1_2_FWD_CLF_NAME; CDL.V1_2_REV_NAME;
                CDL.V1_2_REV_CLF_NAME; CDL.NO_CLAMP_FWD_NAME;
                CDL.NO_CLAMP_FWD_CLF_NAME; CDL.NO_CLAMP_REV_NAME;
                CDL.NO_CLAMP_REV_CLF_NAME])) ->
     throws_with (CDL.GetStyle name) "Unknown style for CDL.").
Proof.
  intros Hcase.
  assert (Hunknown : throws_with
            (Throw (A := CDL.Style) (mkException [Str "Unknown style for CDL."]))
            "Unknown style for CDL.").
  { eexists. split; [reflexivity | simpl; tauto]. }
  split; [| split; [| split]].
  - intros style. destruct style; unfold CDL.GetStyle; cbn [CDL.GetStyleName];
      rewrite !Strcasecmp_zero by exact Hcase; vm_compute; reflexivity.
  - repeat split; unfold CDL.GetStyle;
      rewrite !Strcasecmp_zero by exact Hcase; vm_compute; reflexivity.
  - intros n n' Hfold. pose proof (case_fold_nonempty n n' Hfold) as Hne.
    unfold CDL.GetStyle. destruct n, n'; try contradiction; try reflexivity.
    rewrite !Strcasecmp_zero by exact Hcase. rewrite Hfold. reflexivity.
  - intros name Hnone. unfold CDL.GetStyle.
    destruct name as [[| c rest] |]; try exact Hunknown.
    specialize (Hnone _ eq_refl).
    rewrite !Strcasecmp_zero by exact Hcase.
    cbn [map In] in Hnone.
    repeat match goal with
           | |- context [String.eqb ?a ?b] =>
               destruct (String.eqb_spec a b) as [Heq | _];
               [exfalso; apply Hnone; rewrite <- Heq; tauto |]
           end.
    exact Hunknown.
Qed.

Lemma AsciiPlatform_ignores_case : Strcasecmp_ignores_case.
Proof.
  intros a b. simpl.
  destruct (String.eqb_spec (case_fold a) (case_fold b)) as [Heq | Hne].
  - tauto.
  - split; [discriminate | intros Heq; contradiction].
Qed.

Lemma CDL_GetStyle_reads_the_style_names_witness :
  (forall style : CDL.Style,
     CDL.GetStyle (Some (CDL.GetStyleName style)) = Ok style) /\
  (CDL.GetStyle (Some CDL.V1_2_FWD_NAME) = Ok CDL.CDL_V1_2_FWD /\
   CDL.GetStyle (Some CDL.V1_2_REV_NAME) = Ok CDL.CDL_V1_2_REV /\
   CDL.GetStyle (Some CDL.NO_CLAMP_FWD_NAME) = Ok CDL.CDL_NO_CLAMP_FWD /\
   CDL.GetStyle (Some CDL.NO_CLAMP_REV_NAME) = Ok CDL.CDL_NO_CLAMP_REV) /\
  (forall n n' : string,
     case_fold n = case_fold n' ->
     CDL.GetStyle (Some n) = CDL.GetStyle (Some n')) /\
  (forall name : option string,
     (forall n, name = Some n ->
        ~ In (case_fold n)
            (map case_fold
               [CDL.V1_2_FWD_NAME; CDL.V1_2_FWD_CLF_NAME; CDL.V1_2_REV_NAME;
                CDL.V1_2_REV_CLF_NAME; CDL.NO_CLAMP_FWD_NAME;
                CDL.NO_CLAMP_FWD_CLF_NAME; CDL.NO_CLAMP_REV_NAME;
                CDL.NO_CLAMP_REV_CLF_NAME])) ->
     throws_with (CDL.GetStyle name) "Unknown style for CDL.").
Proof.
  apply (@CDL_GetStyle_reads_the_style_names AsciiPlatform).
  exact AsciiPlatform_ignores_case.
Defined.

(** [FixedFunctionOpData::GetStyle] reads back the name that
    [ConvertStyleToString(style, false)] writes for each of the eleven
    styles, and reads the old name "Surround" as the Rec2100Surround style.
    Names that differ only in the case of letters get the same style.  The
    detailed names, which are for error reports, are not read: each of them
    raises "Unknown FixedFunction style: ", as the empty name does. *)
Theorem FixedFunction_GetStyle_reads_the_style_names `{PlatformInterface} :
  Strcasecmp_ignores_case ->
  (forall style : FixedFunction.Style,
     FixedFunction.GetStyle (FixedFunction.ConvertStyleToString style false) =
     Ok style) /\
  FixedFunction.GetStyle FixedFunction.SURROUND =
    Ok FixedFunction.REC2100_SURROUND /\
  (forall (n n' : string) (style : FixedFunction.Style),
     case_fold n = case_fold n' ->
     FixedFunction.GetStyle n = Ok style ->
     FixedFunction.GetStyle n' = Ok style) /\
  (forall style : FixedFunction.Style,
     throws_with
       (FixedFunction.GetStyle (FixedFunction.ConvertStyleToString style true))
       "Unknown FixedFunction style: ") /\
  throws_with (FixedFunction.GetStyle EmptyString)
    "Unknown FixedFunction style: ".
Proof.
  intros Hcase. split; [| split; [| split; [| split]]].
  - intros style. destruct style; unfold FixedFunction.GetStyle;
      cbn [FixedFunction.ConvertStyleToString];
      rewrite !Strcasecmp_zero by exact Hcase; vm_compute; reflexivity.
  - unfold FixedFunction.GetStyle.
    rewrite !Strcasecmp_zero by exact Hcase. vm_compute. reflexivity.
  - intros n n' style Hfold.
    pose proof (case_fold_nonempty n n' Hfold) as Hne.
    unfold FixedFunction.GetStyle.
    destruct n as [| c rest], n' as [| c' rest']; try contradiction;
      try discriminate.
    rewrite !Strcasecmp_zero by exact Hcase. rewrite Hfold.
    repeat match goal with
           | |- context [String.eqb ?a ?b] => destruct (String.eqb a b)
           end; cbn [orb]; try discriminate; intros Hs; exact Hs.
  - intros style. destruct style; unfold FixedFunction.GetStyle;
      cbn [FixedFunction.ConvertStyleToString];
      rewrite !Strcasecmp_zero by exact Hcase;
      eexists; (split; [vm_compute; reflexivity | simpl; tauto]).
  - eexists. split; [reflexivity | simpl; tauto].
Qed.

Lemma FixedFunction_GetStyle_reads_the_style_names_witness :
  (forall style : FixedFunction.Style,
     FixedFunction.GetStyle (FixedFunction.ConvertStyleToString style false) =
     Ok style) /\
  FixedFunction.GetStyle FixedFunction.SURROUND =
    Ok FixedFunction.REC2100_SURROUND /\
  (forall (n n' : string) (style : FixedFunction.Style),
     case_fold n = case_fold n' ->
     FixedFunction.GetStyle n = Ok style ->
     FixedFunction.GetStyle n' = Ok style) /\
  (forall style : FixedFunction.Style,
     throws_with
       (FixedFunction.GetStyle (FixedFunction.ConvertStyleToString style true))
       "Unknown FixedFunction style: ") /\
  throws_with (FixedFunction.GetStyle EmptyString)
    "Unknown FixedFunction style: ".
Proof.
  apply (@FixedFunction_GetStyle_reads_the_style_names AsciiPlatform).
  exact AsciiPlatform_ignores_case.
Defined.

(** The two overloads of [ConvertStyle]: a transform style goes to the
    forward op style and comes back unchanged; an op style comes back as
    itself when it is a forward style or the surround style and as its
    forward counterpart otherwise, so that the two directions of a function
    have the same transform style. *)
Theorem FixedFunction_ConvertStyle_round_trip
    {Base : Type} `{OpDataInterface Base} :
  (forall style : FixedFunction.FixedFunctionStyle,
     FixedFunction.ConvertStyle_of_op (FixedFunction.ConvertStyle style) =
     style) /\
  (forall style : FixedFunction.Style,
     FixedFunction.ConvertStyle (FixedFunction.ConvertStyle_of_op style) =
     style \/
     FixedFunction.opposite_style
       (FixedFunction.ConvertStyle (FixedFunction.ConvertStyle_of_op style))
       style = true) /\
  (forall a b : FixedFunction.Style,
     FixedFunction.opposite_style a b = true ->
     FixedFunction.ConvertStyle_of_op a = FixedFunction.ConvertStyle_of_op b) /\
  (forall d r : FixedFunction.FixedFunctionOpData Base,
     FixedFunction.inverse d = Ok r ->
     FixedFunction.ConvertStyle_of_op (FixedFunction.m_style r) =
     FixedFunction.ConvertStyle_of_op (FixedFunction.m_style d)).
Proof.
  split; [| split; [| split]].
  - intros style. destruct style; reflexivity.
  - intros style. destruct style; simpl; tauto.
  - intros a b. destruct a, b; simpl; intros Hopp; try discriminate Hopp;
      reflexivity.
  - intros [b style params] r.
    unfold FixedFunction.inverse, FixedFunction.clone,
      FixedFunction.FixedFunctionOpData_new.
    cbn [FixedFunction.m_style FixedFunction.m_params].
    destruct (FixedFunction.validate _); cbn [bind]; try discriminate.
    destruct style; cbn [FixedFunction.invert FixedFunction.m_style];
      try (intros Hr; injection Hr as <-; reflexivity).
    cbn [FixedFunction.m_params]. destruct params; [discriminate |].
    intros Hr. injection Hr as <-. reflexivity.
Qed.

(* ================================================================== *)
(** * Matrices *)
(* ================================================================== *)

Section MatrixLoops.
Import Matrix.

Lemma for_loop_app {St : Type} (body : nat -> St -> result St) (a b : nat) :
  forall (from : nat) (s : St),
  for_loop (a + b) from body s =
  (s' <- for_loop a from body s ;; for_loop b (from + a) body s').
Proof.
  induction a as [| a IH]; intros from s.
  - simpl. rewrite Nat.add_0_r. reflexivity.
  - simpl. destruct (body from s) as [s' | e | f]; simpl; try reflexivity.
    rewrite IH. replace (S from + a)%nat with (from + S a)%nat by lia.
    reflexivity.
Qed.

Lemma for_loop_shift {St : Type} (f : nat -> St -> result St) (start : nat)
    (count : nat) :
  forall (from : nat) (s : St),
  for_loop count from (fun j s => f (start + j)%nat s) s =
  for_loop count (start + from) f s.
Proof.
  induction count as [| count IH]; intros from s; [reflexivity |].
  simpl. destruct (f (start + from)%nat s) as [s' | e | fl]; simpl;
    try reflexivity.
  rewrite IH. replace (start + S from)%nat with (S (start + from)) by lia.
  reflexivity.
Qed.

(** Two nested loops over [i] and [j] whose body only uses [i * dim + j]
    are one loop over the index. *)
Lemma for_loop_nested {St : Type} (f : nat -> St -> result St) (dim : nat) :
  forall (n i0 : nat) (s : St),
  for_loop n i0
    (fun i s => for_loop dim 0 (fun j s => f (i * dim + j)%nat s) s) s =
  for_loop (n * dim) (i0 * dim) f s.
Proof.
  induction n as [| n IH]; intros i0 s; [reflexivity |].
  cbn [for_loop]. change (S n * dim)%nat with (dim + n * dim)%nat.
  rewrite for_loop_app.
  rewrite (for_loop_shift f (i0 * dim) dim 0 s). rewrite Nat.add_0_r.
  destruct (for_loop dim (i0 * dim) f s) as [s' | e | fl]; simpl;
    try reflexivity.
  rewrite IH. replace (S i0 * dim)%nat with (i0 * dim + dim)%nat by lia.
  reflexivity.
Qed.

Lemma get_app (pre suf : list Double.t) (x : Double.t) :
  get (pre ++ x :: suf) (length pre) = Ok x.
Proof.
  unfold get. rewrite nth_error_app2 by lia. rewrite Nat.sub_diag. reflexivity.
Qed.

Lemma set_app (pre suf : list Double.t) (x y : Double.t) :
  set (pre ++ x :: suf) (length pre) y = Ok (pre ++ y :: suf).
Proof.
  induction pre as [| p pre IH]; [reflexivity |].
  simpl. rewrite IH. reflexivity.
Qed.

(** The first loop of [cleanUp]: the largest magnitude. *)
Lemma max_val_loop (values : list Double.t) :
  forall (suf pre : list Double.t) (max_val : Double.t),
  values = pre ++ suf ->
  for_loop (length suf) (length pre)
    (fun idx max_val =>
       v <- get values idx ;; Ok (keep_max max_val (Double.fabs v)))
    max_val =
  Ok (max_fabs suf max_val).
Proof.
  induction suf as [| x suf IH]; intros pre max_val Hvalues; [reflexivity |].
  cbn [length for_loop]. rewrite Hvalues at 1. rewrite get_app. cbn [bind].
  specialize (IH (pre ++ [x]) (keep_max max_val (Double.fabs x))).
  rewrite length_app in IH. cbn [length] in IH.
  replace (length pre + 1)%nat with (S (length pre)) in IH by lia.
  rewrite IH; [reflexivity |].
  rewrite <- app_assoc. exact Hvalues.
Qed.

End MatrixLoops.

Section MatrixCleanUp.
Context {Base : Type} `{OpDataInterface Base}
        `{MatrixInterface Matrix.MatrixArray Base}.
Import Matrix.

(** The second loop of [cleanUp]: every value is visited once. *)
Lemma cleanUp_values_loop (abs_tol : Double.t) (b : Base) (len ncc : nat)
    (offs : Offsets) :
  forall suf pre : list Double.t,
  for_loop (length suf) (length pre)
    (fun idx d =>
       val <- get (getValues (m_array d)) idx ;;
       if near_integer abs_tol val then setArrayValue d idx (round val)
       else Ok d)
    (mkMatrixOpData b (mkMatrixArray len ncc (pre ++ suf)) offs) =
  Ok (mkMatrixOpData b
        (mkMatrixArray len ncc (pre ++ map (cleaned abs_tol) suf)) offs).
Proof.
  induction suf as [| x suf IH]; intros pre; [reflexivity |].
  cbn [length for_loop m_array getValues map]. rewrite get_app. cbn [bind].
  specialize (IH (pre ++ [cleaned abs_tol x])).
  rewrite length_app in IH. cbn [length] in IH.
  replace (length pre + 1)%nat with (S (length pre)) in IH by lia.
  rewrite <- !app_assoc in IH. cbn [app] in IH.
  destruct (near_integer abs_tol x) eqn:Hnear.
  - assert (Hc : cleaned abs_tol x = round x)
      by (unfold cleaned; rewrite Hnear; reflexivity).
    rewrite Hc in *.
    unfold setArrayValue. cbn [m_array getValues getLength
                                getNumColorComponents base m_offsets].
    rewrite set_app. cbn [bind]. exact IH.
  - assert (Hc : cleaned abs_tol x = x)
      by (unfold cleaned; rewrite Hnear; reflexivity).
    rewrite Hc in *. exact IH.
Qed.

(** [cleanUp] on a 4x4 matrix. *)
Lemma cleanUp_4x4 (b : Base) (ncc : nat) (values : list Double.t)
    (offs : Offsets) (offsetScale : Double.t) :
  length values = 16%nat ->
  cleanUp (mkMatrixOpData b (mkMatrixArray 4 ncc values) offs) offsetScale =
  Ok (mkMatrixOpData b
        (mkMatrixArray 4 ncc
           (map (cleaned (tolerance (max_fabs values Double.zero))) values))
        (mkOffsets
           (cleaned (tolerance offsetScale) (off0 offs))
           (cleaned (tolerance offsetScale) (off1 offs))
           (cleaned (tolerance offsetScale) (off2 offs))
           (cleaned (tolerance offsetScale) (off3 offs)))).
Proof.
  intros Hlen. unfold cleanUp.
  cbn [m_array getLength getValues].
  rewrite (for_loop_nested
             (fun idx max_val =>
                v <- get values idx ;; Ok (keep_max max_val (Double.fabs v)))
             4 4 0 Double.zero).
  change (4 * 4)%nat with 16%nat. change (0 * 4)%nat with (length (@nil Double.t)).
  rewrite <- Hlen.
  rewrite (max_val_loop values values [] Double.zero eq_refl). cbn [bind].
  fold (tolerance (max_fabs values Double.zero)).
  rewrite (for_loop_nested
             (fun idx d =>
                val <- get (getValues (m_array d)) idx ;;
                if near_integer (tolerance (max_fabs values Double.zero)) val
                then setArrayValue d idx (round val)
                else Ok d)
             4 4 0).
  change (4 * 4)%nat with 16%nat. change (0 * 4)%nat with 0%nat.
  rewrite <- Hlen.
  pose proof (cleanUp_values_loop (tolerance (max_fabs values Double.zero))
                b 4 ncc offs values []) as Hloop.
  cbn [app length] in Hloop. rewrite Hloop. clear Hloop.
  cbn [bind]. fold (tolerance offsetScale).
  destruct offs as [o0 o1 o2 o3]. unfold cleaned.
  cbn [for_loop bind Offsets_get m_offsets off0 off1 off2 off3].
  destruct (near_integer (tolerance offsetScale) o0);
    cbn [bind setOffsetValue m_array getLength Nat.leb Offsets_set m_offsets
         off0 off1 off2 off3 base Offsets_get];
    destruct (near_integer (tolerance offsetScale) o1);
    cbn [bind setOffsetValue m_array getLength Nat.leb Offsets_set m_offsets
         off0 off1 off2 off3 base Offsets_get];
    destruct (near_integer (tolerance offsetScale) o2);
    cbn [bind setOffsetValue m_array getLength Nat.leb Offsets_set m_offsets
         off0 off1 off2 off3 base Offsets_get];
    destruct (near_integer (tolerance offsetScale) o3);
    cbn [bind setOffsetValue m_array getLength Nat.leb Offsets_set m_offsets
         off0 off1 off2 off3 base Offsets_get];
    reflexivity.
Qed.

End MatrixCleanUp.

Section MatrixProducts.
Import Matrix.

(** A list of sixteen values, spelled out. *)
Lemma sixteen_values (values : list Double.t) :
  length values = 16%nat ->
  exists x0 x1 x2 x3 x4 x5 x6 x7 x8 x9 x10 x11 x12 x13 x14 x15,
    values = [x0; x1; x2; x3; x4; x5; x6; x7; x8; x9; x10; x11; x12; x13;
              x14; x15].
Proof.
  intros Hlen.
  do 16 (destruct values as [| ? values]; [discriminate Hlen |]).
  destruct values; [| discriminate Hlen].
  repeat eexists.
Qed.

(** [inner] on two arrays of sixteen values. *)
Lemma inner_4x4 (X Y : MatrixArray) :
  length (getValues X) = 16%nat ->
  length (getValues Y) = 16%nat ->
  inner X Y = Ok (mkMatrixArray 4 4 (product (getValues X) (getValues Y))).
Proof.
  intros HX HY. destruct X as [lx nx xs], Y as [ly ny ys].
  cbn [getValues] in *.
  destruct (sixteen_values xs HX)
    as [x0 [x1 [x2 [x3 [x4 [x5 [x6 [x7 [x8 [x9 [x10 [x11 [x12 [x13 [x14
       [x15 ->]]]]]]]]]]]]]]]].
  destruct (sixteen_values ys HY)
    as [y0 [y1 [y2 [y3 [y4 [y5 [y6 [y7 [y8 [y9 [y10 [y11 [y12 [y13 [y14
       [y15 ->]]]]]]]]]]]]]]]].
  cbv -[Double.add Double.mul]. reflexivity.
Qed.

(** [inner] on an array of sixteen values and the offsets. *)
Lemma inner_offsets_4x4 (X : MatrixArray) (b : Offsets) :
  getLength X = 4%nat ->
  length (getValues X) = 16%nat ->
  inner_offsets X b Offsets_default =
  Ok (mkOffsets (product_offset (getValues X) b 0)
        (product_offset (getValues X) b 1)
        (product_offset (getValues X) b 2)
        (product_offset (getValues X) b 3)).
Proof.
  intros Hdim HX. destruct X as [lx nx xs], b as [b0 b1 b2 b3].
  cbn [getValues getLength] in *. subst lx.
  destruct (sixteen_values xs HX)
    as [x0 [x1 [x2 [x3 [x4 [x5 [x6 [x7 [x8 [x9 [x10 [x11 [x12 [x13 [x14
       [x15 ->]]]]]]]]]]]]]]]].
  cbv -[Double.add Double.mul]. reflexivity.
Qed.

End MatrixProducts.

(** [A.compose(B)] raises "MatrixOpData: array content issue." unless both
    arrays have length 4.  For two 4x4 matrices it returns the matrix
    product B x A (op A comes first) and the offsets B x offsets(A) +
    offsets(B), in which a value is replaced by [round] of it exactly when
    it lies closer to that integer than the tolerance: 1e-6 times the
    largest magnitude in the product (for the offsets: among the moved
    offsets of A and the offsets of B, before they are added), and no less
    than 1e-10. *)
Theorem compose_multiplies_then_cleans_up
    {Base : Type} `{OpDataInterface Base}
    `{MatrixInterface Matrix.MatrixArray Base}
    (A B : Matrix.MatrixOpData Base) :
  (Matrix.getLength (Matrix.m_array A) <> 4%nat \/
   Matrix.getLength (Matrix.m_array B) <> 4%nat ->
   throws_with (Matrix.compose A B) "MatrixOpData: array content issue.") /\
  (Matrix.getLength (Matrix.m_array A) = 4%nat ->
   Matrix.getLength (Matrix.m_array B) = 4%nat ->
   length (Matrix.getValues (Matrix.m_array A)) = 16%nat ->
   length (Matrix.getValues (Matrix.m_array B)) = 16%nat ->
   let raw :=
     Matrix.product (Matrix.getValues (Matrix.m_array B))
       (Matrix.getValues (Matrix.m_array A)) in
   let moved :=
     Matrix.product_offset (Matrix.getValues (Matrix.m_array B))
       (Matrix.m_offsets A) in
   let offsB := Matrix.m_offsets B in
   let abs_tol := Matrix.tolerance (Matrix.max_fabs raw Double.zero) in
   let abs_tol2 :=
     Matrix.tolerance
       (Matrix.max_fabs
          [moved 0%nat; Matrix.off0 offsB; moved 1%nat; Matrix.off1 offsB;
           moved 2%nat; Matrix.off2 offsB; moved 3%nat; Matrix.off3 offsB]
          Double.zero) in
   Matrix.compose A B =
   Ok (Matrix.mkMatrixOpData
         (compose_base (Matrix.base A) (Matrix.base B))
         (Matrix.mkMatrixArray 4 4 (map (Matrix.cleaned abs_tol) raw))
         (Matrix.mkOffsets
            (Matrix.cleaned abs_tol2
               (Double.add (moved 0%nat) (Matrix.off0 offsB)))
            (Matrix.cleaned abs_tol2
               (Double.add (moved 1%nat) (Matrix.off1 offsB)))
            (Matrix.cleaned abs_tol2
               (Double.add (moved 2%nat) (Matrix.off2 offsB)))
            (Matrix.cleaned abs_tol2
               (Double.add (moved 3%nat) (Matrix.off3 offsB)))))).
Proof.
  split.
  - intros Hdim. unfold Matrix.compose.
    assert (Hcheck : negb (Nat.eqb (Matrix.getLength (Matrix.m_array A)) 4) ||
                     negb (Nat.eqb (Matrix.getLength (Matrix.m_array B)) 4) =
                     true).
    { destruct Hdim as [Hdim | Hdim]; apply Nat.eqb_neq in Hdim;
        rewrite Hdim; simpl; [reflexivity | apply orb_true_r]. }
    rewrite Hcheck. eexists. split; [reflexivity | simpl; tauto].
  - intros HdimA HdimB HA HB raw moved offsB abs_tol abs_tol2.
    unfold Matrix.compose. rewrite HdimA, HdimB.
    cbn [Nat.eqb negb orb].
    assert (Hdefault : exists out,
              Matrix.MatrixOpData_default (Base := Base) = Ok out).
    { eexists. reflexivity. }
    destruct Hdefault as [out ->]. cbn [bind].
    rewrite (inner_4x4 _ _ HB HA). cbn [bind].
    rewrite (inner_offsets_4x4 _ _ HdimB HB). cbn [bind].
    fold raw. fold moved.
    cbn [Matrix.for_loop bind Matrix.Offsets_get Matrix.Offsets_set
         Matrix.off0 Matrix.off1 Matrix.off2 Matrix.off3].
    rewrite cleanUp_4x4
      by (unfold raw, Matrix.product; rewrite length_map, length_seq;
          reflexivity).
    reflexivity.
Qed.

(** The two matrices of the unit test [MatrixOpData, composition] and its
    expected coefficients and offsets. *)
Lemma compose_multiplies_then_cleans_up_witness :
  Matrix.compose
    (Matrix.mkMatrixOpData tt
       (Matrix.mkMatrixArray 4 4
          (map Double.of_Z
             [1; 2; 3; 4; 4; 5; 6; 7; 7; 8; 9; 10; 11; 12; 13; 14]))
       (Matrix.mkOffsets (Double.of_Z 10) (Double.of_Z 11) (Double.of_Z 12)
          (Double.of_Z 13)))
    (Matrix.mkMatrixOpData tt
       (Matrix.mkMatrixArray 4 4
          (map Double.of_Z
             [21; 22; 23; 24; 24; 25; 26; 27; 27; 28; 29; 30; 31; 32; 33; 34]))
       (Matrix.mkOffsets (Double.of_Z 30) (Double.of_Z 31) (Double.of_Z 32)
          (Double.of_Z 33))) =
  Ok (Matrix.mkMatrixOpData tt
        (Matrix.mkMatrixArray 4 4
           (map Double.of_Z
              [534; 624; 714; 804; 603; 705; 807; 909; 672; 786; 900; 1014;
               764; 894; 1024; 1154]))
        (Matrix.mkOffsets (Double.of_Z 1070) (Double.of_Z 1209)
           (Double.of_Z 1348) (Double.of_Z 1533))).
Proof.
  match goal with
  | |- Matrix.compose ?A ?B = _ =>
      rewrite (proj2 (compose_multiplies_then_cleans_up A B)
                 eq_refl eq_refl eq_refl eq_refl)
  end.
  vm_compute. reflexivity.
Defined.

(** Two finite doubles that compare equal are the same double. *)
Lemma SFeqb_finite (s s' : bool) (m m' : positive) (e e' : Z) :
  SFeqb (S754_finite s m e) (S754_finite s' m' e') = true ->
  S754_finite s m e = S754_finite s' m' e'.
Proof.
  unfold SFeqb. cbn [SFcompare].
  change (Pos.compare_cont Eq m m') with (Pos.compare m m').
  destruct s, s'; try discriminate;
    destruct (Z.compare_spec e e') as [He | He | He]; try discriminate;
    destruct (Pos.compare_spec m m') as [Hm | Hm | Hm]; try discriminate;
    intros _; subst; reflexivity.
Qed.

(** [v == 1.0] holds of the double 1.0 only. *)
Lemma equal_to_one (v : Double.t) : Double.ne v Double.one = false -> v = Double.one.
Proof.
  unfold Double.ne. intros Hne. apply negb_false_iff in Hne.
  change Double.one with (S754_finite false 4503599627370496 (-52)) in *.
  destruct v as [s | s | | s m e]; try discriminate Hne;
    [destruct s; discriminate Hne |].
  apply SFeqb_finite. exact Hne.
Qed.

(** [Offsets::isNotNull()] compares bytes: it is false of the offsets made
    of four [+0.0] and of no others.  Scaling those by a negative number
    gives four [-0.0], which are "not null" although each of them compares
    equal to zero; scaling them by a NaN or an infinity gives NaN. *)
Theorem Offsets_isNotNull_compares_bytes :
  (forall o : Matrix.Offsets,
     Matrix.Offsets_isNotNull o = false <-> o = Matrix.Offsets_default) /\
  (forall s : Double.t,
     Matrix.Offsets_isNotNull
       (Matrix.Offsets_scale Matrix.Offsets_default s) =
     match s with
     | S754_zero sign | S754_finite sign _ _ => sign
     | _ => true
     end) /\
  (forall s : Double.t,
     match s with
     | S754_zero _ | S754_finite _ _ _ =>
         let o := Matrix.Offsets_scale Matrix.Offsets_default s in
         Double.eq (Matrix.off0 o) Double.zero = true /\
         Double.eq (Matrix.off1 o) Double.zero = true /\
         Double.eq (Matrix.off2 o) Double.zero = true /\
         Double.eq (Matrix.off3 o) Double.zero = true
     | _ =>
         Matrix.Offsets_scale Matrix.Offsets_default s =
         Matrix.mkOffsets Double.nan Double.nan Double.nan Double.nan
     end).
Proof.
  split; [| split].
  - intros [o0 o1 o2 o3]. unfold Matrix.Offsets_isNotNull, Matrix.Offsets_default.
    cbn [Matrix.off0 Matrix.off1 Matrix.off2 Matrix.off3]. split.
    + intros Hnull. apply negb_false_iff in Hnull.
      repeat (apply andb_prop in Hnull; destruct Hnull as [Hnull ?]).
      assert (Hzero : forall x, Matrix.all_bits_zero x = true -> x = Double.zero).
      { intros x Hx. destruct x as [[|] | | |]; try discriminate Hx. reflexivity. }
      repeat match goal with
             | Hx : Matrix.all_bits_zero _ = true |- _ =>
                 apply Hzero in Hx; subst
             end.
      reflexivity.
    + intros Ho. injection Ho as -> -> -> ->. reflexivity.
  - intros s. destruct s as [[|] | [|] | | [|] m e]; reflexivity.
  - intros s. destruct s as [[|] | [|] | | [|] m e]; cbv; repeat split.
Qed.

(** [MatrixArray::validate()], when the base class accepts the array: an
    array of length 3 with nine values becomes the 4x4 array with those
    values in the upper left block, zeros in the last row and column and one
    in the corner; a 4x4 array stays as it is; any other length raises
    "Matrix: array content issue.", and a length 4 with a component count
    other than 4 raises "Matrix: dimensions must be 4x4.".  An array that
    the call leaves behind has length 4 and 4 components. *)
Theorem MatrixArray_validate_leaves_a_4x4_array
    {Base : Type} `{MatrixInterface Matrix.MatrixArray Base}
    (a : Matrix.MatrixArray) :
  ArrayDouble_validate a = Ok tt ->
  (Matrix.getLength a = 3%nat ->
   forall v0 v1 v2 v3 v4 v5 v6 v7 v8 : Double.t,
     Matrix.getValues a = [v0; v1; v2; v3; v4; v5; v6; v7; v8] ->
     Matrix.MatrixArray_validate a =
     Ok (Matrix.mkMatrixArray 4 4
           [v0; v1; v2; Double.zero;
            v3; v4; v5; Double.zero;
            v6; v7; v8; Double.zero;
            Double.zero; Double.zero; Double.zero; Double.one])) /\
  (Matrix.getLength a = 4%nat -> Matrix.getNumColorComponents a = 4%nat ->
   Matrix.MatrixArray_validate a = Ok a) /\
  (Matrix.getLength a = 4%nat -> Matrix.getNumColorComponents a <> 4%nat ->
   throws_with (Matrix.MatrixArray_validate a)
     "Matrix: dimensions must be 4x4.") /\
  (Matrix.getLength a <> 3%nat -> Matrix.getLength a <> 4%nat ->
   throws_with (Matrix.MatrixArray_validate a)
     "Matrix: array content issue.") /\
  (forall a' : Matrix.MatrixArray,
     Matrix.MatrixArray_validate a = Ok a' ->
     Matrix.getLength a' = 4%nat /\ Matrix.getNumColorComponents a' = 4%nat).
Proof.
  intros Hbase. unfold Matrix.MatrixArray_validate. rewrite Hbase.
  cbn [bind]. destruct a as [len ncc values].
  cbn [Matrix.getLength Matrix.getNumColorComponents Matrix.getValues].
  split; [| split; [| split; [| split]]].
  - intros -> v0 v1 v2 v3 v4 v5 v6 v7 v8 ->. reflexivity.
  - intros -> ->. reflexivity.
  - intros -> Hncc. cbn [Nat.eqb negb bind Matrix.getNumColorComponents].
    apply Nat.eqb_neq in Hncc. rewrite Hncc.
    eexists. split; [reflexivity | simpl; tauto].
  - intros H3 H4. apply Nat.eqb_neq in H3, H4. rewrite H3, H4.
    eexists. split; [reflexivity | simpl; tauto].
  - intros a'. destruct (Nat.eqb_spec len 3) as [-> | H3].
    + unfold Matrix.expandFrom3x3To4x4, Matrix.setRGB.
      cbn [Matrix.getValues Matrix.resize Matrix.getLength
           Matrix.getNumColorComponents].
      destruct values as [| v0 [| v1 [| v2 [| v3 [| v4 [| v5 [| v6 [| v7
        [| v8 rest]]]]]]]]]; try discriminate.
      match goal with
      | |- context [if ?c then _ else _] => destruct c
      end; cbn [bind]; try discriminate.
      cbn [Matrix.getNumColorComponents Nat.eqb negb].
      intros Ha. injection Ha as <-. split; reflexivity.
    + destruct (Nat.eqb_spec len 4) as [-> | H4]; cbn [negb bind];
        [| discriminate].
      cbn [Matrix.getNumColorComponents].
      destruct (Nat.eqb_spec ncc 4) as [-> | Hncc]; cbn [negb];
        [| discriminate].
      intros Ha. injection Ha as <-. split; reflexivity.
Qed.

(** The 3x3 identity, as [resize(3, 3)] and [fill()] leave it. *)
Lemma MatrixArray_validate_leaves_a_4x4_array_witness :
  let a := Matrix.mkMatrixArray 3 3
             [Double.one; Double.zero; Double.zero;
              Double.zero; Double.one; Double.zero;
              Double.zero; Double.zero; Double.one] in
  (Matrix.getLength a = 3%nat ->
   forall v0 v1 v2 v3 v4 v5 v6 v7 v8 : Double.t,
     Matrix.getValues a = [v0; v1; v2; v3; v4; v5; v6; v7; v8] ->
     Matrix.MatrixArray_validate (Base := unit) a =
     Ok (Matrix.mkMatrixArray 4 4
           [v0; v1; v2; Double.zero;
            v3; v4; v5; Double.zero;
            v6; v7; v8; Double.zero;
            Double.zero; Double.zero; Double.zero; Double.one])) /\
  (Matrix.getLength a = 4%nat -> Matrix.getNumColorComponents a = 4%nat ->
   Matrix.MatrixArray_validate (Base := unit) a = Ok a) /\
  (Matrix.getLength a = 4%nat -> Matrix.getNumColorComponents a <> 4%nat ->
   throws_with (Matrix.MatrixArray_validate (Base := unit) a)
     "Matrix: dimensions must be 4x4.") /\
  (Matrix.getLength a <> 3%nat -> Matrix.getLength a <> 4%nat ->
   throws_with (Matrix.MatrixArray_validate (Base := unit) a)
     "Matrix: array content issue.") /\
  (forall a' : Matrix.MatrixArray,
     Matrix.MatrixArray_validate (Base := unit) a = Ok a' ->
     Matrix.getLength a' = 4%nat /\ Matrix.getNumColorComponents a' = 4%nat).
Proof.
  intros a.
  refine (MatrixArray_validate_leaves_a_4x4_array (Base := unit) a _).
  reflexivity.
Defined.

(** A 4x4 matrix that passes the strict test [isUnityDiagonal()] is
    diagonal and passes [isMatrixIdentity()], and [hasAlpha()] then only
    looks at the alpha offset.  [EqualWithAbsError(1.0, 1.0, 1e-6)] is taken
    to hold. *)
Theorem unity_diagonal_matrix_is_diagonal
    {Base : Type} `{OpDataInterface Base}
    `{MatrixInterface Matrix.MatrixArray Base}
    (d : Matrix.MatrixOpData Base) :
  EqualWithAbsError Double.one Double.one (Double.lit 1 1000000) = true ->
  Matrix.getLength (Matrix.m_array d) = 4%nat ->
  length (Matrix.getValues (Matrix.m_array d)) = 16%nat ->
  Matrix.isUnityDiagonal (Matrix.m_array d) = Ok true ->
  Matrix.isDiagonal d = Ok true /\
  Matrix.isMatrixIdentity d = Ok true /\
  Matrix.hasAlpha d =
    Ok (Double.ne (Matrix.off3 (Matrix.m_offsets d)) Double.zero).
Proof.
  intros Hequal Hdim Hlen Hunity.
  destruct d as [b [len ncc values] offs].
  cbn [Matrix.m_array Matrix.getLength Matrix.getValues Matrix.m_offsets] in *.
  subst len.
  destruct (sixteen_values values Hlen)
    as [x0 [x1 [x2 [x3 [x4 [x5 [x6 [x7 [x8 [x9 [x10 [x11 [x12 [x13 [x14
       [x15 ->]]]]]]]]]]]]]]]].
  unfold Matrix.isUnityDiagonal in Hunity.
  cbn [Matrix.getLength Matrix.getValues Matrix.all_below Matrix.get
       nth_error Nat.mul Nat.add Nat.eqb bind] in Hunity.
  repeat match type of Hunity with
         | context [Double.ne ?v ?c] =>
             let Hv := fresh "Hv" in
             destruct (Double.ne v c) eqn:Hv;
             cbn [negb bind Matrix.all_below Matrix.get nth_error Nat.mul
                  Nat.add Nat.eqb] in Hunity;
             [discriminate Hunity |]
         end.
  repeat match goal with
         | Hv : Double.ne _ Double.one = false |- _ =>
             apply equal_to_one in Hv; subst
         end.
  split; [| split].
  - unfold Matrix.isDiagonal, Matrix.getNumValues.
    cbn [Matrix.m_array Matrix.getLength Matrix.getValues Nat.mul Nat.add].
    cbn [Matrix.all_below Matrix.get nth_error Nat.modulo Nat.divmod fst snd
         Nat.sub Nat.eqb negb bind Nat.add].
    repeat match goal with
           | Hv : Double.ne ?v Double.zero = false |- _ =>
               rewrite Hv; clear Hv;
               cbn [negb bind Matrix.all_below Matrix.get nth_error
                    Nat.modulo Nat.divmod fst snd Nat.sub Nat.eqb Nat.add]
           end.
    reflexivity.
  - unfold Matrix.isMatrixIdentity.
    cbn [Matrix.m_array Matrix.getLength Matrix.getValues Matrix.all_below
         Matrix.get nth_error Nat.mul Nat.add Nat.eqb bind].
    rewrite Hequal.
    cbn [Matrix.all_below Matrix.get nth_error Nat.mul Nat.add Nat.eqb bind].
    reflexivity.
  - unfold Matrix.hasAlpha.
    cbn [Matrix.m_array Matrix.getValues Matrix.get nth_error bind
         Matrix.m_offsets].
    rewrite Hequal.
    repeat match goal with
           | Hv : Double.ne ?v Double.zero = false |- _ =>
               rewrite ?Hv; clear Hv
           end.
    reflexivity.
Qed.

(** The default matrix: identity, no offsets. *)
Lemma unity_diagonal_matrix_is_diagonal_witness :
  let d := Matrix.mkMatrixOpData tt
             (Matrix.mkMatrixArray 4 4
                [Double.one; Double.zero; Double.zero; Double.zero;
                 Double.zero; Double.one; Double.zero; Double.zero;
                 Double.zero; Double.zero; Double.one; Double.zero;
                 Double.zero; Double.zero; Double.zero; Double.one])
             Matrix.Offsets_default in
  Matrix.isDiagonal d = Ok true /\
  Matrix.isMatrixIdentity d = Ok true /\
  Matrix.hasAlpha d =
    Ok (Double.ne (Matrix.off3 (Matrix.m_offsets d)) Double.zero).
Proof.
  intros d.
  refine (unity_diagonal_matrix_is_diagonal d _ _ _ _).
  - vm_compute. reflexivity.
  - reflexivity.
  - reflexivity.
  - vm_compute. reflexivity.
Defined.

(** [CreateDiagonalMatrix(diagValue)], when the base classes accept the
    default matrix: the 4x4 matrix with [diagValue] on the diagonal and
    [+0.0] elsewhere, without offsets.  It is diagonal whatever the value
    (a NaN too), and unity-diagonal exactly when the value equals 1.0. *)
Theorem CreateDiagonalMatrix_is_diagonal
    {Base : Type} `{OpDataInterface Base}
    `{MatrixInterface Matrix.MatrixArray Base}
    (diagValue : Double.t) :
  base_validates ->
  (forall a : Matrix.MatrixArray, ArrayDouble_validate a = Ok tt) ->
  exists pM : Matrix.MatrixOpData Base,
    Matrix.CreateDiagonalMatrix diagValue = Ok pM /\
    Matrix.m_array pM =
      Matrix.mkMatrixArray 4 4
        [diagValue; Double.zero; Double.zero; Double.zero;
         Double.zero; diagValue; Double.zero; Double.zero;
         Double.zero; Double.zero; diagValue; Double.zero;
         Double.zero; Double.zero; Double.zero; diagValue] /\
    Matrix.Offsets_isNotNull (Matrix.m_offsets pM) = false /\
    Matrix.isDiagonal pM = Ok true /\
    Matrix.isUnityDiagonal (Matrix.m_array pM) =
      Ok (Double.eq diagValue Double.one).
Proof.
  intros Hbase Harray.
  unfold Matrix.CreateDiagonalMatrix, Matrix.MatrixOpData_default.
  assert (Hnew : Matrix.MatrixArray_new 4 4 =
                 Ok (Matrix.mkMatrixArray 4 4
                       [Double.one; Double.zero; Double.zero; Double.zero;
                        Double.zero; Double.one; Double.zero; Double.zero;
                        Double.zero; Double.zero; Double.one; Double.zero;
                        Double.zero; Double.zero; Double.zero; Double.one]))
    by (vm_compute; reflexivity).
  rewrite Hnew. cbn [bind].
  unfold Matrix.validate, Matrix.MatrixArray_validate.
  cbn [Matrix.base Matrix.m_array Matrix.m_offsets].
  rewrite Hbase, Harray.
  cbn [bind Matrix.getLength Matrix.getNumColorComponents Nat.eqb negb].
  unfold Matrix.setArrayValue.
  cbn [bind Matrix.m_array Matrix.getValues Matrix.getLength
       Matrix.getNumColorComponents Matrix.set Matrix.base Matrix.m_offsets].
  eexists. split; [reflexivity |].
  cbn [Matrix.m_array Matrix.m_offsets].
  split; [reflexivity |]. split; [reflexivity |].
  split.
  - unfold Matrix.isDiagonal, Matrix.getNumValues.
    cbn [Matrix.m_array Matrix.getLength Matrix.getValues Nat.mul Nat.add].
    cbn [Matrix.all_below Matrix.get nth_error Nat.modulo Nat.divmod fst snd
         Nat.sub Nat.eqb negb bind Nat.add].
    change (Double.ne Double.zero Double.zero) with false.
    cbn [negb bind Matrix.all_below Matrix.get nth_error Nat.modulo
         Nat.divmod fst snd Nat.sub Nat.eqb Nat.add].
    reflexivity.
  - unfold Matrix.isUnityDiagonal.
    cbn [Matrix.getLength Matrix.getValues Matrix.all_below Matrix.get
         nth_error Nat.mul Nat.add Nat.eqb bind].
    change (Double.ne Double.zero Double.zero) with false.
    unfold Double.ne, Double.eq.
    destruct (SFeqb diagValue Double.one);
      cbn [negb bind Matrix.all_below Matrix.get nth_error Nat.mul Nat.add
           Nat.eqb]; reflexivity.
Qed.

(** The matrix of the unit test [MatrixOpData, diagonal]: 0.5. *)
Lemma CreateDiagonalMatrix_is_diagonal_witness :
  exists pM : Matrix.MatrixOpData unit,
    Matrix.CreateDiagonalMatrix (Double.lit 1 2) = Ok pM /\
    Matrix.m_array pM =
      Matrix.mkMatrixArray 4 4
        [Double.lit 1 2; Double.zero; Double.zero; Double.zero;
         Double.zero; Double.lit 1 2; Double.zero; Double.zero;
         Double.zero; Double.zero; Double.lit 1 2; Double.zero;
         Double.zero; Double.zero; Double.zero; Double.lit 1 2] /\
    Matrix.Offsets_isNotNull (Matrix.m_offsets pM) = false /\
    Matrix.isDiagonal pM = Ok true /\
    Matrix.isUnityDiagonal (Matrix.m_array pM) =
      Ok (Double.eq (Double.lit 1 2) Double.one).
Proof.
  refine (CreateDiagonalMatrix_is_diagonal (Base := unit) (Double.lit 1 2)
            _ _).
  - intros b. reflexivity.
  - intros a. reflexivity.
Defined.

(* ================================================================== *)
(** * The optimizer returns when the op methods do, and never makes the
       vector longer *)
(* ================================================================== *)

Section OptimizerTotal.
Context {Op : Type} `{OpInterface Op} `{Lut1DInterface Op}
        `{Optimizer.OptimizerEnv Op}.
Import Optimizer.

Hypothesis combine_shrinks :
  forall a b : Op, canCombineWith a b = true ->
                   (length (combineWith a b) <= 1)%nat.

(** One pass returns, given the iterations that [CombineOps] may need. *)
Lemma one_pass_returns (fuel : nat) (ops : list Op) :
  (2 * length ops + 1 <= fuel)%nat ->
  exists ops' noops inverseops combines,
    one_pass fuel ops = Ok (ops', (noops, inverseops, combines)) /\
    (length ops' <= length ops)%nat.
Proof.
  intros Hfuel. unfold one_pass, RemoveNoOps.
  rewrite RemoveNoOps_loop_filter.
  pose proof (filter_length_le (fun o => negb (isNoOp o)) ops) as Hfilter.
  set (ops1 := filter (fun o => negb (isNoOp o)) ops) in *.
  unfold RemoveInverseOps.
  destruct (RemoveInverseOps_loop_terminates (2 * length ops1 + 1) ops1 0 0
              ltac:(lia) ltac:(lia)) as [ops2 [inverseops [Hinv Hlen2]]].
  rewrite Hinv. cbn [bind].
  pose proof (RemoveInverseOps_loop_count _ _ _ _ _ _ Hinv) as [Hcount2 _].
  unfold CombineOps.
  destruct (CombineOps_loop_terminates fuel combine_shrinks ops2 0 0
              ltac:(lia) ltac:(lia)) as [ops3 [combines [Hcomb Hlen3]]].
  rewrite Hcomb. cbn [bind].
  pose proof (CombineOps_loop_count _ _ _ _ _ _ Hcomb) as [Hcount3 _].
  eexists. eexists. eexists. eexists. split; [reflexivity | lia].
Qed.

(** The [while] loop returns within ten iterations. *)
Lemma OptimizeOpVec_loop_returns (fuel : nat) :
  forall (n : nat) (st : LoopState Op),
  10 <= Z.of_nat n + ls_passes st ->
  (2 * length (ls_ops st) + 1 <= fuel)%nat ->
  exists st',
    OptimizeOpVec_loop n fuel st = Ok st' /\
    (length (ls_ops st') <= length (ls_ops st))%nat.
Proof.
  induction n as [| n IH]; intros st Hn Hfuel; cbn [OptimizeOpVec_loop];
    unfold MAX_OPTIMIZATION_PASSES;
    destruct (Z.leb_spec (ls_passes st) 8) as [Hle | Hgt];
    try (exists st; split; [reflexivity | lia]).
  - lia.
  - destruct (one_pass_returns fuel (ls_ops st) Hfuel)
      as [ops' [noops [inverseops [combines [Hpass Hlen]]]]].
    rewrite Hpass. cbn [bind].
    destruct ((noops =? 0) && (inverseops =? 0) && (combines =? 0)).
    + eexists. split; [reflexivity |]. exact Hlen.
    + destruct (IH (mkLoopState ops' (ls_passes st + 1)
                      (ls_total_noops st + noops)
                      (ls_total_inverseops st + inverseops)
                      (ls_total_combines st + combines)))
        as [st' [Hrun Hlen']].
      * cbn [ls_passes]. lia.
      * cbn [ls_ops]. lia.
      * exists st'. split; [exact Hrun |]. cbn [ls_ops] in Hlen'. lia.
Qed.

(** Replacing the separable run by one LUT does not lengthen the vector. *)
Lemma OptimizeSeparablePrefix_returns (ops : list Op) (inDepth : BitDepth)
    (oFlags : Z) :
  creates_plain_lut ->
  exists ops',
    OptimizeSeparablePrefix ops inDepth oFlags = Ok ops' /\
    (length ops' <= length ops)%nat.
Proof.
  intros Hplain. unfold OptimizeSeparablePrefix.
  destruct ops as [| op0 ops0] eqn:Eops;
    [exists []; split; [reflexivity | simpl; lia] |].
  rewrite <- Eops. clear Eops op0 ops0.
  destruct (is_F32_or_UINT32 inDepth);
    [exists ops; split; [reflexivity | lia] |].
  destruct (FindSeparablePrefix_returns ops) as [-> | [-> Hpos]]; cbn [bind].
  - exists ops. split; [reflexivity | lia].
  - destruct (Nat.eqb_spec (separable_run ops) 0) as [Hz | _];
      [contradiction |].
    eexists. split; [reflexivity |].
    destruct (Hplain (ComposeVec (MakeLookupDomain inDepth)
                        (map clone (firstn (separable_run ops) ops))))
      as [l [-> _]].
    pose proof (separable_run_le ops) as Hrun.
    rewrite length_app, length_skipn. cbn [length]. lia.
Qed.

End OptimizerTotal.

(** For ops whose methods return (as [OpInterface] and [Lut1DInterface]
    take them; ops on which [isNoOp], [isSameType], [isInverse],
    [canCombineWith], [combineWith], [clone] or a LUT helper raises are
    outside this statement), [OptimizeOpVec] returns, and the vector it
    leaves is never longer than the one it was given: provided [combineWith]
    yields at most one op for two, [CreateLut1DOp] makes one plain forward
    1D LUT, and [CombineOps] is given its [2 * size + 1] iterations.  The
    pass counter ends between 0 and 9. *)
Theorem OptimizeOpVec_returns_and_never_lengthens
    {Op : Type} `{OpInterface Op} `{Lut1DInterface Op}
    `{Optimizer.OptimizerEnv Op}
    (fuel : nat) (ops : list Op) (inBitDepth : BitDepth) (oFlags : Z) :
  (forall a b : Op, canCombineWith a b = true ->
                    (length (combineWith a b) <= 1)%nat) ->
  Optimizer.creates_plain_lut ->
  (2 * length ops + 1 <= fuel)%nat ->
  exists r : Optimizer.Optimized Op,
    Optimizer.OptimizeOpVec fuel ops inBitDepth oFlags = Ok r /\
    (length (Optimizer.opt_ops r) <= length ops)%nat /\
    0 <= Optimizer.opt_passes r <= 9.
Proof.
  intros Hshrink Hplain Hfuel.
  assert (Hreturns : exists r : Optimizer.Optimized Op,
            Optimizer.OptimizeOpVec fuel ops inBitDepth oFlags = Ok r /\
            (length (Optimizer.opt_ops r) <= length ops)%nat).
  { unfold Optimizer.OptimizeOpVec.
    destruct ops as [| op0 ops0] eqn:Eops;
      [eexists; split; [reflexivity | simpl; lia] |].
    rewrite <- Eops in *. clear Eops op0 ops0.
    destruct (OptimizeOpVec_loop_returns Hshrink fuel 10
                (Optimizer.mkLoopState ops 0 0 0 0))
      as [st [Hloop Hlen]];
      [cbn [Optimizer.ls_passes]; lia | cbn [Optimizer.ls_ops]; lia |].
    rewrite Hloop. cbn [bind]. cbn [Optimizer.ls_ops] in Hlen.
    destruct (Optimizer.ls_ops st) as [| op1 ops1] eqn:Est.
    - cbn [bind]. eexists. split; [reflexivity |].
      cbn [Optimizer.opt_ops length]. lia.
    - rewrite <- Est in *. clear Est op1 ops1.
      destruct (Optimizer.has_flag oFlags
                  Optimizer.OPTIMIZATION_COMP_SEPARABLE_PREFIX).
      + destruct (OptimizeSeparablePrefix_returns (Optimizer.ls_ops st)
                    inBitDepth oFlags Hplain) as [ops' [Hprefix Hlen']].
        rewrite Hprefix. cbn [bind]. eexists. split; [reflexivity |].
        cbn [Optimizer.opt_ops]. lia.
      + cbn [bind]. eexists. split; [reflexivity |].
        cbn [Optimizer.opt_ops]. lia. }
  destruct Hreturns as [r [Hrun Hlen]].
  exists r. split; [exact Hrun |]. split; [exact Hlen |].
  apply (OptimizeOpVec_passes_bound _ _ _ _ _ Hrun).
Qed.

(** Two layers of the nest around a saturation op, at 8 bits with the
    separable-prefix flag. *)
Lemma OptimizeOpVec_returns_and_never_lengthens_witness :
  exists r : Optimizer.Optimized TestOps.Op,
    Optimizer.OptimizeOpVec 25 (TestOps.nest 2 [TestOps.SatOp])
      BIT_DEPTH_UINT8 8 = Ok r /\
    (length (Optimizer.opt_ops r) <=
     length (TestOps.nest 2 [TestOps.SatOp]))%nat /\
    0 <= Optimizer.opt_passes r <= 9.
Proof.
  refine (OptimizeOpVec_returns_and_never_lengthens 25
            (TestOps.nest 2 [TestOps.SatOp]) BIT_DEPTH_UINT8 8 _ _ _).
  - exact TestOps_combineWith_shrinks.
  - exact TestOps_creates_plain_lut.
  - vm_compute. lia.
Defined.
(* ================================================================== *)
(** * Where CDL parameters are validated *)
(* ================================================================== *)

(** C3, as the code has it.  Of the ways to put parameters into a
    [CDLOpData] only the parameterised constructor validates: it returns the
    object holding the values given when slope, power and saturation are in
    the domain, and raises "... should be greater than ..." otherwise.  Each
    of the five setters returns whatever the value, replaces its member by
    the value as given (nothing is clamped) and leaves the other members;
    after a setter the object passes [validate()] exactly when the slope,
    power and saturation it now holds are in the domain. *)
Theorem CDL_only_the_constructor_validates
    {Base : Type} `{OpDataInterface Base}
    (d : CDL.CDLOpData Base) (style : CDL.Style)
    (slope offset power : CDL.ChannelParams) (saturation : Double.t) :
  base_validates ->
  (CDL.in_domain slope power saturation = true ->
   CDL.CDLOpData_new style slope offset power saturation =
     Ok (CDL.mkCDLOpData OpData_default style slope offset power saturation)) /\
  (CDL.in_domain slope power saturation = false ->
   throws_with (CDL.CDLOpData_new style slope offset power saturation)
     " should be greater than ") /\
  CDL.setStyle d style =
    Ok (CDL.mkCDLOpData (CDL.base d) style (CDL.m_slopeParams d)
          (CDL.m_offsetParams d) (CDL.m_powerParams d) (CDL.m_saturation d)) /\
  CDL.setOffsetParams d offset =
    Ok (CDL.mkCDLOpData (CDL.base d) (CDL.m_style d) (CDL.m_slopeParams d)
          offset (CDL.m_powerParams d) (CDL.m_saturation d)) /\
  (exists d',
     CDL.setSlopeParams d slope = Ok d' /\
     d' = CDL.mkCDLOpData (CDL.base d) (CDL.m_style d) slope
            (CDL.m_offsetParams d) (CDL.m_powerParams d) (CDL.m_saturation d) /\
     (CDL.validate d' = Ok tt <->
      CDL.in_domain slope (CDL.m_powerParams d) (CDL.m_saturation d) = true)) /\
  (exists d',
     CDL.setPowerParams d power = Ok d' /\
     d' = CDL.mkCDLOpData (CDL.base d) (CDL.m_style d) (CDL.m_slopeParams d)
            (CDL.m_offsetParams d) power (CDL.m_saturation d) /\
     (CDL.validate d' = Ok tt <->
      CDL.in_domain (CDL.m_slopeParams d) power (CDL.m_saturation d) = true)) /\
  (exists d',
     CDL.setSaturation d saturation = Ok d' /\
     d' = CDL.mkCDLOpData (CDL.base d) (CDL.m_style d) (CDL.m_slopeParams d)
            (CDL.m_offsetParams d) (CDL.m_powerParams d) saturation /\
     (CDL.validate d' = Ok tt <->
      CDL.in_domain (CDL.m_slopeParams d) (CDL.m_powerParams d) saturation
        = true)).
Proof.
  intros Hbase.
  assert (Hvalid : forall x : CDL.CDLOpData Base,
            CDL.validate x = Ok tt <->
            CDL.in_domain (CDL.m_slopeParams x) (CDL.m_powerParams x)
              (CDL.m_saturation x) = true).
  { intros x. destruct (validate_spec x Hbase) as [[Hin Hok] | [Hout [e He]]].
    - split; intros _; assumption.
    - split; intros Habs; [rewrite He in Habs; discriminate Habs | congruence]. }
  split; [| split; [| split; [| split; [| split; [| split]]]]].
  - intros Hin. unfold CDL.CDLOpData_new. cbv zeta.
    rewrite (proj2 (Hvalid (CDL.mkCDLOpData OpData_default style slope offset
                              power saturation)) Hin).
    reflexivity.
  - intros Hout. unfold CDL.CDLOpData_new, CDL.validate. cbv zeta.
    cbn [CDL.base CDL.m_slopeParams CDL.m_powerParams CDL.m_saturation].
    rewrite Hbase. cbn [bind].
    destruct (validateParams_spec slope power saturation)
      as [[Hin _] | [_ [e [He Hmsg]]]]; [congruence |].
    exists e. rewrite He. split; [reflexivity | exact Hmsg].
  - reflexivity.
  - reflexivity.
  - eexists. split; [reflexivity |]. split; [reflexivity |].
    match goal with |- CDL.validate ?x = _ <-> _ => exact (Hvalid x) end.
  - eexists. split; [reflexivity |]. split; [reflexivity |].
    match goal with |- CDL.validate ?x = _ <-> _ => exact (Hvalid x) end.
  - eexists. split; [reflexivity |]. split; [reflexivity |].
    match goal with |- CDL.validate ?x = _ <-> _ => exact (Hvalid x) end.
Qed.

(** The values of the unit test [CDLOpData, validation_failure] given to
    the default-constructed object: slope -0.9, power 1.2, saturation 1.17. *)
Lemma CDL_only_the_constructor_validates_witness :
  let d := CDL.CDLOpData_default (Base := unit) in
  let style := CDL.CDL_V1_2_FWD in
  let slope := CDL.uniform (Double.lit (-9) 10) in
  let offset := CDL.uniform (Double.lit 1 100) in
  let power := CDL.uniform (Double.lit 12 10) in
  let saturation := Double.lit 117 100 in
  (CDL.in_domain slope power saturation = true ->
   CDL.CDLOpData_new style slope offset power saturation =
     Ok (CDL.mkCDLOpData OpData_default style slope offset power saturation)) /\
  (CDL.in_domain slope power saturation = false ->
   throws_with (CDL.CDLOpData_new style slope offset power saturation)
     " should be greater than ") /\
  CDL.setStyle d style =
    Ok (CDL.mkCDLOpData (CDL.base d) style (CDL.m_slopeParams d)
          (CDL.m_offsetParams d) (CDL.m_powerParams d) (CDL.m_saturation d)) /\
  CDL.setOffsetParams d offset =
    Ok (CDL.mkCDLOpData (CDL.base d) (CDL.m_style d) (CDL.m_slopeParams d)
          offset (CDL.m_powerParams d) (CDL.m_saturation d)) /\
  (exists d',
     CDL.setSlopeParams d slope = Ok d' /\
     d' = CDL.mkCDLOpData (CDL.base d) (CDL.m_style d) slope
            (CDL.m_offsetParams d) (CDL.m_powerParams d) (CDL.m_saturation d) /\
     (CDL.validate d' = Ok tt <->
      CDL.in_domain slope (CDL.m_powerParams d) (CDL.m_saturation d) = true)) /\
  (exists d',
     CDL.setPowerParams d power = Ok d' /\
     d' = CDL.mkCDLOpData (CDL.base d) (CDL.m_style d) (CDL.m_slopeParams d)
            (CDL.m_offsetParams d) power (CDL.m_saturation d) /\
     (CDL.validate d' = Ok tt <->
      CDL.in_domain (CDL.m_slopeParams d) power (CDL.m_saturation d) = true)) /\
  (exists d',
     CDL.setSaturation d saturation = Ok d' /\
     d' = CDL.mkCDLOpData (CDL.base d) (CDL.m_style d) (CDL.m_slopeParams d)
            (CDL.m_offsetParams d) (CDL.m_powerParams d) saturation /\
     (CDL.validate d' = Ok tt <->
      CDL.in_domain (CDL.m_slopeParams d) (CDL.m_powerParams d) saturation
        = true)).
Proof.
  intros d style slope offset power saturation.
  apply (CDL_only_the_constructor_validates d style slope offset power
           saturation).
  intros b. reflexivity.
Defined.

(* ================================================================== *)
(** * NaN through every Range renderer *)
(* ================================================================== *)

(** C9, as the code has it.  On a buffer of [numPixels] RGBA pixels [apply]
    returns without an error and copies alpha, and every NaN in R, G or B
    becomes: the lower bound in the four renderers that clamp from below
    ("NaNs become m_lowerBound"); the upper bound in the two renderers whose
    only bound is the upper one ("NaNs become m_upperBound"); NaN in
    [RangeScaleRenderer], which does not clamp. *)
Theorem Range_apply_sends_every_NaN_to_the_renderer_bound `{MathUtils}
    (k : Range.Renderer) (r : Range.RangeOpCPU) (inImg : list Single.t)
    (numPixels : Z) :
  Clamp_sends_nan_to_min ->
  (Range.has_both_bounds k = true ->
   Single.lt (Range.m_upperBound r) (Range.m_lowerBound r) = false) ->
  0 <= numPixels ->
  length inImg = (4 * Z.to_nat numPixels)%nat ->
  exists out,
    Range.apply k r inImg numPixels = Ok out /\
    length out = length inImg /\
    forall i : nat, (i < Z.to_nat numPixels)%nat ->
      nth_error out (4 * i + 3) = nth_error inImg (4 * i + 3) /\
      forall c : nat, (c < 3)%nat ->
        nth_error inImg (4 * i + c) = Some Single.nan ->
        nth_error out (4 * i + c) =
          Some (if Range.has_lower_bound k then Range.m_lowerBound r
                else if Range.has_upper_bound_only k then Range.m_upperBound r
                else Single.nan).
Proof.
  intros Hclamp Hordered Hn Hlen.
  destruct (apply_loop_pixels k r (Z.to_nat numPixels) inImg Hlen)
    as [out [Hrun [Hout Hpix]]].
  exists out. split; [exact Hrun |]. split; [lia |].
  intros i Hi. split.
  - destruct (Hpix i 3%nat Hi ltac:(lia)) as [a [Hina Houta]].
    rewrite Hina, Houta. reflexivity.
  - intros c Hc Hnan.
    destruct (Hpix i c Hi ltac:(lia)) as [x [Hinx Houtx]].
    rewrite Hnan in Hinx. injection Hinx as <-.
    destruct (Nat.ltb_spec c 3) as [_ | Hge]; [| lia].
    rewrite Houtx. f_equal.
    destruct (render_channel_nan k r Hclamp Hordered) as [Hlow Hup].
    destruct (Range.has_lower_bound k) eqn:Hl; [apply Hlow; reflexivity |].
    destruct (Range.has_upper_bound_only k) eqn:Hu; [apply Hup; reflexivity |].
    destruct k; try discriminate Hl; try discriminate Hu.
    apply scaled_nan.
Qed.

(** Two pixels with NaN channels through the renderer of the unit test
    [RangeOpCPU, scale_with_low_and_high_clippings]: a range from [0, 1] to
    [0.5, 1.5]. *)
Lemma Range_apply_sends_every_NaN_to_the_renderer_bound_witness :
  let r := Range.RangeOpCPU_new Double.one (Double.lit 1 2) (Double.lit 1 2)
             (Double.lit 3 2) in
  let inImg := [Single.nan; Single.zero; Single.nan; Single.zero;
                Single.zero; Single.nan; Single.zero; Single.nan] in
  let k := Range.RangeScaleMinMaxRenderer in
  exists out,
    Range.apply k r inImg 2 = Ok out /\
    length out = length inImg /\
    forall i : nat, (i < Z.to_nat 2)%nat ->
      nth_error out (4 * i + 3) = nth_error inImg (4 * i + 3) /\
      forall c : nat, (c < 3)%nat ->
        nth_error inImg (4 * i + c) = Some Single.nan ->
        nth_error out (4 * i + c) =
          Some (if Range.has_lower_bound k then Range.m_lowerBound r
                else if Range.has_upper_bound_only k then Range.m_upperBound r
                else Single.nan).
Proof.
  intros r inImg k.
  refine (Range_apply_sends_every_NaN_to_the_renderer_bound k r inImg 2
            _ _ _ _).
  - intros lo hi Hord. simpl.
    rewrite std_max_nan. unfold Single.std_min. rewrite Hord. reflexivity.
  - intros _. vm_compute. reflexivity.
  - lia.
  - reflexivity.
Defined.

(* ================================================================== *)
(** * The lookup of a dynamic property *)
(* ================================================================== *)

(** C10.  [GPUProcessor::Impl::getDynamicProperty] is the answer of the
    first op of [m_ops], in sequence order, that has a property of the kind
    asked for ([List.find] gives that op): the lookup does what that op's
    [getDynamicProperty] does.  When no op has the kind it raises "Cannot
    find dynamic property; not used by GPU processor."; a value it returns
    always comes from that first op, never from a default. *)
Theorem getDynamicProperty_is_the_answer_of_the_first_op
    {Op : Type} `{GpuInterface Op}
    (m_ops : list Op) (type : DynamicPropertyType) :
  GPU.getDynamicProperty m_ops type =
    match find (fun op => hasDynamicProperty op type) m_ops with
    | Some op => op_getDynamicProperty op type
    | None =>
        Throw (mkException
                 [Str "Cannot find dynamic property; not used by GPU processor."])
    end /\
  (Forall (fun op => hasDynamicProperty op type = false) m_ops ->
   throws_with (GPU.getDynamicProperty m_ops type)
     "Cannot find dynamic property; not used by GPU processor.") /\
  (forall v,
     GPU.getDynamicProperty m_ops type = Ok v ->
     exists pre op suf,
       m_ops = pre ++ op :: suf /\
       Forall (fun o => hasDynamicProperty o type = false) pre /\
       hasDynamicProperty op type = true /\
       op_getDynamicProperty op type = Ok v).
Proof.
  split; [| split].
  - induction m_ops as [| op rest IH]; [reflexivity |].
    simpl. destruct (hasDynamicProperty op type); [reflexivity | exact IH].
  - intros Hnone.
    rewrite <- (app_nil_r m_ops).
    rewrite (getDynamicProperty_skips m_ops type Hnone). simpl.
    eexists. split; [reflexivity | simpl; tauto].
  - induction m_ops as [| op rest IH]; intros v Hv; simpl in Hv.
    + discriminate Hv.
    + destruct (hasDynamicProperty op type) eqn:Hop.
      * exists [], op, rest. repeat split; [constructor | exact Hop | exact Hv].
      * destruct (IH v Hv) as [pre [o [suf [-> [Hpre [Ho Hval]]]]]].
        exists (op :: pre), o, suf.
        repeat split; [constructor; assumption | exact Ho | exact Hval].
Qed.
(* ================================================================== *)
(** * The legacy GPU path *)
(* ================================================================== *)

(** C8, as the code has it.  With a legacy shader description
    [extractGpuShaderInfo] partitions [m_ops] and finalizes the interior
    ops.  When the interior is not empty and the lattice of [edgelen]^3
    RGBA samples fits the 32-bit counters, it renders the identity lattice
    (blue fastest) through every interior op in order, keeps the R, G and B
    values, makes the forward 3D LUT op of them, and goes on with prefix,
    LUT and suffix.  When the interior is empty no lattice is rendered and
    no LUT is made: it goes on with prefix and suffix alone.  Going on is:
    [OptimizeOpVec] at 32-bit float depth, [FinalizeOpVec], the shader code
    of each op in order, then header, footer and [finalize()]. *)
Theorem extractGpuShaderInfo_legacy_bakes_the_interior
    {Op : Type} `{OpInterface Op} `{Lut1DInterface Op}
    `{Optimizer.OptimizerEnv Op} `{GpuInterface Op}
    (fuel : nat) (m_ops pre interior post lattice : list Op) (edgelen : Z)
    (shaderDesc : GpuShaderDesc) :
  PartitionGPUOps m_ops = (pre, interior, post) ->
  FinalizeOpVec interior FINALIZATION_DEFAULT = Ok lattice ->
  let shader_of := fun gpuOps : list Op =>
    optimized <- Optimizer.OptimizeOpVec fuel gpuOps BIT_DEPTH_F32
                   OPTIMIZATION_DEFAULT ;;
    final <- FinalizeOpVec (Optimizer.opt_ops optimized) FINALIZATION_DEFAULT ;;
    shaderDesc1 <- GPU.generate final shaderDesc ;;
    shaderDesc_finalize
      (GPU.WriteShaderFooter (GPU.WriteShaderHeader shaderDesc1)) in
  (lattice = [] ->
   GPU.extractGpuShaderInfo fuel m_ops (Some edgelen) shaderDesc =
     shader_of (pre ++ post)) /\
  (forall identity rendered : list Single.t,
     lattice <> [] ->
     0 < edgelen * edgelen * edgelen ->
     4 * (edgelen * edgelen * edgelen) < 2 ^ 32 ->
     length (getArray (Lut3DOpData_new edgelen)) =
       Z.to_nat (3 * (edgelen * edgelen * edgelen)) ->
     GenerateIdentityLut3D
       (repeat Single.zero (Z.to_nat (4 * (edgelen * edgelen * edgelen))))
       edgelen 4 LUT3DORDER_FAST_BLUE = Ok identity ->
     GPU.apply_ops lattice identity (edgelen * edgelen * edgelen)
       = Ok rendered ->
     length rendered = Z.to_nat (4 * (edgelen * edgelen * edgelen)) ->
     GPU.extractGpuShaderInfo fuel m_ops (Some edgelen) shaderDesc =
       shader_of
         (pre ++
          CreateLut3DOp
            (setArray (Lut3DOpData_new edgelen) (GPU.rgb_of rendered))
            TRANSFORM_DIR_FORWARD ++
          post)).
Proof.
  intros Hpart Hfin shader_of. subst shader_of. cbv beta.
  unfold GPU.extractGpuShaderInfo, GPU.legacy_ops.
  rewrite Hpart, Hfin. cbn [bind].
  split.
  - intros ->. cbn [GPU.Create3DLut bind app].
    destruct (Optimizer.OptimizeOpVec fuel (pre ++ post) BIT_DEPTH_F32
                OPTIMIZATION_DEFAULT) as [optimized | e | f];
      reflexivity.
  - intros identity rendered Hne Hpos Hfit Harr Hgen Happly Hlen.
    rewrite (Create3DLut_spec lattice edgelen identity rendered
               Hne Hpos Hfit Harr Hgen Happly Hlen).
    cbn [bind].
    match goal with
    | |- context [Optimizer.OptimizeOpVec fuel ?ops BIT_DEPTH_F32
                    OPTIMIZATION_DEFAULT] =>
        destruct (Optimizer.OptimizeOpVec fuel ops BIT_DEPTH_F32
                    OPTIMIZATION_DEFAULT) as [optimized | e | f]
    end; reflexivity.
Qed.

(** A scale, a gamma op that the legacy shader cannot express, and a
    saturation op, with a lattice of edge length 2: code is generated for
    the scale, the 3D LUT that the gamma op became, and the saturation op. *)
Lemma extractGpuShaderInfo_legacy_bakes_the_interior_witness :
  exists shaderDesc : TestOps.Desc,
    GPU.extractGpuShaderInfo 100
      [TestOps.ScaleOp 1; TestOps.GammaOp; TestOps.SatOp] (Some 2)
      (TestOps.mkDesc [] [] [] false) = Ok shaderDesc /\
    TestOps.d_body shaderDesc = ["matrix"; "lut3d"; "cdl"]%string /\
    TestOps.d_finalized shaderDesc = true.
Proof.
  pose (identity :=
          match TestOps.generate_identity (repeat Single.zero 32) 2 4
                  LUT3DORDER_FAST_BLUE with
          | Ok x => x
          | _ => []
          end).
  pose (rendered :=
          match GPU.apply_ops [TestOps.GammaOp] identity 8 with
          | Ok x => x
          | _ => []
          end).
  destruct (@extractGpuShaderInfo_legacy_bakes_the_interior
              TestOps.Op _ _ _ TestOps.gpu 100
              [TestOps.ScaleOp 1; TestOps.GammaOp; TestOps.SatOp]
              [TestOps.ScaleOp 1] [TestOps.GammaOp] [TestOps.SatOp]
              [TestOps.GammaOp] 2 (TestOps.mkDesc [] [] [] false)
              eq_refl eq_refl) as [_ Hbake].
  eexists.
  rewrite (Hbake identity rendered).
  - vm_compute. split; [reflexivity |]. split; reflexivity.
  - discriminate.
  - lia.
  - vm_compute. reflexivity.
  - reflexivity.
  - vm_compute. reflexivity.
  - vm_compute. reflexivity.
  - vm_compute. reflexivity.
Defined.

(** Against C8 as stated: a scale and a saturation op are both expressed by
    the legacy shader, so the interior is empty; [Create3DLut] returns no
    op for it and the sequence that code is generated for holds no 3D LUT. *)
Lemma legacy_path_without_interior_makes_no_LUT :
  PartitionGPUOps [TestOps.ScaleOp 1; TestOps.SatOp] =
    ([TestOps.ScaleOp 1; TestOps.SatOp], [], []) /\
  GPU.Create3DLut (Op := TestOps.Op) [] 2 = Ok [] /\
  GPU.legacy_ops 100 [TestOps.ScaleOp 1; TestOps.SatOp] 2 =
    Ok [TestOps.ScaleOp 1; TestOps.SatOp] /\
  exists shaderDesc : TestOps.Desc,
    GPU.extractGpuShaderInfo 100 [TestOps.ScaleOp 1; TestOps.SatOp] (Some 2)
      (TestOps.mkDesc [] [] [] false) = Ok shaderDesc /\
    TestOps.d_body shaderDesc = ["matrix"; "cdl"]%string.
Proof.
  split; [reflexivity |]. split; [reflexivity |].
  split; [vm_compute; reflexivity |].
  eexists. split; [vm_compute; reflexivity | reflexivity].
Qed.
